(** * The metabolite summary of cobrapy: [cobra/summary/metabolite_summary.py]

  A shallow embedding of [MetaboliteSummary]: the construction of the
  producing and consuming flux tables ([_generate]) and their rendering
  ([_display_flux], [_string_table], [_html_table], [to_string],
  [to_html]).

  The tables are pandas frames of float64 cells.  The embedding is written
  over an interface [Number] of the float operations the code uses; the
  numerical statements are read at its instance [binary64]: IEEE 754 double
  precision as specified by [SpecFloat] (signed zeros, infinities, NaN,
  rounding to nearest even). *)

From Stdlib Require Import List String Ascii Bool ZArith Lia Permutation Sorted.
From Stdlib Require Import Floats.SpecFloat.
Import ListNotations.
Local Open Scope string_scope.
Local Open Scope list_scope.

(** ** The arithmetic of a float64 cell *)

Class Number (F : Type) := {
fzero : F;                 (* the literal [0] stored in a float column *)
fadd : F -> F -> F;        (* [+] *)
fmul : F -> F -> F;        (* [*] *)
fdiv : F -> F -> F;        (* [/] on columns: never raises *)
fabs : F -> F;             (* [.abs()] *)
fltb : F -> F -> bool;     (* [<] *)
fleb : F -> F -> bool;     (* [<=] *)
feqb : F -> F -> bool      (* [==] *)
}.

Definition fgtb {F} `{Number F} (x y : F) : bool := fltb y x.   (* [x > y] *)
Definition fgeb {F} `{Number F} (x y : F) : bool := fleb y x.   (* [x >= y] *)

Module Binary64.
Definition prec : Z := 53.
Definition emax : Z := 1024.
Definition float := spec_float.

Definition pzero : float := S754_zero false.
Definition nzero : float := S754_zero true.
Definition nan : float := S754_nan.

(** A small integer as a float: exact for the values used in examples. *)
Definition of_Z (z : Z) : float := binary_normalize prec emax z 0 false.

Definition is_nan (x : float) : bool :=
  match x with S754_nan => true | _ => false end.

Definition is_zero (x : float) : bool :=
  match x with S754_zero _ => true | _ => false end.

(** Python's [math.isfinite]: neither an infinity nor NaN. *)
Definition is_finite (x : float) : bool :=
  match x with S754_zero _ | S754_finite _ _ _ => true | _ => false end.

(** A float of the format: the mantissa of a finite float is normalised for
    its exponent, which lies in the range of the format. *)
Definition valid (x : float) : bool := valid_binary prec emax x.

Definition sign_of (x : float) : bool :=
  match x with
  | S754_zero s | S754_infinity s | S754_finite s _ _ => s
  | S754_nan => false
  end.

(** The magnitude of a float in units of the smallest subnormal number;
    infinity is given the first power of two above all finite floats. *)
Definition rank (x : float) : Z :=
  match x with
  | S754_zero _ => 0%Z
  | S754_finite _ m e => (Zpos m * 2 ^ (e + 1074))%Z
  | S754_infinity _ => (2 ^ 2098)%Z
  | S754_nan => 0%Z
  end.

(** The same with the sign: the order of the floats is the order of these. *)
Definition srank (x : float) : Z :=
  if sign_of x then (- rank x)%Z else rank x.


(** A float that is a number of the format and not negative. *)
Definition magnitude (v : float) : Prop :=
  valid v = true /\ is_nan v = false /\ sign_of v = false.

End Binary64.

#[export] Instance binary64 : Number Binary64.float := {|
fzero := Binary64.pzero;
fadd := SFadd Binary64.prec Binary64.emax;
fmul := SFmul Binary64.prec Binary64.emax;
fdiv := SFdiv Binary64.prec Binary64.emax;
fabs := SFabs;
fltb := SFltb;
fleb := SFleb;
feqb := SFeqb
|}.

(** ** Rounding to nearest, ties to even

  [SpecFloat] rounds a mantissa by halving it step by step with a round and
  a sticky bit.  The definitions below say what that computes. *)

Section RoundingToNearest.
Local Open Scope Z_scope.

(** A record [(q, r, s)] holds the quotient of [m] by [2 ^ n], whether the
    remainder reaches the half and whether it is neither nothing nor the
    half. *)
Definition holds (m n : Z) (mrs : shr_record) : Prop :=
  shr_m mrs = m / 2 ^ n
  /\ shr_r mrs = (2 ^ n <=? 2 * (m mod 2 ^ n))
  /\ shr_s mrs = negb (m mod 2 ^ n =? 0) && negb (2 * (m mod 2 ^ n) =? 2 ^ n).

(** Rounding of [m / 2 ^ n] to the nearest integer, ties to even. *)
Definition rne (m n : Z) : Z :=
  let q := m / 2 ^ n in
  let r := m mod 2 ^ n in
  if 2 * r <? 2 ^ n then q
  else if 2 ^ n <? 2 * r then q + 1
  else if Z.even q then q else q + 1.

(** The position of a value between two integers, as two more bits. *)
Definition loc_code (l : location) : Z :=
  match l with
  | loc_Exact => 0
  | loc_Inexact Lt => 1
  | loc_Inexact Eq => 2
  | loc_Inexact Gt => 3
  end.

(** The float with sign [s] and magnitude [N * 2 ^ t], for [N] of at most 54
    bits. *)
Definition pack (s : bool) (N t : Z) : spec_float :=
  match N with
  | Z0 => S754_zero s
  | Zpos p =>
      if N <? 2 ^ 53
      then if t <=? 971 then S754_finite s p t else S754_infinity s
      else if t + 1 <=? 971 then S754_finite s 4503599627370496 (t + 1)
           else S754_infinity s
  | Zneg _ => S754_nan
  end.

(** The exponent that the format gives to [m * 2 ^ e], and the condition that
    [e] is not above it. *)
Definition target (m e : Z) : Z := fexp 53 1024 (Zdigits2 m + e).

Definition pre (m e : Z) : Prop := e <= fexp 53 1024 (Zdigits2 m + e).

(** The rounded magnitude of [m * 2 ^ e], in units of the smallest subnormal
    number. *)
Definition rounded (m e : Z) : Z :=
  rne m (target m e - e) * 2 ^ (target m e + 1074).

End RoundingToNearest.

(** ** Data model *)

Section Summary.
Context {F : Type} {number : Number F}.

(** The collaborators of the summary, as far as the code reads them. *)
Record Metabolite := {
  met_id : string;
  met_name : string;
  met_formula : string
}.

Record Reaction := {
  id : string;
  get_coefficient : string -> F;          (* [r.get_coefficient(metabolite_id)] *)
  build_reaction_string : bool -> string  (* [r.build_reaction_string(names)] *)
}.

Record Model := { tolerance : F }.

(** [solution[r.id]]: the flux of a reaction, [KeyError] when absent. *)
Definition Solution := list (string * F).

Definition solution_get (solution : Solution) (key : string) : option F :=
  option_map snd (find (fun entry => String.eqb (fst entry) key) solution).

(** A frame indexed by reaction identifier with the columns [minimum] and
    [maximum]. *)
Definition FVA := list (string * (F * F)).

(** The [fva] argument: [None], a fraction of the optimum, or a frame. *)
Inductive FvaArg :=
| FvaNone
| FvaFraction (fraction_of_optimum : F)
| FvaFrame (frame : FVA).

(** A row of the local frame [flux] of [_generate]; [fx_bounds] is [None]
    as long as the frame has no [minimum] and [maximum] columns. *)
Record FluxRow := {
  fx_index : string;
  fx_reaction : string;
  fx_flux : F;
  fx_factor : F;
  fx_bounds : option (F * F)
}.

(** A row of [producing_fluxes], [consuming_fluxes] and of the frames that
    rendering derives from them.  A cell of a column that the frame does
    not have is [None]. *)
Record Row := {
  index : string;
  flux : F;
  bounds : option (F * F);       (* the cells [minimum] and [maximum] *)
  reaction : string;
  percent : F;
  definition : option string;
  range : option (F * F)
}.

Record DataFrame := {
  columns : list string;
  rows : list Row
}.

(** What [_generate] assigns to [self]. *)
Record Generated := {
  producing_fluxes : DataFrame;
  consuming_fluxes : DataFrame;
  _flux : list FluxRow
}.

(** ** Construction: [MetaboliteSummary._generate] *)

(** The solver and the variability analysis are external. *)
Variable pfba : Model -> option Solution.
Variable flux_variability_analysis : Model -> list string -> F -> option FVA.

Fixpoint basic_flux_table (metabolite_id : string) (solution : Solution)
    (reactions : list Reaction) : option (list FluxRow) :=
  match reactions with
  | [] => Some []
  | r :: rest =>
      match solution_get solution (id r), basic_flux_table metabolite_id solution rest with
      | Some x, Some table =>
          Some ({| fx_index := id r; fx_reaction := id r; fx_flux := x;
                   fx_factor := get_coefficient r metabolite_id;
                   fx_bounds := None |} :: table)
      | _, _ => None
      end
  end.

(** [flux["flux"] *= flux["factor"]] *)
Definition scale_flux (row : FluxRow) : FluxRow :=
  {| fx_index := fx_index row; fx_reaction := fx_reaction row;
     fx_flux := fmul (fx_flux row) (fx_factor row);
     fx_factor := fx_factor row; fx_bounds := fx_bounds row |}.

(** [flux.join(fva)]: a left join on the index.  A row without a partner
    gets missing cells (NaN), here [None]; one with several partners is
    repeated. *)
Definition join (flux : list FluxRow) (fva : FVA)
    : list (FluxRow * option (F * F)) :=
  flat_map
    (fun row =>
       match filter (fun entry => String.eqb (fst entry) (fx_index row)) fva with
       | [] => [(row, None)]
       | partners => map (fun entry => (row, Some (snd entry))) partners
       end)
    flux.

(** One cell of [view.where(view.abs() >= model.tolerance, 0)]. *)
Definition where_abs_ge (tol x : F) : F :=
  if fgeb (fabs x) tol then x else fzero.

(** The same for a joined cell; a missing cell is NaN, fails the test and
    becomes [0]. *)
Definition where_abs_ge_cell (tol : F) (cell : option F) : F :=
  match cell with
  | Some x => where_abs_ge tol x
  | None => fzero
  end.

Definition where_row (tol : F) (joined : FluxRow * option (F * F)) : FluxRow :=
  let (row, partner) := joined in
  {| fx_index := fx_index row; fx_reaction := fx_reaction row;
     fx_flux := where_abs_ge tol (fx_flux row);
     fx_factor := fx_factor row;
     fx_bounds := Some (where_abs_ge_cell tol (option_map fst partner),
                        where_abs_ge_cell tol (option_map snd partner)) |}.

Definition map_bounds (f : F -> F * F -> F * F) (row : FluxRow) : FluxRow :=
  {| fx_index := fx_index row; fx_reaction := fx_reaction row;
     fx_flux := fx_flux row; fx_factor := fx_factor row;
     fx_bounds := option_map (f (fx_factor row)) (fx_bounds row) |}.

(** [flux[["minimum", "maximum"]].mul(flux["factor"], axis=0)] *)
Definition mul_bounds (factor : F) (b : F * F) : F * F :=
  (fmul (fst b) factor, fmul (snd b) factor).

(** The three assignments through [negative = flux["factor"] < 0]. *)
Definition swap_negative (factor : F) (b : F * F) : F * F :=
  if fltb factor fzero then (snd b, fst b) else b.

(** [flux[["flux", "minimum", "maximum"]] += 0] *)
Definition add_zero (row : FluxRow) : FluxRow :=
  {| fx_index := fx_index row; fx_reaction := fx_reaction row;
     fx_flux := fadd (fx_flux row) fzero;
     fx_factor := fx_factor row;
     fx_bounds := option_map (fun b => (fadd (fst b) fzero, fadd (snd b) fzero))
                             (fx_bounds row) |}.

(** [flux.loc[flux["flux"].abs() < model.tolerance, "flux"] = 0] *)
Definition zero_below (tol : F) (row : FluxRow) : FluxRow :=
  {| fx_index := fx_index row; fx_reaction := fx_reaction row;
     fx_flux := if fltb (fabs (fx_flux row)) tol then fzero else fx_flux row;
     fx_factor := fx_factor row; fx_bounds := fx_bounds row |}.

Definition is_produced (row : FluxRow) : bool :=
  fgtb (fx_flux row) fzero || (feqb (fx_flux row) fzero && fgtb (fx_factor row) fzero).

Definition is_consumed (row : FluxRow) : bool :=
  fltb (fx_flux row) fzero || (feqb (fx_flux row) fzero && fltb (fx_factor row) fzero).

(** [Series.sum()]: missing values (NaN, the cells with [x != x]) are
    skipped, the empty sum is [0]. *)
Definition series_sum (values : list F) : F :=
  fold_left fadd (filter (fun x => feqb x x) values) fzero.

(** [flux.loc[mask, [...]].copy()] followed by the [percent] column. *)
Definition select (ranged : bool) (mask : FluxRow -> bool) (flux : list FluxRow)
    : DataFrame :=
  let chosen := filter mask flux in
  let magnitude := map (fun row => fabs (fx_flux row)) chosen in
  let total := series_sum magnitude in
  {| columns := (if ranged then ["flux"; "minimum"; "maximum"; "reaction"]
                 else ["flux"; "reaction"]) ++ ["percent"];
     rows := map (fun row =>
                    {| index := fx_index row;
                       flux := fx_flux row;
                       bounds := if ranged then fx_bounds row else None;
                       reaction := fx_reaction row;
                       percent := fdiv (fabs (fx_flux row)) total;
                       definition := None;
                       range := None |})
                 chosen |}.

Definition _generate (metabolite : Metabolite) (reactions : list Reaction)
    (model : Model) (solution : option Solution) (fva : FvaArg)
    : option Generated :=
  match (match solution with Some s => Some s | None => pfba model end) with
  | None => None
  | Some solution =>
    match (match fva with
           | FvaFraction fraction =>
               option_map Some
                 (flux_variability_analysis model (map id reactions) fraction)
           | FvaFrame frame => Some (Some frame)
           | FvaNone => Some None
           end) with
    | None => None
    | Some fva =>
      match basic_flux_table (met_id metabolite) solution reactions with
      | None => None
      | Some flux =>
        let flux := map scale_flux flux in
        let flux :=
          match fva with
          | Some fva =>
              let flux := map (where_row (tolerance model)) (join flux fva) in
              let flux := map (map_bounds mul_bounds) flux in
              let flux := map (map_bounds swap_negative) flux in
              map add_zero flux
          | None =>
              let flux := map (zero_below (tolerance model)) flux in
              map add_zero flux
          end in
        let ranged := match fva with Some _ => true | None => false end in
        Some {| producing_fluxes := select ranged is_produced flux;
                consuming_fluxes := select ranged is_consumed flux;
                _flux := flux |}
      end
    end
  end.

(** ** Objects and references

    Rendering assigns to frames in place ([frame["definition"] = ...],
    [frame.columns = ...]).  Frames therefore live in a store; a variable or
    an attribute holds a reference, [.loc[...]], [.copy()] and [frame[[...]]]
    create new objects. *)

Definition ref := nat.
Definition Store := list DataFrame.
Definition M (A : Type) : Type := Store -> option (A * Store).

Definition ret {A} (a : A) : M A := fun st => Some (a, st).

Definition raise {A} : M A := fun _ => None.

Definition bind {A B} (c : M A) (k : A -> M B) : M B :=
  fun st => match c st with
            | Some (a, st') => k a st'
            | None => None
            end.

Notation "x <- c ;; k" := (bind c (fun x => k))
  (at level 61, c at next level, right associativity).
Notation "c ;;; k" := (bind c (fun _ => k))
  (at level 61, right associativity).

Definition new (frame : DataFrame) : M ref :=
  fun st => Some (List.length st, st ++ [frame]).

Definition get (r : ref) : M DataFrame :=
  fun st => match nth_error st r with
            | Some frame => Some (frame, st)
            | None => None
            end.

Fixpoint update (st : Store) (r : ref) (frame : DataFrame) : Store :=
  match st, r with
  | [], _ => []
  | _ :: rest, O => frame :: rest
  | old :: rest, S r' => old :: update rest r' frame
  end.

Definition put (r : ref) (frame : DataFrame) : M unit :=
  fun st => match nth_error st r with
            | Some _ => Some (tt, update st r frame)
            | None => None
            end.

(** ** The summary object *)

Record MetaboliteSummary := {
  _model : Model;
  _metabolite : Metabolite;
  _reactions : list Reaction;
  self_producing_fluxes : ref;     (* [self.producing_fluxes] *)
  self_consuming_fluxes : ref;     (* [self.consuming_fluxes] *)
  self_flux : list FluxRow         (* [self._flux] *)
}.

(** [sorted(metabolite.reactions, key=attrgetter("id"))]: a stable sort by
    code points; a reaction goes in front of the first one, among those that
    followed it, whose identifier is not smaller. *)
Fixpoint insert_by_id (r : Reaction) (sorted : list Reaction) : list Reaction :=
  match sorted with
  | [] => [r]
  | r' :: rest =>
      if String.leb (id r) (id r') then r :: sorted
      else r' :: insert_by_id r rest
  end.

Definition sorted_by_id (reactions : list Reaction) : list Reaction :=
  fold_right insert_by_id [] reactions.

(** [MetaboliteSummary.__init__] *)
Definition __init__ (metabolite : Metabolite) (metabolite_reactions : list Reaction)
    (model : Model) (solution : option Solution) (fva : FvaArg)
    : M MetaboliteSummary :=
  let reactions := sorted_by_id metabolite_reactions in
  match _generate metabolite reactions model solution fva with
  | None => raise
  | Some generated =>
      producing <- new (producing_fluxes generated) ;;
      consuming <- new (consuming_fluxes generated) ;;
      ret {| _model := model; _metabolite := metabolite; _reactions := reactions;
             self_producing_fluxes := producing;
             self_consuming_fluxes := consuming;
             self_flux := _flux generated |}
  end.

(** ** Rendering *)

Definition has_column (name : string) (frame : DataFrame) : bool :=
  existsb (String.eqb name) (columns frame).

(** The row mask of a frame with [minimum] and [maximum]. *)
Definition keep_ranged (threshold : F) (row : Row) : bool :=
  fgeb (fabs (flux row)) threshold
  || match bounds row with
     | Some (minimum, maximum) =>
         fgeb (fabs minimum) threshold || fgeb (fabs maximum) threshold
     | None => false
     end.

(** The row mask of a frame without them. *)
Definition keep_plain (threshold : F) (row : Row) : bool :=
  fgeb (fabs (flux row)) threshold.

(** [{r.id: r for r in self._reactions}[rxn_id]]: the last reaction with the
    identifier, [KeyError] when there is none. *)
Definition reactions_by_id (reactions : list Reaction) (rxn_id : string)
    : option Reaction :=
  find (fun r => String.eqb (id r) rxn_id) (rev reactions).

(** [frame["definition"] = [reactions[rxn_id].build_reaction_string(names)
    for rxn_id in frame["reaction"]]] on the rows. *)
Fixpoint with_definition (reactions : list Reaction) (names : bool)
    (table : list Row) : option (list Row) :=
  match table with
  | [] => Some []
  | row :: rest =>
      match reactions_by_id reactions (reaction row),
            with_definition reactions names rest with
      | Some r, Some rest' =>
          Some ({| index := index row; flux := flux row; bounds := bounds row;
                   reaction := reaction row; percent := percent row;
                   definition := Some (build_reaction_string r names);
                   range := range row |} :: rest')
      | _, _ => None
      end
  end.

(** Assigning a column appends its name unless the frame has it. *)
Definition add_column (name : string) (frame : DataFrame) : list string :=
  if has_column name frame then columns frame else columns frame ++ [name].

(** [frame["range"] = list(frame[["minimum", "maximum"]].itertuples(...))] *)
Definition with_range (row : Row) : Row :=
  {| index := index row; flux := flux row; bounds := bounds row;
     reaction := reaction row; percent := percent row;
     definition := definition row; range := bounds row |}.

(** The rows of [frame[[...]]] when the selection leaves out [minimum] and
    [maximum]. *)
Definition without_bounds (row : Row) : Row :=
  {| index := index row; flux := flux row; bounds := None;
     reaction := reaction row; percent := percent row;
     definition := definition row; range := range row |}.

(** The rows of [frame[["percent", "flux", "reaction", "definition"]]]. *)
Definition without_bounds_and_range (row : Row) : Row :=
  {| index := index row; flux := flux row; bounds := None;
     reaction := reaction row; percent := percent row;
     definition := definition row; range := None |}.

Definition _display_flux (self : MetaboliteSummary) (frame : ref) (names : bool)
    (threshold : F) : M ref :=
  old <- get frame ;;
  located <-
    (if has_column "minimum" old && has_column "maximum" old
     then new {| columns := columns old;
                 rows := filter (keep_ranged threshold) (rows old) |}
     else new {| columns := columns old;
                 rows := filter (keep_plain threshold) (rows old) |}) ;;
  selected <- get located ;;
  frame <- new selected ;;                                   (* [.copy()] *)
  current <- get frame ;;
  match with_definition (_reactions self) names (rows current) with
  | None => raise
  | Some defined =>
      put frame {| columns := add_column "definition" current; rows := defined |} ;;;
      current <- get frame ;;
      if has_column "minimum" current && has_column "maximum" current
      then
        put frame {| columns := add_column "range" current;
                     rows := map with_range (rows current) |} ;;;
        current <- get frame ;;
        new {| columns := ["percent"; "flux"; "range"; "reaction"; "definition"];
               rows := map without_bounds (rows current) |}
      else
        new {| columns := ["percent"; "flux"; "reaction"; "definition"];
               rows := map without_bounds_and_range (rows current) |}
  end.

(** [str.title] on ASCII: a cased character is upper case at the start of a
    run of cased characters and lower case inside it. *)
Definition is_lower (c : ascii) : bool :=
  (97 <=? nat_of_ascii c)%nat && (nat_of_ascii c <=? 122)%nat.

Definition is_upper (c : ascii) : bool :=
  (65 <=? nat_of_ascii c)%nat && (nat_of_ascii c <=? 90)%nat.

Fixpoint title_from (previous_is_cased : bool) (s : string) : string :=
  match s with
  | EmptyString => EmptyString
  | String c rest =>
      let c' :=
        if is_lower c
        then (if previous_is_cased then c else ascii_of_nat (nat_of_ascii c - 32))
        else if is_upper c
        then (if previous_is_cased then ascii_of_nat (nat_of_ascii c + 32) else c)
        else c in
      String c' (title_from (is_lower c || is_upper c) rest)
  end.

Definition title (s : string) : string := title_from false s.

(** The table formatters of pandas and [textwrap.shorten] are external. *)
Variable frame_to_string : DataFrame -> string -> Z -> string.
Variable frame_to_html : DataFrame -> string -> string.
Variable shorten : string -> Z -> string.

Definition _string_table (frame : ref) (float_format : string) (column_width : Z)
    : M string :=
  old <- get frame ;;
  put frame {| columns := map title (columns old); rows := rows old |} ;;;
  current <- get frame ;;
  ret (frame_to_string current float_format column_width).

Definition _html_table (frame : ref) (float_format : string) : M string :=
  old <- get frame ;;
  put frame {| columns := map title (columns old); rows := rows old |} ;;;
  current <- get frame ;;
  ret (frame_to_html current float_format).

(** Modelled from the spec: [cobra.flux_analysis.helpers.normalize_cutoff] is
    imported by the module but is not among the sources.  The caller-supplied
    threshold is widened to at least the model's numerical tolerance. *)
Definition normalize_cutoff (model : Model) (threshold : F) : F :=
  if fltb threshold (tolerance model) then tolerance model else threshold.

Definition newline : string := String (ascii_of_nat 10) EmptyString.

Fixpoint repeat_string (s : string) (n : nat) : string :=
  match n with
  | O => EmptyString
  | S n' => (s ++ repeat_string s n')%string
  end.

Definition to_string (self : MetaboliteSummary) (names : bool) (threshold : F)
    (float_format : string) (column_width : Z) : M string :=
  let threshold := normalize_cutoff (_model self) threshold in
  let metabolite :=
    if names then shorten (met_name (_metabolite self)) column_width
    else shorten (met_id (_metabolite self)) column_width in
  displayed <- _display_flux self (self_producing_fluxes self) names threshold ;;
  production <- _string_table displayed float_format column_width ;;
  displayed <- _display_flux self (self_consuming_fluxes self) names threshold ;;
  consumption <- _string_table displayed float_format column_width ;;
  ret (metabolite ++ newline
       ++ repeat_string "=" (String.length metabolite) ++ newline
       ++ "Formula: " ++ met_formula (_metabolite self) ++ newline ++ newline
       ++ "Producing Reactions" ++ newline
       ++ "-------------------" ++ newline
       ++ production ++ newline ++ newline
       ++ "Consuming Reactions" ++ newline
       ++ "-------------------" ++ newline
       ++ consumption)%string.

Definition to_html (self : MetaboliteSummary) (names : bool) (threshold : F)
    (float_format : string) : M string :=
  let metabolite :=
    if names then met_name (_metabolite self) else met_id (_metabolite self) in
  displayed <- _display_flux self (self_producing_fluxes self) names threshold ;;
  production <- _html_table displayed float_format ;;
  displayed <- _display_flux self (self_consuming_fluxes self) names threshold ;;
  consumption <- _html_table displayed float_format ;;
  ret ("<h3>" ++ metabolite ++ "</h3>"
       ++ "<p>" ++ met_formula (_metabolite self) ++ "</p>"
       ++ "<h4>Producing Reactions</h4>"
       ++ production
       ++ "<h4>Consuming Reactions</h4>"
       ++ consumption)%string.

End Summary.

Arguments Metabolite : clear implicits.
Arguments Reaction : clear implicits.
Arguments Model : clear implicits.
Arguments Solution : clear implicits.
Arguments FVA : clear implicits.
Arguments FvaArg : clear implicits.
Arguments FluxRow : clear implicits.
Arguments Row : clear implicits.
Arguments DataFrame : clear implicits.
Arguments Generated : clear implicits.
Arguments MetaboliteSummary : clear implicits.
Arguments Store : clear implicits.

(** * Notions used in the statements *)

Section Notions.
Context {F : Type} {number : Number F}.
Variable pfba : Model F -> option (Solution F).
Variable flux_variability_analysis : Model F -> list string -> F -> option (FVA F).

(** The solution that [_generate] works with. *)
Definition resolved_solution (model : Model F) (solution : option (Solution F))
    (sol : Solution F) : Prop :=
  solution = Some sol \/ (solution = None /\ pfba model = Some sol).

(** The variability frame that [_generate] works with, if any. *)
Definition resolved_fva (model : Model F) (reactions : list (Reaction F))
    (fva : FvaArg F) (frame : option (FVA F)) : Prop :=
  match fva with
  | FvaNone => frame = None
  | FvaFrame f => frame = Some f
  | FvaFraction fraction =>
      exists f, flux_variability_analysis model (map id reactions) fraction = Some f
                /\ frame = Some f
  end.

(** The row of a reaction after [flux["flux"] *= flux["factor"]]. *)
Definition scaled_row (metabolite : Metabolite) (r : Reaction F) (x : F) : FluxRow F :=
  {| fx_index := id r; fx_reaction := id r;
     fx_flux := fmul x (get_coefficient r (met_id metabolite));
     fx_factor := get_coefficient r (met_id metabolite);
     fx_bounds := None |}.

(** What the branch without variability data stores for a row. *)
Definition plain_row (tol : F) (row : FluxRow F) : FluxRow F :=
  add_zero (zero_below tol row).

(** What the branch with variability data stores for a joined row. *)
Definition ranged_row (tol : F) (joined : FluxRow F * option (F * F)) : FluxRow F :=
  add_zero (map_bounds swap_negative (map_bounds mul_bounds (where_row tol joined))).

Definition final_flux (tol : F) (frame : option (FVA F)) (scaled : list (FluxRow F))
    : list (FluxRow F) :=
  match frame with
  | Some f => map (ranged_row tol) (join scaled f)
  | None => map (plain_row tol) scaled
  end.

Definition is_ranged (frame : option (FVA F)) : bool :=
  match frame with Some _ => true | None => false end.

(** Where a joined row comes from: a row of the left frame, and either no
    partner or the bounds of a row of [fva] with the same index. *)
Definition partner_of (fva : FVA F) (row : FluxRow F) (partner : option (F * F))
    : Prop :=
  match partner with
  | None => forall b, ~ In (fx_index row, b) fva
  | Some b => In (fx_index row, b) fva
  end.

(** The total that the percentages of a table are taken of. *)
Definition total_flux (frame : DataFrame F) : F :=
  series_sum (map (fun row => fabs (flux row)) (rows frame)).

(** The bounds that the branch with variability data stores: the partner's
    bounds pass [where(abs >= tolerance, 0)], are multiplied by the factor,
    change places when the factor is negative, and get [0] added. *)
Definition oriented_bounds (tol factor : F) (partner : option (F * F)) : F * F :=
  let lo := where_abs_ge_cell tol (option_map fst partner) in
  let hi := where_abs_ge_cell tol (option_map snd partner) in
  if fltb factor fzero
  then (fadd (fmul hi factor) fzero, fadd (fmul lo factor) fzero)
  else (fadd (fmul lo factor) fzero, fadd (fmul hi factor) fzero).

(** The row mask that [_display_flux] applies to a frame. *)
Definition row_mask (old : DataFrame F) (threshold : F) : Row F -> bool :=
  if has_column "minimum" old && has_column "maximum" old
  then keep_ranged threshold else keep_plain threshold.

(** The three frames that [_display_flux] creates for a frame [old]: the
    result of [.loc], its copy with the assigned columns, and the result. *)
Definition display_frames (reactions : list (Reaction F)) (old : DataFrame F)
    (names : bool) (threshold : F)
    : option (DataFrame F * DataFrame F * DataFrame F) :=
  let located := {| columns := columns old;
                    rows := filter (row_mask old threshold) (rows old) |} in
  match with_definition reactions names (rows located) with
  | None => None
  | Some defined =>
      let current := {| columns := add_column "definition" located;
                        rows := defined |} in
      if has_column "minimum" current && has_column "maximum" current
      then Some (located,
                 {| columns := add_column "range" current;
                    rows := map with_range defined |},
                 {| columns := ["percent"; "flux"; "range"; "reaction"; "definition"];
                    rows := map without_bounds (map with_range defined) |})
      else Some (located, current,
                 {| columns := ["percent"; "flux"; "reaction"; "definition"];
                    rows := map without_bounds_and_range defined |})
  end.

(** [frame.columns = [header.title() for header in frame.columns]] *)
Definition titled (frame : DataFrame F) : DataFrame F :=
  {| columns := map title (columns frame); rows := rows frame |}.

(** One table of a rendering: [_display_flux] on a stored frame, then a
    formatter on its result.  The store grows by three frames, the last of
    which gets title-cased headers; what was in the store stays. *)
Definition rendered_store (st : Store F) (located copy result : DataFrame F)
    : Store F :=
  st ++ [located; copy; titled result].

(** The summary's tables are in the store, and each of their rows names one
    of the summary's reactions. *)
Definition known_rows (self : MetaboliteSummary F) (frame : DataFrame F) : Prop :=
  forall row, In row (rows frame) ->
    reactions_by_id (_reactions self) (reaction row) <> None.

Definition summary_in_store (self : MetaboliteSummary F) (st : Store F) : Prop :=
  exists producing consuming,
    nth_error st (self_producing_fluxes self) = Some producing
    /\ nth_error st (self_consuming_fluxes self) = Some consuming
    /\ known_rows self producing /\ known_rows self consuming.

(** A predicate on rows that does not read the [definition] cell. *)
Definition ignores_definition (p : Row F -> bool) : Prop :=
  forall row text,
    p {| index := index row; flux := flux row; bounds := bounds row;
         reaction := reaction row; percent := percent row;
         definition := text; range := range row |} = p row.

(** Whether the copy has [minimum] and [maximum] once [definition] is
    assigned; the threshold plays no part in it. *)
Definition result_is_ranged (old : DataFrame F) : bool :=
  existsb (String.eqb "minimum") (add_column "definition" old)
  && existsb (String.eqb "maximum") (add_column "definition" old).

(** The cells of a row of the returned frame. *)
Definition result_shape (old : DataFrame F) (row : Row F) : Row F :=
  if result_is_ranged old then without_bounds (with_range row)
  else without_bounds_and_range row.

End Notions.

(** A list of identifiers in ascending order (by code points), equal
    neighbours allowed. *)
Definition ascending (ids : list string) : Prop :=
  StronglySorted (fun a b => String.leb a b = true) ids.

(** * Example data *)

Definition no_pfba {F} : Model F -> option (Solution F) := fun _ => None.

Definition no_analysis {F} : Model F -> list string -> F -> option (FVA F) :=
  fun _ _ _ => None.

Definition water : Metabolite :=
  {| met_id := "h2o_c"; met_name := "H2O"; met_formula := "H2O" |}.

(** 1e-9, the double nearest to it. *)
Definition tolerance_1e_9 : Binary64.float :=
  SFdiv Binary64.prec Binary64.emax (Binary64.of_Z 1) (Binary64.of_Z 1000000000).

(** A reaction that lists the metabolite with coefficient [0.0]. *)
Definition idle_reaction : Reaction Binary64.float :=
  {| id := "IDLE";
     get_coefficient := fun _ => Binary64.pzero;
     build_reaction_string := fun _ => "a_c --> b_c" |}.

Definition producing_reaction : Reaction Binary64.float :=
  {| id := "A";
     get_coefficient := fun _ => Binary64.of_Z 1;
     build_reaction_string := fun _ => "a_c --> h2o_c" |}.

Definition consuming_reaction : Reaction Binary64.float :=
  {| id := "B";
     get_coefficient := fun _ => Binary64.of_Z (-2);
     build_reaction_string := fun _ => "2 h2o_c --> b_c" |}.

Definition tiny_flux : Binary64.float :=
  SFdiv Binary64.prec Binary64.emax (Binary64.of_Z 1) (Binary64.of_Z 1000000000000).


Definition reversed_reaction : Reaction Binary64.float :=
  {| id := "B";
     get_coefficient := fun _ => Binary64.of_Z (-1);
     build_reaction_string := fun _ => "h2o_c --> b_c" |}.

(** Stand-ins for the external formatters: the headers of the frame and the
    reaction of each of its rows. *)
Definition listing {F} (frame : DataFrame F) : string :=
  (String.concat " " (columns frame) ++ ":"
   ++ String.concat "," (map reaction (rows frame)))%string.

Definition text_table {F} (frame : DataFrame F) (float_format : string)
    (column_width : Z) : string := listing frame.

Definition html_table {F} (frame : DataFrame F) (float_format : string) : string :=
  listing frame.

Definition no_shorten (text : string) (width : Z) : string := text.

Definition float_reaction (name : string) (coefficient : Z) : Reaction Binary64.float :=
  {| id := name;
     get_coefficient := fun _ => Binary64.of_Z coefficient;
     build_reaction_string := fun names => if names then "water" else "h2o_c" |}.

(** A reaction with a given coefficient, and the float nearest to [p / q]. *)
Definition reaction_with (name : string) (coefficient : Binary64.float)
    : Reaction Binary64.float :=
  {| id := name;
     get_coefficient := fun _ => coefficient;
     build_reaction_string := fun names => if names then "water" else "h2o_c" |}.

Definition ratio (p q : Z) : Binary64.float :=
  SFdiv Binary64.prec Binary64.emax (Binary64.of_Z p) (Binary64.of_Z q).



(** Reactions A, C and D produce the metabolite, B consumes it; C carries no
    flux. *)
Definition example_reactions : list (Reaction Binary64.float) :=
  [float_reaction "D" 1; float_reaction "B" (-2);
   float_reaction "A" 1; float_reaction "C" 1].

Definition example_solution : Solution Binary64.float :=
  [("A", Binary64.of_Z 5); ("B", Binary64.of_Z 3);
   ("C", Binary64.pzero); ("D", Binary64.of_Z 2)].

Definition example_summary : M (MetaboliteSummary Binary64.float) :=
  __init__ no_pfba no_analysis water example_reactions
    {| tolerance := tolerance_1e_9 |} (Some example_solution) FvaNone.

(** A summary object whose reaction list has lost the producing reactions
    of the example. *)
Definition stray_summary : MetaboliteSummary Binary64.float :=
  {| _model := {| tolerance := tolerance_1e_9 |};
     _metabolite := water;
     _reactions := [float_reaction "B" (-2)];
     self_producing_fluxes := 0;
     self_consuming_fluxes := 1;
     self_flux := [] |}.

(** * Properties that hold for every arithmetic *)

Section Structure.
Context {F : Type} {number : Number F}.
Variable pfba : Model F -> option (Solution F).
Variable flux_variability_analysis : Model F -> list string -> F -> option (FVA F).

Lemma basic_flux_table_rows metabolite (solution : Solution F)
    (reactions : list (Reaction F)) table :
  basic_flux_table (met_id metabolite) solution reactions = Some table ->
  forall row, In row (map scale_flux table) ->
  exists r x, In r reactions /\ solution_get solution (id r) = Some x
              /\ row = scaled_row metabolite r x.
Proof.
  revert table. induction reactions as [|r rest IH]; simpl; intros table Htable row Hin.
  - injection Htable as <-. destruct Hin.
  - destruct (solution_get solution (id r)) as [x|] eqn:Hx; try discriminate.
    destruct (basic_flux_table (met_id metabolite) solution rest) as [t|] eqn:Ht;
      try discriminate.
    injection Htable as <-. simpl in Hin. destruct Hin as [<-|Hin].
    + exists r, x. auto.
    + destruct (IH t eq_refl row Hin) as (r' & x' & Hr' & Hx' & ->).
      exists r', x'. auto.
Qed.

Lemma basic_flux_table_total metabolite_id (solution : Solution F)
    (reactions : list (Reaction F)) :
  (forall r, In r reactions -> solution_get solution (id r) <> None) ->
  exists table, basic_flux_table metabolite_id solution reactions = Some table.
Proof.
  induction reactions as [|r rest IH]; simpl; intros Hcover.
  - eauto.
  - destruct (solution_get solution (id r)) as [x|] eqn:Hx.
    + destruct IH as [t ->]; eauto.
    + exfalso. apply (Hcover r); auto.
Qed.

Lemma basic_flux_table_index metabolite_id (solution : Solution F)
    (reactions : list (Reaction F)) table :
  basic_flux_table metabolite_id solution reactions = Some table ->
  map fx_index table = map id reactions.
Proof.
  revert table. induction reactions as [|r rest IH]; simpl; intros table Htable.
  - injection Htable as <-. reflexivity.
  - destruct (solution_get solution (id r)); try discriminate.
    destruct (basic_flux_table metabolite_id solution rest) as [t|]; try discriminate.
    injection Htable as <-. simpl. f_equal. auto.
Qed.

(** [_generate] succeeds exactly through the steps below. *)
Lemma generate_inv metabolite reactions model solution fva g :
  _generate pfba flux_variability_analysis metabolite reactions model solution fva
    = Some g ->
  exists sol frame table,
    resolved_solution pfba model solution sol
    /\ resolved_fva flux_variability_analysis model reactions fva frame
    /\ basic_flux_table (met_id metabolite) sol reactions = Some table
    /\ _flux g = final_flux (tolerance model) frame (map scale_flux table)
    /\ producing_fluxes g = select (is_ranged frame) is_produced (_flux g)
    /\ consuming_fluxes g = select (is_ranged frame) is_consumed (_flux g).
Proof.
  unfold _generate. intros Hg.
  destruct (match solution with Some s => Some s | None => pfba model end)
    as [sol|] eqn:Hsol; try discriminate.
  assert (Hrs : resolved_solution pfba model solution sol).
  { unfold resolved_solution. destruct solution; [left; congruence | right; auto]. }
  destruct (match fva with
            | FvaNone => Some None
            | FvaFraction fraction =>
                option_map Some
                  (flux_variability_analysis model (map id reactions) fraction)
            | FvaFrame frame => Some (Some frame)
            end) as [frame|] eqn:Hfva; try discriminate.
  assert (Hrf : resolved_fva flux_variability_analysis model reactions fva frame).
  { unfold resolved_fva. destruct fva as [|fraction|f]; simpl in Hfva.
    - congruence.
    - destruct (flux_variability_analysis model (map id reactions) fraction) as [f|];
        simpl in Hfva; try discriminate.
      exists f. split; congruence.
    - congruence. }
  destruct (basic_flux_table (met_id metabolite) sol reactions) as [table|] eqn:Htable;
    try discriminate.
  injection Hg as <-. exists sol, frame, table. simpl.
  destruct frame; simpl; repeat split; auto; unfold ranged_row, plain_row;
    rewrite ?map_map; reflexivity.
Qed.

End Structure.

Section Origins.
Context {F : Type} {number : Number F}.

Lemma filter_index_none (fva : FVA F) key :
  filter (fun entry => String.eqb (fst entry) key) fva = [] ->
  forall b, ~ In (key, b) fva.
Proof.
  induction fva as [|[k v] rest IH]; simpl; intros Hnil b Hin; auto.
  destruct (String.eqb k key) eqn:Hk; try discriminate.
  destruct Hin as [Heq|Hin].
  - injection Heq as -> _. rewrite String.eqb_refl in Hk. discriminate.
  - exact (IH Hnil b Hin).
Qed.

Lemma join_origin (flux : list (FluxRow F)) (fva : FVA F) row partner :
  In (row, partner) (join flux fva) <->
  In row flux /\ partner_of fva row partner.
Proof.
  unfold join. rewrite in_flat_map. split.
  - intros (row' & Hrow' & Hin).
    destruct (filter (fun entry => String.eqb (fst entry) (fx_index row')) fva)
      as [|e es] eqn:Hf.
    + destruct Hin as [Heq|[]]. injection Heq as <- <-. split; auto.
      simpl. now apply filter_index_none.
    + rewrite <- Hf in Hin. apply in_map_iff in Hin.
      destruct Hin as ([k b] & Heq & Hin). injection Heq as <- <-.
      apply filter_In in Hin. destruct Hin as [Hin Hk]. simpl in Hk.
      apply String.eqb_eq in Hk. subst k. split; auto.
  - intros [Hrow Hp]. exists row. split; auto.
    destruct (filter (fun entry => String.eqb (fst entry) (fx_index row)) fva)
      as [|e es] eqn:Hf.
    + destruct partner as [b|]; [|now left].
      simpl in Hp. exfalso. exact (filter_index_none _ _ Hf b Hp).
    + rewrite <- Hf. destruct partner as [b|]; simpl in Hp.
      * apply in_map_iff. exists (fx_index row, b). split; auto.
        apply filter_In. split; auto. simpl. apply String.eqb_refl.
      * exfalso. assert (Hin : In e (e :: es)) by now left.
        rewrite <- Hf in Hin. apply filter_In in Hin. destruct Hin as [Hin Hk].
        destruct e as [k b]. simpl in Hk. apply String.eqb_eq in Hk. subst k.
        exact (Hp b Hin).
Qed.

(** Every stored row is the image of a scaled row (and of its partner). *)
Lemma final_flux_origin tol (frame : option (FVA F)) scaled row :
  In row (final_flux tol frame scaled) <->
  match frame with
  | None => exists s, In s scaled /\ row = plain_row tol s
  | Some f => exists s partner,
      In s scaled /\ partner_of f s partner /\ row = ranged_row tol (s, partner)
  end.
Proof.
  unfold final_flux. destruct frame as [f|]; rewrite in_map_iff.
  - split.
    + intros ([s partner] & <- & Hin). apply join_origin in Hin.
      exists s, partner. tauto.
    + intros (s & partner & Hs & Hp & ->). exists (s, partner). split; auto.
      apply join_origin. auto.
  - split.
    + intros (s & <- & Hin). eauto.
    + intros (s & Hin & ->). eauto.
Qed.

Lemma filter_complement_Permutation {A} (p q : A -> bool) (l : list A) :
  (forall x, In x l -> q x = negb (p x)) ->
  Permutation (filter p l ++ filter q l) l.
Proof.
  induction l as [|a l IH]; simpl; intros Hpq; auto.
  rewrite (Hpq a (or_introl eq_refl)).
  assert (IH' : Permutation (filter p l ++ filter q l) l) by auto.
  destruct (p a); simpl.
  - now constructor.
  - apply Permutation_sym, Permutation_cons_app, Permutation_sym, IH'.
Qed.

Lemma filter_either_Permutation {A} (p q : A -> bool) (l : list A) :
  (forall x, In x l -> p x && q x = false) ->
  Permutation (filter p l ++ filter q l) (filter (fun x => p x || q x) l).
Proof.
  induction l as [|a l IH]; simpl; intros Hpq; auto.
  assert (IH' : Permutation (filter p l ++ filter q l)
                  (filter (fun x => p x || q x) l)) by auto.
  pose proof (Hpq a (or_introl eq_refl)) as Ha.
  destruct (p a), (q a); simpl in *; try discriminate; auto.
  apply Permutation_sym, Permutation_cons_app, Permutation_sym, IH'.
Qed.

Lemma select_index ranged mask (table : list (FluxRow F)) :
  map index (rows (select ranged mask table)) = map fx_index (filter mask table).
Proof. unfold select. simpl. now rewrite map_map. Qed.

Lemma select_reaction ranged mask (table : list (FluxRow F)) :
  map reaction (rows (select ranged mask table)) = map fx_reaction (filter mask table).
Proof. unfold select. simpl. now rewrite map_map. Qed.

Lemma select_flux ranged mask (table : list (FluxRow F)) :
  map flux (rows (select ranged mask table)) = map fx_flux (filter mask table).
Proof. unfold select. simpl. now rewrite map_map. Qed.

Lemma select_percent ranged mask (table : list (FluxRow F)) row :
  In row (rows (select ranged mask table)) ->
  percent row = fdiv (fabs (flux row)) (total_flux (select ranged mask table)).
Proof.
  unfold total_flux, select. simpl. rewrite map_map. simpl.
  rewrite in_map_iff. intros (s & <- & _). reflexivity.
Qed.

Lemma select_row_source ranged mask (table : list (FluxRow F)) row :
  In row (rows (select ranged mask table)) ->
  exists s, In s table /\ mask s = true
            /\ index row = fx_index s /\ reaction row = fx_reaction s
            /\ flux row = fx_flux s
            /\ bounds row = (if ranged then fx_bounds s else None)
            /\ definition row = None /\ range row = None.
Proof.
  unfold select. simpl. rewrite in_map_iff. intros (s & <- & Hin).
  apply filter_In in Hin. destruct Hin. exists s. simpl. tauto.
Qed.

End Origins.

Section GenerateRows.
Context {F : Type} {number : Number F}.
Variable pfba : Model F -> option (Solution F).
Variable flux_variability_analysis : Model F -> list string -> F -> option (FVA F).

Lemma resolved_fva_functional model reactions (fva : FvaArg F) frame frame' :
  resolved_fva flux_variability_analysis model reactions fva frame ->
  resolved_fva flux_variability_analysis model reactions fva frame' ->
  frame = frame'.
Proof.
  unfold resolved_fva. destruct fva as [|fraction|f]; try congruence.
  intros (f & Hf & ->) (f' & Hf' & ->). congruence.
Qed.

Lemma ranged_row_fields tol (s : FluxRow F) partner :
  ranged_row tol (s, partner) =
  {| fx_index := fx_index s; fx_reaction := fx_reaction s;
     fx_flux := fadd (where_abs_ge tol (fx_flux s)) fzero;
     fx_factor := fx_factor s;
     fx_bounds := Some (oriented_bounds tol (fx_factor s) partner) |}.
Proof.
  unfold ranged_row, add_zero, map_bounds, where_row, oriented_bounds,
    swap_negative, mul_bounds. simpl.
  destruct (fltb (fx_factor s) fzero); reflexivity.
Qed.

Lemma plain_row_fields tol (s : FluxRow F) :
  plain_row tol s =
  {| fx_index := fx_index s; fx_reaction := fx_reaction s;
     fx_flux := fadd (if fltb (fabs (fx_flux s)) tol then fzero else fx_flux s) fzero;
     fx_factor := fx_factor s;
     fx_bounds := option_map (fun b => (fadd (fst b) fzero, fadd (snd b) fzero))
                    (fx_bounds s) |}.
Proof. reflexivity. Qed.

(** Every row of [_flux] stems from a reaction and its flux in the solution,
    and, with variability data, from a partner in the variability frame. *)
Lemma generate_flux_origin metabolite reactions model solution fva g :
  _generate pfba flux_variability_analysis metabolite reactions model solution fva
    = Some g ->
  exists sol frame,
    resolved_solution pfba model solution sol
    /\ resolved_fva flux_variability_analysis model reactions fva frame
    /\ producing_fluxes g = select (is_ranged frame) is_produced (_flux g)
    /\ consuming_fluxes g = select (is_ranged frame) is_consumed (_flux g)
    /\ forall row, In row (_flux g) ->
       exists r x,
         In r reactions /\ solution_get sol (id r) = Some x
         /\ match frame with
            | None => row = plain_row (tolerance model) (scaled_row metabolite r x)
            | Some f =>
                exists partner,
                  partner_of f row partner
                  /\ row = ranged_row (tolerance model)
                             (scaled_row metabolite r x, partner)
            end.
Proof.
  intros Hg.
  destruct (generate_inv _ _ _ _ _ _ _ _ Hg)
    as (sol & frame & table & Hsol & Hfva & Htable & Hflux & Hp & Hc).
  exists sol, frame. repeat (split; [assumption|]).
  intros row Hin. rewrite Hflux in Hin. apply final_flux_origin in Hin.
  destruct frame as [f|].
  - destruct Hin as (s & partner & Hs & Hpartner & ->).
    destruct (basic_flux_table_rows _ _ _ _ Htable s Hs) as (r & x & Hr & Hx & ->).
    exists r, x. repeat (split; [assumption|]). exists partner. split; auto.
  - destruct Hin as (s & Hs & ->).
    destruct (basic_flux_table_rows _ _ _ _ Htable s Hs) as (r & x & Hr & Hx & ->).
    exists r, x. auto.
Qed.

(** Construction fails only when a flux is missing or a collaborator fails. *)
Lemma generate_total metabolite reactions model solution fva sol frame :
  resolved_solution pfba model solution sol ->
  resolved_fva flux_variability_analysis model reactions fva frame ->
  (forall r, In r reactions -> solution_get sol (id r) <> None) ->
  exists g,
    _generate pfba flux_variability_analysis metabolite reactions model solution fva
      = Some g.
Proof.
  intros Hsol Hfva Hcover. unfold _generate.
  assert (Hs : match solution with Some s => Some s | None => pfba model end = Some sol).
  { destruct Hsol as [-> | [-> ->]]; reflexivity. }
  rewrite Hs.
  assert (Hf : match fva with
               | FvaNone => Some None
               | FvaFraction fraction =>
                   option_map Some
                     (flux_variability_analysis model (map id reactions) fraction)
               | FvaFrame f => Some (Some f)
               end = Some frame).
  { unfold resolved_fva in Hfva. destruct fva as [|fraction|f].
    - now subst.
    - destruct Hfva as (f & -> & ->). reflexivity.
    - now subst. }
  rewrite Hf.
  destruct (basic_flux_table_total (met_id metabolite) sol reactions Hcover) as [t ->].
  eauto.
Qed.

End GenerateRows.

(** * Rounding in binary64 *)

Section Rounding.
Import Binary64.
Local Open Scope Z_scope.

Lemma fexp_spec e : fexp 53 1024 e = Z.max (e - 53) (-1074).
Proof. reflexivity. Qed.

Lemma digits2_pos_spec p :
  2 ^ (Zpos (digits2_pos p) - 1) <= Zpos p < 2 ^ Zpos (digits2_pos p).
Proof.
  induction p as [p IH|p IH|]; simpl digits2_pos.
  - rewrite Pos2Z.inj_succ.
    replace (Z.succ (Zpos (digits2_pos p)) - 1) with (Z.succ (Zpos (digits2_pos p) - 1)) by lia.
    rewrite !Z.pow_succ_r by lia. lia.
  - rewrite Pos2Z.inj_succ.
    replace (Z.succ (Zpos (digits2_pos p)) - 1) with (Z.succ (Zpos (digits2_pos p) - 1)) by lia.
    rewrite !Z.pow_succ_r by lia. lia.
  - simpl. lia.
Qed.

Lemma Zdigits2_spec m :
  0 < m -> 2 ^ (Zdigits2 m - 1) <= m < 2 ^ Zdigits2 m.
Proof. destruct m; try lia. intros _. apply digits2_pos_spec. Qed.

Lemma Zdigits2_nonneg m : 0 <= m -> 0 <= Zdigits2 m.
Proof. destruct m; simpl; lia. Qed.

Lemma Zdigits2_pos m : 0 < m -> 0 < Zdigits2 m.
Proof. destruct m; simpl; lia. Qed.

Lemma pow2_lt_inv a b : 0 <= b -> 2 ^ a < 2 ^ b -> a < b.
Proof.
  intros Hb H. destruct (Z.lt_ge_cases a b) as [|Hge]; [assumption|].
  pose proof (Z.pow_le_mono_r 2 b a ltac:(lia) Hge). lia.
Qed.

Lemma pow2_pos a : 0 <= a -> 0 < 2 ^ a.
Proof. intros. apply Z.pow_pos_nonneg; lia. Qed.

Lemma Zdigits2_unique m k :
  0 < k -> 2 ^ (k - 1) <= m < 2 ^ k -> Zdigits2 m = k.
Proof.
  intros Hk [H1 H2].
  assert (Hm : 0 < m) by (pose proof (pow2_pos (k - 1)); lia).
  pose proof (Zdigits2_spec m Hm) as [H3 H4].
  pose proof (Zdigits2_pos m Hm).
  assert (k - 1 < Zdigits2 m) by (apply pow2_lt_inv; lia).
  assert (Zdigits2 m - 1 < k) by (apply pow2_lt_inv; lia).
  lia.
Qed.

(** ** Iterated halving *)

Lemma iter_pos_nat {A} (f : A -> A) p x :
  iter_pos f p x = Nat.iter (Pos.to_nat p) f x.
Proof.
  revert x. induction p as [p IH|p IH|]; intros x; simpl iter_pos.
  - rewrite !IH, Pos2Nat.inj_xI. 
    replace (S (2 * Pos.to_nat p))%nat with (Pos.to_nat p + (Pos.to_nat p + 1))%nat by lia.
    rewrite !Nat.iter_add. reflexivity.
  - rewrite !IH, Pos2Nat.inj_xO.
    replace (2 * Pos.to_nat p)%nat with (Pos.to_nat p + Pos.to_nat p)%nat by lia.
    rewrite Nat.iter_add. reflexivity.
  - reflexivity.
Qed.

Lemma shr_1_spec m r s :
  0 <= m ->
  shr_1 {| shr_m := m; shr_r := r; shr_s := s |}
  = {| shr_m := Z.div2 m; shr_r := Z.odd m; shr_s := r || s |}.
Proof. destruct m as [|[p|p|]|p]; try lia; reflexivity. Qed.

Lemma holds_start m : holds m 0 {| shr_m := m; shr_r := false; shr_s := false |}.
Proof.
  unfold holds. simpl. rewrite Z.div_1_r, Z.mod_1_r. auto.
Qed.

Lemma holds_shr_1 m n mrs :
  0 <= m -> 0 <= n -> holds m n mrs -> holds m (n + 1) (shr_1 mrs).
Proof.
  intros Hm Hn (Hq & Hr & Hs). destruct mrs as [q r s].
  cbn [shr_m shr_r shr_s] in Hq, Hr, Hs.
  assert (Hp : 0 < 2 ^ n) by now apply pow2_pos.
  assert (Hq0 : 0 <= q) by (subst q; apply Z.div_pos; lia).
  rewrite shr_1_spec by assumption. unfold holds. cbn [shr_m shr_r shr_s].
  rewrite Z.pow_add_r, Z.pow_1_r by lia.
  pose proof (Z.div_mod m (2 ^ n) ltac:(lia)) as Hdm.
  pose proof (Z.mod_pos_bound m (2 ^ n) Hp) as Hb.
  rewrite <- Hq in Hdm.
  pose proof (Z.div_mod q 2 ltac:(lia)) as Hq2.
  pose proof (Z.mod_pos_bound q 2 ltac:(lia)) as Hb2.
  assert (Hdiv : m / (2 ^ n * 2) = q / 2).
  { rewrite <- Z.div_div by lia. now rewrite <- Hq. }
  assert (Hmod : m mod (2 ^ n * 2) = (q mod 2) * 2 ^ n + m mod 2 ^ n).
  { pose proof (Z.div_mod m (2 ^ n * 2) ltac:(lia)) as H'. rewrite Hdiv in H'. nia. }
  rewrite Hdiv, Hmod, Z.div2_div.
  split; [reflexivity|].
  assert (Hodd : Z.odd q = (q mod 2 =? 1)).
  { rewrite Zmod_odd. destruct (Z.odd q); reflexivity. }
  split.
  - rewrite Hodd. destruct (Z.eqb_spec (q mod 2) 1) as [E|E].
    + rewrite E. symmetry. apply Z.leb_le. lia.
    + symmetry. apply Z.leb_gt. assert (q mod 2 = 0) by lia. nia.
  - rewrite Hr, Hs. clear Hr Hs Hmod Hdiv Hodd Hq2 Hdm.
    set (P := 2 ^ n) in *. set (R := m mod P) in *.
    assert (E : q mod 2 = 0 \/ q mod 2 = 1) by lia.
    destruct E as [E|E]; rewrite E, ?Z.mul_0_l, ?Z.mul_1_l, ?Z.add_0_l;
    destruct (Z.leb_spec P (2 * R)); destruct (Z.eqb_spec R 0);
    destruct (Z.eqb_spec (2 * R) P); cbn [negb andb orb]; try lia; symmetry;
    repeat match goal with
    | |- context [?a =? ?b] => destruct (Z.eqb_spec a b); cbn [negb andb orb]; try reflexivity; try lia
    end.
Qed.

Lemma holds_iter m n k mrs :
  0 <= m -> 0 <= n -> holds m n mrs ->
  holds m (n + Z.of_nat k) (Nat.iter k shr_1 mrs).
Proof.
  intros Hm Hn H. induction k as [|k IH].
  - simpl. now rewrite Z.add_0_r.
  - rewrite Nat2Z.inj_succ. simpl Nat.iter.
    replace (n + Z.succ (Z.of_nat k)) with (n + Z.of_nat k + 1) by lia.
    apply holds_shr_1; try lia. exact IH.
Qed.

Lemma holds_shr m n mrs e j :
  0 <= m -> 0 <= n -> 0 <= j -> holds m n mrs ->
  holds m (n + j) (fst (shr mrs e j)) /\ snd (shr mrs e j) = e + j.
Proof.
  intros Hm Hn Hj H. destruct j as [|p|p]; try lia; simpl.
  - now rewrite !Z.add_0_r.
  - split; [|reflexivity]. rewrite iter_pos_nat.
    rewrite <- (positive_nat_Z p). now apply holds_iter.
Qed.

Lemma rne_holds m n mrs :
  0 <= n -> holds m n mrs ->
  round_nearest_even (shr_m mrs) (loc_of_shr_record mrs) = rne m n.
Proof.
  intros Hn (Hq & Hr & Hs). destruct mrs as [q r s].
  cbn [shr_m shr_r shr_s] in *. unfold rne. rewrite <- Hq.
  assert (Hp : 0 < 2 ^ n) by now apply pow2_pos.
  pose proof (Z.mod_pos_bound m (2 ^ n) Hp) as Hb.
  set (P := 2 ^ n) in *. set (R := m mod P) in *.
  destruct (Z.ltb_spec (2 * R) P); destruct (Z.ltb_spec P (2 * R)); try lia;
    destruct (Z.leb_spec P (2 * R)); try lia;
    destruct (Z.eqb_spec R 0); destruct (Z.eqb_spec (2 * R) P); try lia;
    cbn [negb andb] in Hs; subst r s; reflexivity.
Qed.

Lemma rne_bounds m n :
  0 <= n -> m / 2 ^ n <= rne m n <= m / 2 ^ n + 1.
Proof.
  intros Hn. unfold rne.
  destruct (_ <? _); [lia|]. destruct (_ <? _); [lia|]. destruct (Z.even _); lia.
Qed.

Lemma rne_exact m n :
  0 <= n -> m mod 2 ^ n = 0 -> rne m n = m / 2 ^ n.
Proof.
  intros Hn H. unfold rne. rewrite H.
  pose proof (pow2_pos n Hn).
  destruct (Z.ltb_spec (2 * 0) (2 ^ n)); [reflexivity|lia].
Qed.


Lemma rne_monotone m m' n :
  0 <= n -> m <= m' -> rne m n <= rne m' n.
Proof.
  intros Hn Hm.
  assert (Hp : 0 < 2 ^ n) by now apply pow2_pos.
  pose proof (Z.div_le_mono m m' (2 ^ n) Hp Hm) as Hq.
  destruct (Z.eq_dec (m / 2 ^ n) (m' / 2 ^ n)) as [E|E].
  - assert (Hr : m mod 2 ^ n <= m' mod 2 ^ n).
    { pose proof (Z.div_mod m (2 ^ n) ltac:(lia)).
      pose proof (Z.div_mod m' (2 ^ n) ltac:(lia)). rewrite E in *. lia. }
    unfold rne. rewrite E.
    set (P := 2 ^ n) in *. set (R := m mod P) in *. set (R' := m' mod P) in *.
    destruct (Z.ltb_spec (2 * R) P); destruct (Z.ltb_spec (2 * R') P);
      destruct (Z.ltb_spec P (2 * R)); destruct (Z.ltb_spec P (2 * R'));
      try lia; destruct (Z.even (m' / P)); lia.
  - pose proof (rne_bounds m n Hn). pose proof (rne_bounds m' n Hn). lia.
Qed.

Lemma rne_scale m n k :
  0 <= n -> 0 <= k -> rne (m * 2 ^ k) (n + k) = rne m n.
Proof.
  intros Hn Hk. unfold rne.
  assert (Hp : 0 < 2 ^ n) by now apply pow2_pos.
  assert (Hpk : 0 < 2 ^ k) by now apply pow2_pos.
  rewrite Z.pow_add_r by lia.
  rewrite Z.div_mul_cancel_r by lia.
  rewrite Zmult_mod_distr_r.
  set (P := 2 ^ n) in *. set (R := m mod P) in *. set (K := 2 ^ k) in *.
  destruct (Z.ltb_spec (2 * R) P); destruct (Z.ltb_spec (2 * (R * K)) (P * K));
    try nia; try reflexivity.
  destruct (Z.ltb_spec P (2 * R)); destruct (Z.ltb_spec (P * K) (2 * (R * K)));
    try nia; reflexivity.
Qed.


Lemma shr_m_of_loc m l : shr_m (shr_record_of_loc m l) = m.
Proof. destruct l as [|[]]; reflexivity. Qed.

Lemma shr_nonpos mrs e j : j <= 0 -> shr mrs e j = (mrs, e).
Proof. destruct j; try lia; reflexivity. Qed.

Lemma div_pow2_lt m j k :
  0 <= j -> 0 <= k -> 0 <= m < 2 ^ (j + k) -> m / 2 ^ j < 2 ^ k.
Proof.
  intros Hj Hk Hm. apply Z.div_lt_upper_bound; [now apply pow2_pos|].
  rewrite <- Z.pow_add_r by lia. lia.
Qed.

Lemma div_pow2_ge m j k :
  0 <= j -> 0 <= k -> 2 ^ (j + k) <= m -> 2 ^ k <= m / 2 ^ j.
Proof.
  intros Hj Hk Hm. apply Z.div_le_lower_bound; [now apply pow2_pos|].
  rewrite <- Z.pow_add_r by lia. lia.
Qed.

Section Round.
Variables (m e M n0 : Z) (l : location).
Hypothesis Hm : 0 <= m.
Hypothesis Hn0 : 0 <= n0.
Hypothesis HM : 0 <= M.
Hypothesis Hrec : holds M n0 (shr_record_of_loc m l).
Hypothesis Hpre : e <= fexp 53 1024 (Zdigits2 m + e).

Let t := fexp 53 1024 (Zdigits2 m + e).
Let N := rne M (n0 + (t - e)).

Lemma round_quotient : M / 2 ^ (n0 + (t - e)) = m / 2 ^ (t - e).
Proof.
  destruct Hrec as (Hq & _). rewrite shr_m_of_loc in Hq.
  rewrite Z.pow_add_r by (unfold t; lia).
  rewrite <- Z.div_div by (try apply pow2_pos; unfold t; lia).
  now rewrite <- Hq.
Qed.

Lemma round_exponent : -1074 <= t.
Proof. unfold t. rewrite fexp_spec. lia. Qed.

Lemma round_low : m / 2 ^ (t - e) <= N.
Proof.
  rewrite <- round_quotient. apply rne_bounds. unfold t. lia.
Qed.

Lemma round_high : N <= m / 2 ^ (t - e) + 1.
Proof.
  rewrite <- round_quotient. apply rne_bounds. unfold t. lia.
Qed.

Lemma round_nonneg : 0 <= N.
Proof.
  pose proof round_low. assert (0 <= m / 2 ^ (t - e)); [|lia].
  apply Z.div_pos; [lia|]. apply pow2_pos. unfold t. lia.
Qed.

Lemma round_quotient_lt : m / 2 ^ (t - e) < 2 ^ 53.
Proof.
  destruct (Z.eq_dec m 0) as [->|Hnz].
  - rewrite Z.div_0_l; [reflexivity|]. pose proof (pow2_pos (t - e)). unfold t in *. lia.
  - pose proof (Zdigits2_spec m ltac:(lia)) as [_ Hd].
    pose proof (Zdigits2_pos m ltac:(lia)) as Hd0.
    apply div_pow2_lt; try (unfold t; lia). split; [lia|].
    eapply Z.lt_le_trans; [exact Hd|]. apply Z.pow_le_mono_r; [lia|].
    unfold t. rewrite fexp_spec. lia.
Qed.

Lemma round_le : N <= 2 ^ 53.
Proof. pose proof round_high. pose proof round_quotient_lt. lia. Qed.

(** In the normal range the rounded mantissa has 53 or 54 bits. *)
Lemma round_normal : -1074 < t -> 2 ^ 52 <= N.
Proof.
  intros Ht. pose proof round_low as Hlow.
  assert (Hnz : 0 < m).
  { destruct (Z.eq_dec m 0) as [E|E]; [|lia].
    exfalso. unfold t in *. rewrite E in *. simpl Zdigits2 in *.
    rewrite fexp_spec in *. lia. }
  pose proof (Zdigits2_spec m Hnz) as [Hd _].
  assert (Ht' : t = Zdigits2 m + e - 53) by (unfold t in *; rewrite fexp_spec in *; lia).
  assert (2 ^ 52 <= m / 2 ^ (t - e)); [|lia].
  apply div_pow2_ge; try lia.
  replace (t - e + 52) with (Zdigits2 m - 1) by lia. exact Hd.
Qed.

Lemma binary_round_aux_spec s :
  binary_round_aux 53 1024 s m e l = pack s N t.
Proof.
  unfold binary_round_aux, shr_fexp. fold t.
  assert (Ht : 0 <= t - e) by (unfold t; lia).
  destruct (holds_shr M n0 (shr_record_of_loc m l) e (t - e) HM Hn0 Ht Hrec)
    as [H1 H2].
  destruct (shr (shr_record_of_loc m l) e (t - e)) as [mrs' e'].
  cbn [fst snd] in H1, H2.
  rewrite (rne_holds M (n0 + (t - e)) mrs' ltac:(lia) H1). fold N.
  replace e' with t by lia. clear H1 H2 e' mrs'.
  pose proof round_nonneg as HN0. pose proof round_le as HN1.
  pose proof round_exponent as Ht0.
  destruct (Z.eq_dec N (2 ^ 53)) as [E|E].
  - rewrite E.
    assert (Hj : fexp 53 1024 (Zdigits2 (2 ^ 53) + t) - t = 1).
    { rewrite fexp_spec. change (Zdigits2 (2 ^ 53)) with 54. lia. }
    rewrite Hj. cbn -[Z.leb Z.add]. reflexivity.
  - destruct N as [|p|p] eqn:EN; try lia.
    + simpl Zdigits2.
      destruct (fexp 53 1024 (0 + t) - t) as [|j|j]; try reflexivity.
      simpl shr. rewrite iter_pos_nat.
      pose proof (holds_iter 0 0 (Pos.to_nat j) _ ltac:(lia) ltac:(lia)
                    (holds_start 0)) as (Hq & _).
      simpl shr_record_of_loc. rewrite Hq, Z.div_0_l; [reflexivity|].
      pose proof (pow2_pos (0 + Z.of_nat (Pos.to_nat j))). lia.
    + assert (Hd : Zdigits2 (Zpos p) <= 53).
      { pose proof (Zdigits2_spec (Zpos p) ltac:(lia)) as [Hd _].
        pose proof (Zdigits2_pos (Zpos p) ltac:(lia)).
        assert (Zdigits2 (Z.pos p) - 1 < 53); [|lia].
        apply pow2_lt_inv; lia. }
      rewrite shr_nonpos by (rewrite fexp_spec; lia).
      cbn [shr_m shr_record_of_loc pack].
      destruct (Z.ltb_spec (Zpos p) (2 ^ 53)); [reflexivity|lia].
Qed.

End Round.

Lemma valid_finite s m e :
  valid (S754_finite s m e) = true ->
  -1074 <= e <= 971 /\ Zpos (digits2_pos m) <= 53
  /\ (Zpos (digits2_pos m) = 53 \/ e = -1074).
Proof.
  unfold valid, prec, emax, valid_binary, bounded, canonical_mantissa.
  rewrite andb_true_iff, Z.eqb_eq, Z.leb_le, fexp_spec. lia.
Qed.

Lemma valid_finite_intro s m e :
  -1074 <= e <= 971 -> Zpos (digits2_pos m) <= 53 ->
  (Zpos (digits2_pos m) = 53 \/ e = -1074) ->
  valid (S754_finite s m e) = true.
Proof.
  unfold valid, prec, emax, valid_binary, bounded, canonical_mantissa.
  rewrite andb_true_iff, Z.eqb_eq, Z.leb_le, fexp_spec. lia.
Qed.

Lemma rank_finite_bounds s m e :
  -1074 <= e ->
  2 ^ (Zpos (digits2_pos m) + e + 1073) <= rank (S754_finite s m e)
  < 2 ^ (Zpos (digits2_pos m) + e + 1074).
Proof.
  intros He. cbn [rank]. pose proof (digits2_pos_spec m) as [H1 H2].
  assert (Hp : 0 < 2 ^ (e + 1074)) by (apply pow2_pos; lia).
  pose proof (Pos2Z.is_pos (digits2_pos m)) as Hd.
  set (d := Zpos (digits2_pos m)) in *.
  replace (d + e + 1073) with ((d - 1) + (e + 1074)) by lia.
  replace (d + e + 1074) with (d + (e + 1074)) by lia.
  rewrite (Z.pow_add_r 2 (d - 1) (e + 1074)), (Z.pow_add_r 2 d (e + 1074)) by lia.
  split.
  - apply Z.mul_le_mono_nonneg_r; lia.
  - apply Z.mul_lt_mono_pos_r; lia.
Qed.

Lemma rank_nonneg x : 0 <= rank x.
Proof.
  destruct x as [s|s| |s m e]; cbn [rank]; lia.
Qed.

Lemma rank_finite_pos s m e : -1074 <= e -> 0 < rank (S754_finite s m e).
Proof.
  intros He. cbn [rank]. apply Z.mul_pos_pos; [lia|]. apply pow2_pos. lia.
Qed.

Lemma rank_le_top x : valid x = true -> rank x <= 2 ^ 2098.
Proof.
  destruct x as [s|s| |s m e]; cbn [rank]; try lia; intros Hv.
  destruct (valid_finite _ _ _ Hv) as (He & Hd & _).
  pose proof (rank_finite_bounds s m e ltac:(lia)) as [_ H]. cbn [rank] in H.
  assert (2 ^ (Zpos (digits2_pos m) + e + 1074) <= 2 ^ 2098); [|lia].
  apply Z.pow_le_mono_r; lia.
Qed.

Lemma rank_finite_lt_top s m e :
  valid (S754_finite s m e) = true -> rank (S754_finite s m e) < 2 ^ 2098.
Proof.
  intros Hv. destruct (valid_finite _ _ _ Hv) as (He & Hd & _).
  pose proof (rank_finite_bounds s m e ltac:(lia)) as [_ H].
  assert (2 ^ (Zpos (digits2_pos m) + e + 1074) <= 2 ^ 2098); [|lia].
  apply Z.pow_le_mono_r; lia.
Qed.

(** On valid floats the exponent decides the order of the magnitudes. *)
Lemma rank_exponent_lt s1 m1 e1 s2 m2 e2 :
  valid (S754_finite s1 m1 e1) = true -> valid (S754_finite s2 m2 e2) = true ->
  e1 < e2 -> rank (S754_finite s1 m1 e1) < rank (S754_finite s2 m2 e2).
Proof.
  intros H1 H2 He.
  destruct (valid_finite _ _ _ H1) as (He1 & Hd1 & Hc1).
  destruct (valid_finite _ _ _ H2) as (He2 & Hd2 & Hc2).
  pose proof (rank_finite_bounds s1 m1 e1 ltac:(lia)) as [_ Hu].
  pose proof (rank_finite_bounds s2 m2 e2 ltac:(lia)) as [Hl _].
  pose proof (Pos2Z.is_pos (digits2_pos m1)).
  assert (2 ^ (Zpos (digits2_pos m1) + e1 + 1074)
          <= 2 ^ (Zpos (digits2_pos m2) + e2 + 1073)); [|lia].
  apply Z.pow_le_mono_r; lia.
Qed.

Lemma rank_mantissa s1 m1 s2 m2 e :
  (rank (S754_finite s1 m1 e) ?= rank (S754_finite s2 m2 e)) = (m1 ?= m2)%positive
  \/ e < -1074.
Proof.
  destruct (Z.lt_ge_cases e (-1074)) as [|He]; [now right|left].
  cbn [rank]. assert (Hp : 0 < 2 ^ (e + 1074)) by (apply pow2_pos; lia).
  rewrite Pos2Z.inj_compare.
  destruct (Z.compare_spec (Zpos m1) (Zpos m2)) as [E|E|E].
  - rewrite E. apply Z.compare_refl.
  - apply Z.compare_lt_iff. nia.
  - apply Z.compare_gt_iff. nia.
Qed.

Lemma SFcompare_finite_rank m1 e1 m2 e2 :
  valid (S754_finite false m1 e1) = true -> valid (S754_finite false m2 e2) = true ->
  match e1 ?= e2 with
  | Lt => Lt
  | Gt => Gt
  | Eq => Pos.compare_cont Eq m1 m2
  end = (rank (S754_finite false m1 e1) ?= rank (S754_finite false m2 e2)).
Proof.
  intros H1 H2. change (Pos.compare_cont Eq m1 m2) with (m1 ?= m2)%positive.
  destruct (Z.compare_spec e1 e2) as [E|E|E].
  - subst e2. destruct (rank_mantissa false m1 false m2 e1) as [->|He]; [reflexivity|].
    destruct (valid_finite _ _ _ H1). lia.
  - symmetry. apply Z.compare_lt_iff. now apply rank_exponent_lt.
  - symmetry. apply Z.compare_gt_iff. now apply rank_exponent_lt.
Qed.

Lemma rank_sign_irrelevant s s' m e :
  rank (S754_finite s m e) = rank (S754_finite s' m e).
Proof. reflexivity. Qed.

Lemma valid_sign_irrelevant s s' m e :
  valid (S754_finite s m e) = valid (S754_finite s' m e).
Proof. reflexivity. Qed.

(** On valid floats [SFcompare] is the order of the signed magnitudes. *)
Lemma SFcompare_srank x y :
  valid x = true -> valid y = true -> is_nan x = false -> is_nan y = false ->
  SFcompare x y = Some (srank x ?= srank y).
Proof.
  intros Hx Hy Nx Ny.
  destruct x as [sx|sx| |sx mx ex], y as [sy|sy| |sy my ey]; try discriminate;
    unfold srank; cbn [SFcompare sign_of].
  - destruct sx, sy; reflexivity.
  - destruct sx, sy; reflexivity.
  - pose proof (rank_finite_pos sy my ey ltac:(destruct (valid_finite _ _ _ Hy); lia)).
    f_equal. symmetry. simpl (rank (S754_zero _)).
    destruct sx, sy; try (apply Z.compare_lt_iff; lia); apply Z.compare_gt_iff; lia.
  - destruct sx, sy; reflexivity.
  - destruct sx, sy; reflexivity.
  - pose proof (rank_finite_lt_top sy my ey Hy).
    pose proof (rank_finite_pos sy my ey ltac:(destruct (valid_finite _ _ _ Hy); lia)).
    f_equal. symmetry. simpl (rank (S754_infinity _)) in *.
    destruct sx, sy; try (apply Z.compare_lt_iff; lia); apply Z.compare_gt_iff; lia.
  - pose proof (rank_finite_pos sx mx ex ltac:(destruct (valid_finite _ _ _ Hx); lia)).
    f_equal. symmetry. simpl (rank (S754_zero _)).
    destruct sx, sy; try (apply Z.compare_lt_iff; lia); apply Z.compare_gt_iff; lia.
  - pose proof (rank_finite_lt_top sx mx ex Hx).
    pose proof (rank_finite_pos sx mx ex ltac:(destruct (valid_finite _ _ _ Hx); lia)).
    f_equal. symmetry. simpl (rank (S754_infinity _)) in *.
    destruct sx, sy; try (apply Z.compare_lt_iff; lia); apply Z.compare_gt_iff; lia.
  - pose proof (rank_finite_pos sx mx ex ltac:(destruct (valid_finite _ _ _ Hx); lia)).
    pose proof (rank_finite_pos sy my ey ltac:(destruct (valid_finite _ _ _ Hy); lia)).
    f_equal.
    destruct sx, sy.
    + rewrite Z.compare_opp.
      rewrite (rank_sign_irrelevant true false mx), (rank_sign_irrelevant true false my).
      rewrite <- (SFcompare_finite_rank my ey mx ex Hy Hx).
      change (Pos.compare_cont Eq mx my) with (mx ?= my)%positive.
      change (Pos.compare_cont Eq my mx) with (my ?= mx)%positive.
      rewrite (Z.compare_antisym ex ey), (Pos.compare_antisym mx my).
      destruct (ex ?= ey), (mx ?= my)%positive; reflexivity.
    + symmetry. apply Z.compare_lt_iff. lia.
    + symmetry. apply Z.compare_gt_iff. lia.
    + now apply SFcompare_finite_rank.
Qed.

Lemma pack_number s N t : 0 <= N -> is_nan (pack s N t) = false.
Proof.
  intros HN. destruct N as [|p|p]; try lia; [reflexivity|]. unfold pack.
  destruct (_ <? _); [destruct (_ <=? _)|destruct (_ <=? _)]; reflexivity.
Qed.

Lemma pack_sign s N t : 0 <= N -> sign_of (pack s N t) = s.
Proof.
  intros HN. destruct N as [|p|p]; try lia; [reflexivity|]. unfold pack.
  destruct (_ <? _); [destruct (_ <=? _)|destruct (_ <=? _)]; reflexivity.
Qed.

Lemma pow2_mul a b : 0 <= a -> 0 <= b -> 2 ^ a * 2 ^ b = 2 ^ (a + b).
Proof. intros. now rewrite Z.pow_add_r. Qed.

Lemma mul_pow2_lt N a b c :
  0 <= a -> 0 <= b -> 0 <= N < 2 ^ a -> a + b <= c -> N * 2 ^ b < 2 ^ c.
Proof.
  intros Ha Hb HN Hc. pose proof (pow2_pos b Hb).
  apply Z.lt_le_trans with (2 ^ a * 2 ^ b).
  - apply Z.mul_lt_mono_pos_r; lia.
  - rewrite pow2_mul by assumption. apply Z.pow_le_mono_r; lia.
Qed.

Lemma mul_pow2_ge N a b c :
  0 <= a -> 0 <= b -> 2 ^ a <= N -> c <= a + b -> 2 ^ c <= N * 2 ^ b.
Proof.
  intros Ha Hb HN Hc. pose proof (pow2_pos b Hb).
  apply Z.le_trans with (2 ^ a * 2 ^ b).
  - rewrite pow2_mul by assumption.
    destruct (Z.lt_ge_cases c 0) as [Hneg|Hpos].
    + rewrite (Z.pow_neg_r 2 c Hneg). pose proof (pow2_pos (a + b)). lia.
    + apply Z.pow_le_mono_r; lia.
  - apply Z.mul_le_mono_nonneg_r; lia.
Qed.

Lemma mul_pow2_le N a b c :
  0 <= a -> 0 <= b -> 0 <= N <= 2 ^ a -> a + b <= c -> N * 2 ^ b <= 2 ^ c.
Proof.
  intros Ha Hb HN Hc. pose proof (pow2_pos b Hb).
  apply Z.le_trans with (2 ^ a * 2 ^ b).
  - apply Z.mul_le_mono_nonneg_r; lia.
  - rewrite pow2_mul by assumption. apply Z.pow_le_mono_r; lia.
Qed.

Section Pack.
Variables (s : bool) (N t : Z).
Hypothesis HN : 0 <= N <= 2 ^ 53.
Hypothesis Ht : -1074 <= t.
Hypothesis Hnormal : -1074 < t -> 2 ^ 52 <= N.

Lemma pack_valid : valid (pack s N t) = true.
Proof.
  destruct N as [|p|p] eqn:EN; try lia; [reflexivity|]. unfold pack.
  destruct (Z.ltb_spec (Zpos p) (2 ^ 53)) as [Hlt|Hge].
  - destruct (Z.leb_spec t 971) as [Hle|Hgt]; [|reflexivity].
    assert (Hd : Zdigits2 (Zpos p) <= 53).
    { pose proof (Zdigits2_spec (Zpos p) ltac:(lia)) as [Hd _].
      pose proof (Zdigits2_pos (Zpos p) ltac:(lia)).
      assert (Zdigits2 (Z.pos p) - 1 < 53); [|lia]. apply pow2_lt_inv; lia. }
    apply valid_finite_intro; [lia|exact Hd|].
    destruct (Z.eq_dec t (-1074)) as [|Hne]; [now right|left].
    apply (Zdigits2_unique (Zpos p) 53); [lia|]. split; [|exact Hlt].
    apply Hnormal. lia.
  - destruct (Z.leb_spec (t + 1) 971) as [Hle|Hgt]; [|reflexivity].
    apply valid_finite_intro; [lia|simpl; lia|left; reflexivity].
Qed.

Lemma pack_rank : rank (pack s N t) = Z.min (N * 2 ^ (t + 1074)) (2 ^ 2098).
Proof.
  destruct N as [|p|p] eqn:EN; try lia.
  - simpl pack. cbn [rank]. rewrite Z.mul_0_l. reflexivity.
  - unfold pack.
    destruct (Z.ltb_spec (Zpos p) (2 ^ 53)) as [Hlt|Hge].
    + destruct (Z.leb_spec t 971) as [Hle|Hgt]; cbn [rank].
      * pose proof (mul_pow2_lt (Zpos p) 53 (t + 1074) 2098). lia.
      * pose proof (mul_pow2_ge (Zpos p) 52 (t + 1074) 2098). lia.
    + assert (E : Zpos p = 2 ^ 53) by lia. rewrite E.
      destruct (Z.leb_spec (t + 1) 971) as [Hle|Hgt]; cbn [rank].
      * change (Zpos 4503599627370496) with (2 ^ 52).
        replace (t + 1 + 1074) with (1 + (t + 1074)) by lia.
        rewrite (Z.pow_add_r 2 1 (t + 1074)) by lia.
        pose proof (mul_pow2_lt (2 ^ 52) 53 (t + 1 + 1074) 2098).
        replace (t + 1 + 1074) with (1 + (t + 1074)) in * by lia.
        rewrite (Z.pow_add_r 2 1 (t + 1074)) in * by lia.
        change (2 ^ 1) with 2 in *. change (2 ^ 52) with 4503599627370496 in *.
        change (2 ^ 53) with 9007199254740992 in *. lia.
      * pose proof (mul_pow2_ge (2 ^ 53) 53 (t + 1074) 2098). lia.
Qed.

End Pack.

(** ** Rounding an exact product or sum *)

Lemma round_exact_spec s m e :
  0 <= m -> pre m e ->
  binary_round_aux 53 1024 s m e loc_Exact
  = pack s (rne m (target m e - e)) (target m e).
Proof.
  intros Hm Hpre.
  exact (binary_round_aux_spec m e m 0 loc_Exact Hm ltac:(lia) Hm (holds_start m) Hpre s).
Qed.

Section Exact.
Variables (s : bool) (m e : Z).
Hypothesis Hm : 0 <= m.
Hypothesis Hpre : pre m e.

Lemma exact_facts :
  0 <= rne m (target m e - e) <= 2 ^ 53
  /\ -1074 <= target m e
  /\ (-1074 < target m e -> 2 ^ 52 <= rne m (target m e - e)).
Proof.
  pose proof (round_nonneg m e m 0 loc_Exact Hm ltac:(lia) (holds_start m) Hpre).
  pose proof (round_le m e m 0 loc_Exact Hm ltac:(lia) (holds_start m) Hpre).
  pose proof (round_exponent m e).
  pose proof (round_normal m e m 0 loc_Exact Hm ltac:(lia) (holds_start m) Hpre).
  unfold target. auto.
Qed.

Lemma round_exact_valid : valid (binary_round_aux 53 1024 s m e loc_Exact) = true.
Proof.
  rewrite round_exact_spec by assumption.
  destruct exact_facts as (H1 & H2 & H3). now apply pack_valid.
Qed.

Lemma round_exact_number : is_nan (binary_round_aux 53 1024 s m e loc_Exact) = false.
Proof.
  rewrite round_exact_spec by assumption.
  destruct exact_facts as (H1 & H2 & H3). apply pack_number. lia.
Qed.

Lemma round_exact_sign : sign_of (binary_round_aux 53 1024 s m e loc_Exact) = s.
Proof.
  rewrite round_exact_spec by assumption.
  destruct exact_facts as (H1 & H2 & H3). apply pack_sign. lia.
Qed.

Lemma round_exact_rank :
  rank (binary_round_aux 53 1024 s m e loc_Exact) = Z.min (rounded m e) (2 ^ 2098).
Proof.
  rewrite round_exact_spec by assumption.
  destruct exact_facts as (H1 & H2 & H3). now apply pack_rank.
Qed.

End Exact.

Ltac fexp_lia := unfold pre, target in *; repeat rewrite fexp_spec in *; lia.

Lemma rne_zero n : 0 <= n -> rne 0 n = 0.
Proof.
  intros Hn. rewrite rne_exact; try assumption.
  - apply Z.div_0_l. pose proof (pow2_pos n Hn). lia.
  - apply Z.mod_0_l. pose proof (pow2_pos n Hn). lia.
Qed.

Lemma rounded_nonneg m e : 0 <= m -> pre m e -> 0 <= rounded m e.
Proof.
  intros Hm Hpre. destruct (exact_facts m e Hm Hpre) as (H1 & H2 & _).
  unfold rounded. apply Z.mul_nonneg_nonneg; [lia|]. apply Z.pow_nonneg. lia.
Qed.

(** The rounded magnitude stays below the next power of two. *)
Lemma rounded_upper m e :
  0 < m -> pre m e ->
  rounded m e <= 2 ^ (Z.max (Zdigits2 m + e) (target m e) + 1074).
Proof.
  intros Hm Hpre. unfold rounded.
  pose proof (rne_bounds m (target m e - e) ltac:(unfold pre, target in *; lia)) as [Hl Hh].
  pose proof (Zdigits2_spec m Hm) as [_ Hd].
  pose proof (Zdigits2_pos m Hm) as Hd0.
  assert (Ht : -1074 <= target m e) by (unfold target; rewrite fexp_spec; lia).
  assert (Hn : 0 <= target m e - e) by (unfold pre, target in *; lia).
  assert (H0 : 0 <= m / 2 ^ (target m e - e)).
  { apply Z.div_pos; [lia|]. now apply pow2_pos. }
  destruct (Z.le_gt_cases (target m e - e) (Zdigits2 m)) as [Hle|Hgt].
  - apply (mul_pow2_le _ (Zdigits2 m - (target m e - e))); try lia.
    split; [lia|].
    assert (m / 2 ^ (target m e - e) < 2 ^ (Zdigits2 m - (target m e - e))); [|lia].
    apply div_pow2_lt; try lia.
    replace (target m e - e + (Zdigits2 m - (target m e - e))) with (Zdigits2 m) by lia.
    lia.
  - apply (mul_pow2_le _ 0); try lia.
    assert (m / 2 ^ (target m e - e) = 0); [|simpl; lia].
    apply Z.div_small. split; [lia|].
    eapply Z.lt_le_trans; [exact Hd|]. apply Z.pow_le_mono_r; lia.
Qed.

(** In the normal range it is at least the power of two at or below. *)
Lemma rounded_lower m e :
  0 < m -> pre m e -> -1074 < target m e ->
  2 ^ (Zdigits2 m + e + 1073) <= rounded m e.
Proof.
  intros Hm Hpre Ht. unfold rounded.
  destruct (exact_facts m e ltac:(lia) Hpre) as (_ & _ & H3).
  apply (mul_pow2_ge _ 52).
  - lia.
  - lia.
  - auto.
  - fexp_lia.
Qed.

Lemma magnitude_le m1 e1 m2 e2 L :
  0 < m1 -> 0 < m2 -> L <= e1 -> L <= e2 ->
  m1 * 2 ^ (e1 - L) <= m2 * 2 ^ (e2 - L) ->
  Zdigits2 m1 + e1 <= Zdigits2 m2 + e2.
Proof.
  intros H1 H2 L1 L2 Hle.
  pose proof (Zdigits2_spec m1 H1) as [Hd1 _].
  pose proof (Zdigits2_spec m2 H2) as [_ Hd2].
  pose proof (Zdigits2_pos m1 H1). pose proof (Zdigits2_pos m2 H2).
  pose proof (mul_pow2_ge m1 (Zdigits2 m1 - 1) (e1 - L) (Zdigits2 m1 - 1 + (e1 - L))
                ltac:(lia) ltac:(lia) Hd1 ltac:(lia)).
  pose proof (mul_pow2_lt m2 (Zdigits2 m2) (e2 - L) (Zdigits2 m2 + (e2 - L))
                ltac:(lia) ltac:(lia) ltac:(lia) ltac:(lia)).
  assert (Zdigits2 m1 - 1 + (e1 - L) < Zdigits2 m2 + (e2 - L)); [|lia].
  apply pow2_lt_inv; lia.
Qed.

(** Rounding to nearest is monotone in the value rounded. *)
Lemma rounded_monotone m1 e1 m2 e2 L :
  0 <= m1 -> 0 <= m2 -> pre m1 e1 -> pre m2 e2 -> L <= e1 -> L <= e2 ->
  m1 * 2 ^ (e1 - L) <= m2 * 2 ^ (e2 - L) ->
  rounded m1 e1 <= rounded m2 e2.
Proof.
  intros H1 H2 P1 P2 L1 L2 Hle.
  destruct (Z.eq_dec m1 0) as [->|Hnz1].
  { pose proof (rounded_nonneg m2 e2 H2 P2). unfold rounded at 1.
    rewrite rne_zero by (unfold pre, target in *; lia). lia. }
  assert (Hm2 : 0 < m2).
  { destruct (Z.eq_dec m2 0) as [->|]; [|lia].
    pose proof (pow2_pos (e1 - L) ltac:(lia)). nia. }
  pose proof (magnitude_le m1 e1 m2 e2 L ltac:(lia) Hm2 L1 L2 Hle) as HD.
  assert (Ht : target m1 e1 <= target m2 e2)
    by fexp_lia.
  destruct (Z.eq_dec (target m1 e1) (target m2 e2)) as [E|E].
  - unfold rounded. rewrite <- E.
    apply Z.mul_le_mono_nonneg_r.
    { apply Z.pow_nonneg. lia. }
    rewrite <- (rne_scale m1 (target m1 e1 - e1) (e1 - L))
      by (unfold pre, target in *; lia).
    rewrite <- (rne_scale m2 (target m1 e1 - e2) (e2 - L))
      by (unfold pre, target in *; lia).
    replace (target m1 e1 - e1 + (e1 - L)) with (target m1 e1 - L) by lia.
    replace (target m1 e1 - e2 + (e2 - L)) with (target m1 e1 - L) by lia.
    apply rne_monotone; [unfold pre, target in *; lia|exact Hle].
  - assert (Hn : -1074 < target m2 e2)
      by fexp_lia.
    eapply Z.le_trans; [apply rounded_upper; [lia|assumption]|].
    eapply Z.le_trans; [|apply rounded_lower; assumption].
    apply Z.pow_le_mono_r; [lia|].
    fexp_lia.
Qed.


Lemma digits_mul (a b : positive) :
  Zpos (digits2_pos a) + Zpos (digits2_pos b) - 1 <= Zpos (digits2_pos (a * b)).
Proof.
  pose proof (digits2_pos_spec a) as [Ha _].
  pose proof (digits2_pos_spec b) as [Hb _].
  pose proof (digits2_pos_spec (a * b)) as [_ Hab].
  pose proof (Pos2Z.is_pos (digits2_pos a)). pose proof (Pos2Z.is_pos (digits2_pos b)).
  set (da := Zpos (digits2_pos a)) in *. set (db := Zpos (digits2_pos b)) in *.
  set (dab := Zpos (digits2_pos (a * b))) in *.
  assert (2 ^ (da - 1 + (db - 1)) <= Zpos a * Zpos b).
  { rewrite Z.pow_add_r by lia.
    apply Z.mul_le_mono_nonneg; try lia; apply Z.pow_nonneg; lia. }
  rewrite Pos2Z.inj_mul in Hab.
  assert (da - 1 + (db - 1) < dab); [|lia].
  apply pow2_lt_inv; [unfold dab|]; lia.
Qed.

Lemma product_pre sx mx ex sf mf ef :
  valid (S754_finite sx mx ex) = true -> valid (S754_finite sf mf ef) = true ->
  pre (Zpos (mx * mf)) (ex + ef).
Proof.
  intros Hx Hf.
  destruct (valid_finite _ _ _ Hx) as (Hex & Hdx & Hcx).
  destruct (valid_finite _ _ _ Hf) as (Hef & Hdf & Hcf).
  pose proof (digits_mul mx mf).
  pose proof (Pos2Z.is_pos (digits2_pos mx)). pose proof (Pos2Z.is_pos (digits2_pos mf)).
  unfold pre. rewrite fexp_spec. simpl Zdigits2. lia.
Qed.

Lemma mul_valid x f : valid x = true -> valid f = true -> valid (SFmul 53 1024 x f) = true.
Proof.
  intros Hx Hf.
  destruct x as [sx|sx| |sx mx ex], f as [sf|sf| |sf mf ef]; try reflexivity.
  unfold SFmul. apply round_exact_valid; [lia|].
  eapply product_pre; eassumption.
Qed.

Lemma mul_finite_number x sf mf ef :
  valid x = true -> valid (S754_finite sf mf ef) = true -> is_nan x = false ->
  is_nan (SFmul 53 1024 x (S754_finite sf mf ef)) = false.
Proof.
  intros Hx Hf Nx. destruct x as [sx|sx| |sx mx ex]; try discriminate; try reflexivity.
  unfold SFmul. apply round_exact_number; [lia|].
  eapply product_pre; eassumption.
Qed.

Lemma mul_finite_sign x sf mf ef :
  valid x = true -> valid (S754_finite sf mf ef) = true -> is_nan x = false ->
  sign_of (SFmul 53 1024 x (S754_finite sf mf ef)) = xorb (sign_of x) sf.
Proof.
  intros Hx Hf Nx. destruct x as [sx|sx| |sx mx ex]; try discriminate; try reflexivity.
  unfold SFmul. cbn [sign_of]. apply round_exact_sign; [lia|].
  eapply product_pre; eassumption.
Qed.

Lemma rank_zero_inv x :
  valid x = true -> is_nan x = false -> rank x <= 0 ->
  exists s, x = S754_zero s.
Proof.
  intros Hx Nx Hr. destruct x as [s|s| |s m e]; try discriminate.
  - now exists s.
  - simpl in Hr. lia.
  - destruct (valid_finite _ _ _ Hx) as (He & _).
    pose proof (rank_finite_pos s m e ltac:(lia)). lia.
Qed.

(** The magnitude of a product is monotone in the magnitude of a factor. *)
Lemma mul_rank_monotone x y sf mf ef :
  valid x = true -> valid y = true -> valid (S754_finite sf mf ef) = true ->
  is_nan x = false -> is_nan y = false ->
  rank x <= rank y ->
  rank (SFmul 53 1024 x (S754_finite sf mf ef)) <= rank (SFmul 53 1024 y (S754_finite sf mf ef)).
Proof.
  intros Hx Hy Hf Nx Ny Hr.
  pose proof (mul_valid x _ Hx Hf) as Vx. pose proof (mul_valid y _ Hy Hf) as Vy.
  destruct x as [sx|sx| |sx mx ex]; [| |discriminate|].
  - cbn [SFmul rank]. apply rank_nonneg.
  - destruct y as [sy|sy| |sy my ey]; [| |discriminate|].
    + cbn [rank] in Hr. lia.
    + cbn [SFmul rank]. lia.
    + pose proof (rank_finite_lt_top sy my ey Hy). cbn [rank] in *. lia.
  - destruct y as [sy|sy| |sy my ey]; [| |discriminate|].
    + destruct (valid_finite _ _ _ Hx) as (He & _).
      pose proof (rank_finite_pos sx mx ex ltac:(lia)). cbn [rank] in *. lia.
    + cbn [SFmul rank]. now apply rank_le_top.
    + unfold SFmul.
      pose proof (product_pre _ _ _ _ _ _ Hx Hf) as Px.
      pose proof (product_pre _ _ _ _ _ _ Hy Hf) as Py.
      rewrite !round_exact_rank by (assumption || lia).
      apply Z.min_le_compat_r.
      destruct (valid_finite _ _ _ Hx) as (Hex & _).
      destruct (valid_finite _ _ _ Hy) as (Hey & _).
      apply (rounded_monotone _ _ _ _ (ef - 1074)); try assumption; try lia.
      replace (ex + ef - (ef - 1074)) with (ex + 1074) by lia.
      replace (ey + ef - (ef - 1074)) with (ey + 1074) by lia.
      cbn [rank] in Hr. rewrite !Pos2Z.inj_mul. nia.
Qed.

Lemma srank_of x : srank x = if sign_of x then - rank x else rank x.
Proof. reflexivity. Qed.

(** Multiplication by a finite non-zero float keeps or reverses the order
    according to the sign of that float. *)
Lemma mul_srank_monotone x y sf mf ef :
  valid x = true -> valid y = true -> valid (S754_finite sf mf ef) = true ->
  is_nan x = false -> is_nan y = false ->
  srank x <= srank y ->
  if sf
  then srank (SFmul 53 1024 y (S754_finite sf mf ef)) <= srank (SFmul 53 1024 x (S754_finite sf mf ef))
  else srank (SFmul 53 1024 x (S754_finite sf mf ef)) <= srank (SFmul 53 1024 y (S754_finite sf mf ef)).
Proof.
  intros Hx Hy Hf Nx Ny Hr.
  pose proof (mul_finite_sign x sf mf ef Hx Hf Nx) as Sx.
  pose proof (mul_finite_sign y sf mf ef Hy Hf Ny) as Sy.
  pose proof (rank_nonneg x) as Rx. pose proof (rank_nonneg y) as Ry.
  pose proof (rank_nonneg (SFmul 53 1024 x (S754_finite sf mf ef))) as Rxf.
  pose proof (rank_nonneg (SFmul 53 1024 y (S754_finite sf mf ef))) as Ryf.
  rewrite !srank_of in *. rewrite Sx, Sy.
  destruct (sign_of x) eqn:Ex, (sign_of y) eqn:Ey.
  - pose proof (mul_rank_monotone y x sf mf ef Hy Hx Hf Ny Nx ltac:(lia)).
    destruct sf; simpl; lia.
  - destruct sf; simpl; lia.
  - destruct (rank_zero_inv x Hx Nx ltac:(lia)) as (s1 & ->).
    destruct (rank_zero_inv y Hy Ny ltac:(lia)) as (s2 & ->).
    destruct sf; simpl; lia.
  - pose proof (mul_rank_monotone x y sf mf ef Hx Hy Hf Nx Ny ltac:(lia)).
    destruct sf; simpl; lia.
Qed.












(** ** The error of a rounding *)









Section Division.
Variables (mx my : positive) (ex ey : Z).
Hypothesis Hx : valid (S754_finite false mx ex) = true.
Hypothesis Hy : valid (S754_finite false my ey) = true.
Hypothesis Hle : rank (S754_finite false mx ex) <= rank (S754_finite false my ey).

Let dx := Zpos (digits2_pos mx).
Let dy := Zpos (digits2_pos my).
Let e' := Z.min (fexp 53 1024 (dx + ex - (dy + ey))) (ex - ey).
Let s := ex - ey - e'.
Let m' := Zpos mx * 2 ^ s.
Let q := m' / Zpos my.
Let r := m' mod Zpos my.





Let t := fexp 53 1024 (Zdigits2 q + e').
Let M := 4 * q + loc_code (new_location (Zpos my) r).
Let N := rne M (2 + (t - e')).





End Division.

Section DivisionError.
Variables (mx my : positive) (ex ey : Z).
Hypothesis Hx : valid (S754_finite false mx ex) = true.
Hypothesis Hy : valid (S754_finite false my ey) = true.
Hypothesis Hle : rank (S754_finite false mx ex) <= rank (S754_finite false my ey).

Let dx := Zpos (digits2_pos mx).
Let dy := Zpos (digits2_pos my).
Let e' := Z.min (fexp 53 1024 (dx + ex - (dy + ey))) (ex - ey).
Let s := ex - ey - e'.
Let m' := Zpos mx * 2 ^ s.
Let q := m' / Zpos my.
Let r := m' mod Zpos my.
Let t := fexp 53 1024 (Zdigits2 q + e').
Let M := 4 * q + loc_code (new_location (Zpos my) r).
Let N := rne M (2 + (t - e')).




End DivisionError.

(** ** Sums of rounded quotients *)



End Rounding.

(** * IEEE 754 facts used below *)

Ltac order_cases :=
  change (Pos.compare_cont Eq) with Pos.compare in *;
  repeat match goal with
  | |- context [(?a ?= ?b)%Z] =>
      destruct (Z.compare_spec a b); simpl; try discriminate; try reflexivity
  | |- context [(?a ?= ?b)%positive] =>
      destruct (Pos.compare_spec a b); simpl; try discriminate; try reflexivity
  end; intros; subst; try lia.

Lemma SFcompare_antisym x y c :
  SFcompare x y = Some c -> SFcompare y x = Some (CompOpp c).
Proof.
  destruct x as [sx|sx| |sx mx ex], y as [sy|sy| |sy my ey]; simpl;
    try discriminate; intros Hc; injection Hc as <-;
    try (destruct sx; reflexivity); try (destruct sy; reflexivity);
    try (destruct sx, sy; reflexivity).
  destruct sx, sy; try reflexivity; order_cases.
Qed.

Lemma SFltb_irrefl x : SFltb x x = false.
Proof.
  unfold SFltb.
  destruct x as [s|s| |s m e]; simpl; try reflexivity; try (destruct s; reflexivity).
  change (Pos.compare_cont Eq m m) with (Pos.compare m m).
  destruct s; rewrite Z.compare_refl, Pos.compare_refl; reflexivity.
Qed.

Lemma SFltb_SFleb_false x y : SFltb x y = true -> SFleb y x = false.
Proof.
  unfold SFltb, SFleb. destruct (SFcompare x y) as [[]|] eqn:Hc; try discriminate.
  intros _. rewrite (SFcompare_antisym _ _ _ Hc). reflexivity.
Qed.

Lemma SFleb_SFltb_false x y : SFleb x y = true -> SFltb y x = false.
Proof.
  unfold SFltb, SFleb. destruct (SFcompare x y) as [[]|] eqn:Hc; try discriminate;
  intros _; rewrite (SFcompare_antisym _ _ _ Hc); reflexivity.
Qed.

(** The order on finite floats is lexicographic in sign, exponent, mantissa. *)
Lemma SFleb_trans x y z : SFleb x y = true -> SFleb y z = true -> SFleb x z = true.
Proof.
  unfold SFleb.
  destruct x as [sx|sx| |sx mx ex], y as [sy|sy| |sy my ey], z as [sz|sz| |sz mz ez];
    simpl; try discriminate; try reflexivity;
    try (destruct sx; simpl; try discriminate; try reflexivity);
    try (destruct sy; simpl; try discriminate; try reflexivity);
    try (destruct sz; simpl; try discriminate; try reflexivity);
    change (Pos.compare_cont Eq) with Pos.compare;
    repeat match goal with
    | |- context [(?a ?= ?b)%Z] =>
        destruct (Z.compare_spec a b); simpl; try discriminate; try reflexivity
    | |- context [(?a ?= ?b)%positive] =>
        destruct (Pos.compare_spec a b); simpl; try discriminate; try reflexivity
    end; intros; subst; try lia.
Qed.

Lemma SFadd_pzero_not_nzero x :
  SFadd Binary64.prec Binary64.emax x Binary64.pzero <> Binary64.nzero.
Proof. destruct x as [[]|[]| |[] m e]; simpl; discriminate. Qed.

Lemma SFadd_pzero_zero x :
  Binary64.is_zero x = true ->
  SFadd Binary64.prec Binary64.emax x Binary64.pzero = Binary64.pzero.
Proof. destruct x as [[]|[]| |[] m e]; simpl; try discriminate; reflexivity. Qed.

Lemma SFadd_pzero_nonzero x :
  Binary64.is_zero x = false ->
  SFadd Binary64.prec Binary64.emax x Binary64.pzero = x.
Proof. destruct x as [[]|[]| |[] m e]; simpl; try discriminate; reflexivity. Qed.

Lemma SFmul_zero_l x f :
  Binary64.is_zero x = true -> Binary64.is_finite f = true ->
  Binary64.is_zero (SFmul Binary64.prec Binary64.emax x f) = true.
Proof.
  destruct x as [sx|sx| |sx mx ex]; try discriminate.
  destruct f as [sf|sf| |sf mf ef]; try discriminate; reflexivity.
Qed.

(** ** Classification of a stored row, IEEE 754 *)

Lemma classification_exclusive (row : FluxRow Binary64.float) :
  Binary64.is_nan (fx_flux row) = false ->
  Binary64.is_nan (fx_factor row) = false ->
  Binary64.is_zero (fx_factor row) = false ->
  is_produced row = negb (is_consumed row).
Proof.
  unfold is_produced, is_consumed, fgtb. simpl.
  destruct (fx_flux row) as [[]|[]| |[] m e], (fx_factor row) as [[]|[]| |[] m' e'];
    simpl; try discriminate; reflexivity.
Qed.

Lemma masks_exclusive (row : FluxRow Binary64.float) :
  is_produced row && is_consumed row = false.
Proof.
  unfold is_produced, is_consumed, fgtb. simpl.
  destruct (fx_flux row) as [[]|[]| |[] m e], (fx_factor row) as [[]|[]| |[] m' e'];
    reflexivity.
Qed.

Lemma produced_sign (row : FluxRow Binary64.float) :
  is_produced row = true ->
  Binary64.is_nan (fx_flux row) = false /\ fleb fzero (fx_flux row) = true
  /\ (Binary64.is_zero (fx_flux row) = true -> fgtb (fx_factor row) fzero = true).
Proof.
  unfold is_produced, fgtb. simpl.
  destruct (fx_flux row) as [[]|[]| |[] m e]; simpl; try discriminate; auto;
    rewrite ?orb_false_l; intros H; repeat split; auto; discriminate.
Qed.

Lemma consumed_sign (row : FluxRow Binary64.float) :
  is_consumed row = true ->
  Binary64.is_nan (fx_flux row) = false /\ fleb (fx_flux row) fzero = true
  /\ (Binary64.is_zero (fx_flux row) = true -> fltb (fx_factor row) fzero = true).
Proof.
  unfold is_consumed. simpl.
  destruct (fx_flux row) as [[]|[]| |[] m e]; simpl; try discriminate; auto;
    rewrite ?orb_false_l; intros H; repeat split; auto; discriminate.
Qed.

Lemma zero_flux_tie_break (row : FluxRow Binary64.float) :
  Binary64.is_zero (fx_flux row) = true ->
  (fgtb (fx_factor row) fzero = true ->
     is_produced row = true /\ is_consumed row = false)
  /\ (fltb (fx_factor row) fzero = true ->
        is_consumed row = true /\ is_produced row = false).
Proof.
  unfold is_produced, is_consumed, fgtb. simpl.
  destruct (fx_flux row) as [[]|[]| |[] m e]; try discriminate;
    destruct (fx_factor row) as [[]|[]| |[] m' e']; simpl; intros _;
    split; intros; try discriminate; split; reflexivity.
Qed.

(** C1, as stated, fails: a row whose factor is [0.0] has scaled flux [0.0]
    and is in neither table. *)
Lemma C1_zero_factor_row_in_no_table :
  exists g row,
    _generate no_pfba no_analysis water [idle_reaction]
      {| tolerance := tolerance_1e_9 |}
      (Some [("IDLE", Binary64.of_Z 5)]) FvaNone = Some g
    /\ In row (_flux g)
    /\ ~ In (fx_index row) (map index (rows (producing_fluxes g)))
    /\ ~ In (fx_index row) (map index (rows (consuming_fluxes g))).
Proof.
  eexists. eexists. split; [vm_compute; reflexivity|].
  split; [left; reflexivity|]. split; simpl; tauto.
Qed.

(** C1 (amended): the producing table holds exactly the rows of [_flux] that
    satisfy the first mask and the consuming table exactly those that satisfy
    the second, and no row satisfies both.  Row by row: a constructed row
    whose factor is a non-zero number and whose scaled flux is a number
    satisfies exactly one of the two masks, so exactly one table contains it,
    whatever the other rows are; a row with zero scaled flux goes to
    producing when its factor is positive and to consuming when it is
    negative.  The indices of the two tables together are a rearrangement of
    the indices of the rows that satisfy a mask, hence of all rows when every
    row has such a factor and flux. *)
Theorem C1_partition pfba analysis metabolite reactions model solution fva g :
  _generate (number := binary64) pfba analysis metabolite reactions model solution fva
    = Some g ->
  map index (rows (producing_fluxes g)) = map fx_index (filter is_produced (_flux g))
  /\ map index (rows (consuming_fluxes g)) = map fx_index (filter is_consumed (_flux g))
  /\ (forall row, In row (_flux g) -> is_produced row && is_consumed row = false)
  /\ (forall row, In row (_flux g) ->
        Binary64.is_nan (fx_flux row) = false ->
        Binary64.is_nan (fx_factor row) = false ->
        Binary64.is_zero (fx_factor row) = false ->
        is_produced row = negb (is_consumed row)
        /\ (is_produced row = true
              /\ In (fx_index row) (map index (rows (producing_fluxes g)))
            \/ is_consumed row = true
               /\ In (fx_index row) (map index (rows (consuming_fluxes g)))))
  /\ (forall row, In row (_flux g) -> Binary64.is_zero (fx_flux row) = true ->
        (fgtb (fx_factor row) fzero = true ->
           is_produced row = true /\ is_consumed row = false)
        /\ (fltb (fx_factor row) fzero = true ->
              is_consumed row = true /\ is_produced row = false))
  /\ Permutation
       (map index (rows (producing_fluxes g)) ++ map index (rows (consuming_fluxes g)))
       (map fx_index
          (filter (fun row => is_produced row || is_consumed row) (_flux g)))
  /\ ((forall row, In row (_flux g) ->
         Binary64.is_nan (fx_flux row) = false
         /\ Binary64.is_nan (fx_factor row) = false
         /\ Binary64.is_zero (fx_factor row) = false) ->
      Permutation
        (map index (rows (producing_fluxes g)) ++ map index (rows (consuming_fluxes g)))
        (map fx_index (_flux g))).
Proof.
  intros Hg.
  destruct (generate_inv _ _ _ _ _ _ _ _ Hg)
    as (sol & frame & table & _ & _ & _ & _ & Hp & Hc).
  rewrite Hp, Hc, !select_index.
  split; [reflexivity|]. split; [reflexivity|].
  split; [intros row _; apply masks_exclusive|].
  split.
  - intros row Hin H1 H2 H3.
    pose proof (classification_exclusive row H1 H2 H3) as Hex.
    split; [exact Hex|].
    destruct (is_consumed row) eqn:Hcons; simpl in Hex.
    + right. split; [reflexivity|]. apply in_map, filter_In. auto.
    + left. split; [exact Hex|]. apply in_map, filter_In. auto.
  - split; [intros row _; apply zero_flux_tie_break|].
    split.
    + rewrite <- map_app. apply Permutation_map, filter_either_Permutation.
      intros row _. apply masks_exclusive.
    + intros Hnum. rewrite <- map_app.
      apply Permutation_map, filter_complement_Permutation.
      intros row Hin. destruct (Hnum row Hin) as (H1 & H2 & H3).
      rewrite (classification_exclusive row H1 H2 H3). now rewrite negb_involutive.
Qed.

(** [C1_partition] on reaction A (factor 1, flux 5), reaction B (factor -2,
    flux 3) and the idle reaction (factor 0): A is in the producing table and
    B in the consuming one, although the idle row is in neither. *)
Lemma C1_partition_witness :
  exists g,
    _generate no_pfba no_analysis water
      [producing_reaction; consuming_reaction; idle_reaction]
      {| tolerance := tolerance_1e_9 |}
      (Some [("A", Binary64.of_Z 5); ("B", Binary64.of_Z 3);
             ("IDLE", Binary64.of_Z 5)]) FvaNone = Some g
    /\ map index (rows (producing_fluxes g)) = ["A"]
    /\ map index (rows (consuming_fluxes g)) = ["B"]
    /\ map fx_index (_flux g) = ["A"; "B"; "IDLE"]
    /\ (forall row, In row (_flux g) ->
          Binary64.is_nan (fx_flux row) = false ->
          Binary64.is_nan (fx_factor row) = false ->
          Binary64.is_zero (fx_factor row) = false ->
          is_produced row = negb (is_consumed row)
          /\ (is_produced row = true
                /\ In (fx_index row) (map index (rows (producing_fluxes g)))
              \/ is_consumed row = true
                 /\ In (fx_index row) (map index (rows (consuming_fluxes g))))).
Proof.
  eexists. split; [vm_compute; reflexivity|].
  split; [vm_compute; reflexivity|].
  split; [vm_compute; reflexivity|].
  split; [vm_compute; reflexivity|].
  refine (proj1 (proj2 (proj2 (proj2
            (C1_partition no_pfba no_analysis water
               [producing_reaction; consuming_reaction; idle_reaction]
               {| tolerance := tolerance_1e_9 |}
               (Some [("A", Binary64.of_Z 5); ("B", Binary64.of_Z 3);
                      ("IDLE", Binary64.of_Z 5)]) FvaNone
               _ eq_refl))))).
Defined.

(** ** Zero snapping, IEEE 754 *)



Lemma stored_bound (tol b f : Binary64.float) :
  let stored := fadd (fmul (where_abs_ge tol b) f) fzero in
  stored <> Binary64.nzero
  /\ (Binary64.is_finite f = true -> fltb (fabs b) tol = true ->
      stored = Binary64.pzero).
Proof.
  unfold where_abs_ge, fgeb. simpl. split; [apply SFadd_pzero_not_nzero|].
  intros Hf Hlt. rewrite (SFltb_SFleb_false _ _ Hlt).
  apply SFadd_pzero_zero, SFmul_zero_l; auto.
Qed.


Lemma classification_of_zero (row : FluxRow Binary64.float) :
  fx_flux row = Binary64.pzero ->
  is_produced row = fgtb (fx_factor row) fzero
  /\ is_consumed row = fltb (fx_factor row) fzero.
Proof.
  unfold is_produced, is_consumed, fgtb. intros ->. split; reflexivity.
Qed.



(** ** A table whose total is zero, IEEE 754 *)

Lemma SFdiv_by_zero x y :
  Binary64.is_zero y = true ->
  Binary64.is_finite (SFdiv Binary64.prec Binary64.emax x y) = false.
Proof.
  destruct y as [sy|sy| |sy my ey]; try discriminate. intros _.
  destruct x as [sx|sx| |sx mx ex]; reflexivity.
Qed.

Lemma SFdiv_zero_by_zero x y :
  Binary64.is_zero x = true -> Binary64.is_zero y = true ->
  SFdiv Binary64.prec Binary64.emax x y = Binary64.nan.
Proof.
  destruct y as [sy|sy| |sy my ey]; try discriminate.
  destruct x as [sx|sx| |sx mx ex]; try discriminate. reflexivity.
Qed.

(** C7: when the fluxes of all reactions are available, construction gives a
    summary whatever the totals are; in a table whose total absolute scaled
    flux is zero every percentage is the non-finite result of a division by
    zero (NaN for a row whose own flux is zero). *)
Theorem C7_zero_total_is_not_an_error pfba analysis metabolite reactions model
    solution fva sol frame :
  resolved_solution pfba model solution sol ->
  resolved_fva analysis model reactions fva frame ->
  (forall r, In r reactions -> solution_get sol (id r) <> None) ->
  exists g,
    _generate (number := binary64) pfba analysis metabolite reactions model solution fva
      = Some g
    /\ forall table,
         table = producing_fluxes g \/ table = consuming_fluxes g ->
         Binary64.is_zero (total_flux table) = true ->
         forall row, In row (rows table) ->
           Binary64.is_finite (percent row) = false
           /\ (Binary64.is_zero (flux row) = true -> percent row = Binary64.nan).
Proof.
  intros Hsol Hfva Hcover.
  destruct (generate_total pfba analysis metabolite reactions model solution fva
              sol frame Hsol Hfva Hcover) as [g Hg].
  exists g. split; [exact Hg|].
  destruct (generate_inv _ _ _ _ _ _ _ _ Hg)
    as (sol' & frame' & table' & _ & _ & _ & _ & Hp & Hc).
  intros table Htable Hzero row Hin.
  assert (Hpercent : percent row = fdiv (fabs (flux row)) (total_flux table)).
  { destruct Htable as [-> | ->]; [rewrite Hp in * | rewrite Hc in *];
      now apply select_percent. }
  rewrite Hpercent. simpl. split.
  - now apply SFdiv_by_zero.
  - intros Hflux. apply SFdiv_zero_by_zero; auto.
    destruct (flux row); try discriminate; reflexivity.
Qed.

(** [C7_zero_total_is_not_an_error] on a metabolite whose only reaction
    carries no flux. *)
Lemma C7_zero_total_is_not_an_error_witness :
  exists g,
    _generate no_pfba no_analysis water [producing_reaction]
      {| tolerance := tolerance_1e_9 |} (Some [("A", Binary64.pzero)]) FvaNone = Some g
    /\ map flux (rows (producing_fluxes g)) = [Binary64.pzero]
    /\ map percent (rows (producing_fluxes g)) = [Binary64.nan]
    /\ rows (consuming_fluxes g) = [].
Proof.
  destruct (C7_zero_total_is_not_an_error no_pfba no_analysis water [producing_reaction]
              {| tolerance := tolerance_1e_9 |} (Some [("A", Binary64.pzero)]) FvaNone
              [("A", Binary64.pzero)] None)
    as (g & Hg & _).
  - left; reflexivity.
  - reflexivity.
  - intros r [<-|[]]. vm_compute. discriminate.
  - exists g. split; [exact Hg|].
    vm_compute in Hg. injection Hg as <-. vm_compute. auto.
Defined.

(** * The order of the floats *)

Section Ordered.
Import Binary64.
Local Open Scope Z_scope.

Lemma SFleb_srank x y :
  valid x = true -> valid y = true -> is_nan x = false -> is_nan y = false ->
  SFleb x y = (srank x <=? srank y).
Proof.
  intros Hx Hy Nx Ny. unfold SFleb. rewrite (SFcompare_srank x y Hx Hy Nx Ny).
  unfold Z.leb. destruct (srank x ?= srank y); reflexivity.
Qed.

Lemma SFltb_srank x y :
  valid x = true -> valid y = true -> is_nan x = false -> is_nan y = false ->
  SFltb x y = (srank x <? srank y).
Proof.
  intros Hx Hy Nx Ny. unfold SFltb. rewrite (SFcompare_srank x y Hx Hy Nx Ny).
  unfold Z.ltb. destruct (srank x ?= srank y); reflexivity.
Qed.

Lemma SFltb_numbers x y : SFltb x y = true -> is_nan x = false /\ is_nan y = false.
Proof.
  unfold SFltb. destruct x as [sx|sx| |sx mx ex], y as [sy|sy| |sy my ey];
    simpl; try discriminate; auto.
Qed.

Lemma SFleb_numbers x y : SFleb x y = true -> is_nan x = false /\ is_nan y = false.
Proof.
  unfold SFleb. destruct x as [sx|sx| |sx mx ex], y as [sy|sy| |sy my ey];
    simpl; try discriminate; auto.
Qed.

Lemma abs_valid x : valid x = true -> valid (SFabs x) = true.
Proof. destruct x; auto. Qed.

Lemma abs_number x : is_nan (SFabs x) = is_nan x.
Proof. destruct x; reflexivity. Qed.

Lemma abs_sign x : sign_of (SFabs x) = false.
Proof. destruct x; reflexivity. Qed.

Lemma abs_rank x : rank (SFabs x) = rank x.
Proof. destruct x; reflexivity. Qed.

Lemma abs_srank x : srank (SFabs x) = rank x.
Proof. unfold srank. now rewrite abs_sign, abs_rank. Qed.

Lemma srank_abs x : Z.abs (srank x) = rank x.
Proof. unfold srank. pose proof (rank_nonneg x). destruct (sign_of x); lia. Qed.

Lemma add_pzero_valid x : valid x = true -> valid (SFadd 53 1024 x pzero) = true.
Proof. destruct x as [[]|[]| |[] m e]; auto. Qed.

Lemma add_pzero_number x : is_nan (SFadd 53 1024 x pzero) = is_nan x.
Proof. destruct x as [[]|[]| |[] m e]; reflexivity. Qed.

Lemma add_pzero_srank x : srank (SFadd 53 1024 x pzero) = srank x.
Proof. destruct x as [[]|[]| |[] m e]; reflexivity. Qed.

Lemma add_pzero_rank x : rank (SFadd 53 1024 x pzero) = rank x.
Proof. destruct x as [[]|[]| |[] m e]; reflexivity. Qed.

Lemma where_valid tol x :
  valid x = true -> valid (where_abs_ge (number := binary64) tol x) = true.
Proof. intros Hx. unfold where_abs_ge. destruct (fgeb _ _); auto. Qed.

Lemma where_number tol x :
  is_nan x = false -> is_nan (where_abs_ge (number := binary64) tol x) = false.
Proof. intros Hx. unfold where_abs_ge. destruct (fgeb _ _); auto. Qed.

Lemma where_monotone tol lo hi :
  valid tol = true -> valid lo = true -> valid hi = true ->
  is_nan lo = false -> is_nan hi = false ->
  srank lo <= srank hi ->
  srank (where_abs_ge (number := binary64) tol lo)
  <= srank (where_abs_ge (number := binary64) tol hi).
Proof.
  intros Ht Hlo Hhi Nlo Nhi Hle. unfold where_abs_ge, fgeb. cbn [fleb fabs binary64 fzero].
  destruct (is_nan tol) eqn:Nt.
  - destruct tol; try discriminate; cbn; lia.
  - rewrite !SFleb_srank, !abs_srank
      by (auto using abs_valid; rewrite ?abs_number; auto).
    rewrite <- !srank_abs.
    destruct (Z.leb_spec (srank tol) (Z.abs (srank lo)));
      destruct (Z.leb_spec (srank tol) (Z.abs (srank hi)));
      change (srank pzero) with 0; lia.
Qed.

End Ordered.

(** ** Orientation of the bounds, IEEE 754 *)

(** A negative finite factor reverses the order of two stored bounds. *)
Lemma scaled_bounds_reversed (tol f lo hi : Binary64.float) :
  Binary64.valid tol = true -> Binary64.valid f = true ->
  Binary64.valid lo = true -> Binary64.valid hi = true ->
  Binary64.is_finite f = true -> fltb f fzero = true -> fleb lo hi = true ->
  fleb (fadd (fmul (where_abs_ge tol hi) f) fzero)
       (fadd (fmul (where_abs_ge tol lo) f) fzero) = true.
Proof.
  intros Ht Hf Hlo Hhi Hfin Hneg Hle. cbn [fleb fadd fmul fzero fltb binary64] in *.
  destruct (SFleb_numbers _ _ Hle) as (Nlo & Nhi).
  rewrite SFleb_srank in Hle by assumption. apply Z.leb_le in Hle.
  pose proof (where_monotone tol lo hi Ht Hlo Hhi Nlo Nhi Hle) as Hw.
  pose proof (where_valid tol lo Hlo) as Vlo. pose proof (where_valid tol hi Hhi) as Vhi.
  pose proof (where_number tol lo Nlo) as Wlo. pose proof (where_number tol hi Nhi) as Whi.
  set (lo' := where_abs_ge tol lo) in *. set (hi' := where_abs_ge tol hi) in *.
  destruct f as [sf|sf| |sf mf ef]; [destruct sf; discriminate|discriminate..|].
  assert (sf = true) as -> by (destruct sf; [reflexivity|simpl in Hneg; discriminate]).
  pose proof (mul_srank_monotone lo' hi' true mf ef Vlo Vhi Hf Wlo Whi Hw) as Hm.
  cbv beta iota in Hm.
  change (SFadd Binary64.prec Binary64.emax) with (SFadd 53 1024).
  change (SFmul Binary64.prec Binary64.emax) with (SFmul 53 1024).
  rewrite SFleb_srank.
  - rewrite !add_pzero_srank. now apply Z.leb_le.
  - apply add_pzero_valid, mul_valid; assumption.
  - apply add_pzero_valid, mul_valid; assumption.
  - rewrite add_pzero_number. apply mul_finite_number; assumption.
  - rewrite add_pzero_number. apply mul_finite_number; assumption.
Qed.

(** C6: with variability data, the stored minimum and maximum of a row are
    its partner's bounds (after the tolerance test) multiplied by the row's
    factor, each with [0] added, and they change places exactly when the
    factor is negative; so a row with a negative finite factor and raw bounds
    [lo < hi] stores [minimum <= maximum]. *)
Theorem C6_bound_orientation pfba analysis metabolite reactions model solution fva
    frame g :
  _generate (number := binary64) pfba analysis metabolite reactions model solution fva
    = Some g ->
  resolved_fva analysis model reactions fva (Some frame) ->
  forall row, In row (_flux g) ->
  exists partner minimum maximum,
    partner_of frame row partner
    /\ fx_bounds row = Some (minimum, maximum)
    /\ (let lo := where_abs_ge_cell (tolerance model) (option_map fst partner) in
        let hi := where_abs_ge_cell (tolerance model) (option_map snd partner) in
        (fltb (fx_factor row) fzero = true ->
           minimum = fadd (fmul hi (fx_factor row)) fzero
           /\ maximum = fadd (fmul lo (fx_factor row)) fzero)
        /\ (fltb (fx_factor row) fzero = false ->
              minimum = fadd (fmul lo (fx_factor row)) fzero
              /\ maximum = fadd (fmul hi (fx_factor row)) fzero))
    /\ (forall lo hi, partner = Some (lo, hi) ->
          Binary64.valid (tolerance model) = true ->
          Binary64.valid (fx_factor row) = true ->
          Binary64.valid lo = true -> Binary64.valid hi = true ->
          Binary64.is_finite (fx_factor row) = true ->
          fltb (fx_factor row) fzero = true -> fltb lo hi = true ->
          fleb minimum maximum = true).
Proof.
  intros Hg Hfva row Hin.
  destruct (generate_flux_origin _ _ _ _ _ _ _ _ Hg)
    as (sol & frame' & _ & Hfva' & _ & _ & Horigin).
  rewrite <- (resolved_fva_functional _ _ _ _ _ _ Hfva Hfva') in Horigin.
  destruct (Horigin row Hin) as (r & x & _ & _ & partner & Hpartner & Hrow).
  rewrite ranged_row_fields in Hrow. cbn [scaled_row fx_factor] in Hrow.
  exists partner. unfold oriented_bounds in Hrow.
  set (f := get_coefficient r (met_id metabolite)) in *.
  assert (Hf : fx_factor row = f) by (rewrite Hrow; reflexivity).
  rewrite Hf.
  destruct (fltb f fzero) eqn:Hneg.
  - eexists _, _. split; [exact Hpartner|]. split; [rewrite Hrow; reflexivity|].
    split; [cbv zeta; split; [auto|discriminate]|].
    intros lo hi -> Ht Vf Vlo Vhi Hfin _ Hlt. cbn [option_map where_abs_ge_cell fst snd].
    apply scaled_bounds_reversed; try assumption.
    cbn [fltb fleb binary64] in *. unfold SFltb, SFleb in *.
    destruct (SFcompare lo hi) as [[]|]; try discriminate; reflexivity.
  - eexists _, _. split; [exact Hpartner|]. split; [rewrite Hrow; reflexivity|].
    split; [cbv zeta; split; [discriminate|auto]|].
    intros lo hi _ _ _ _ _ _ Habs. discriminate.
Qed.

(** [C6_bound_orientation] on the bounds (-2, 4) of a reaction with factor
    -1: the stored bounds are (-4, 2). *)
Lemma C6_bound_orientation_witness :
  exists g,
    _generate no_pfba no_analysis water [reversed_reaction]
      {| tolerance := tolerance_1e_9 |}
      (Some [("B", Binary64.of_Z 3)])
      (FvaFrame [("B", (Binary64.of_Z (-2), Binary64.of_Z 4))]) = Some g
    /\ map fx_bounds (_flux g) = [Some (Binary64.of_Z (-4), Binary64.of_Z 2)]
    /\ forall row, In row (_flux g) ->
       exists minimum maximum,
         fx_bounds row = Some (minimum, maximum)
         /\ minimum = fadd (fmul (Binary64.of_Z 4) (fx_factor row)) fzero
         /\ maximum = fadd (fmul (Binary64.of_Z (-2)) (fx_factor row)) fzero
         /\ fleb minimum maximum = true.
Proof.
  eexists. split; [vm_compute; reflexivity|].
  split; [vm_compute; reflexivity|].
  intros row Hin.
  destruct (C6_bound_orientation no_pfba no_analysis water [reversed_reaction]
              {| tolerance := tolerance_1e_9 |}
              (Some [("B", Binary64.of_Z 3)])
              (FvaFrame [("B", (Binary64.of_Z (-2), Binary64.of_Z 4))])
              [("B", (Binary64.of_Z (-2), Binary64.of_Z 4))] _
              eq_refl eq_refl row Hin)
    as (partner & minimum & maximum & H1 & H2 & H3 & H4).
  exists minimum, maximum. split; [exact H2|].
  destruct Hin as [<-|[]].
  destruct partner as [[lo hi]|].
  - destruct H1 as [E|[]]. injection E as <- <-.
    destruct (proj1 H3 eq_refl) as [Hmin Hmax].
    split; [exact Hmin|]. split; [exact Hmax|].
    apply (H4 _ _ eq_refl); vm_compute; reflexivity.
  - exfalso. apply (H1 (Binary64.of_Z (-2), Binary64.of_Z 4)). left. reflexivity.
Defined.

(** ** The tolerance test on the bounds, IEEE 754 *)

(** A raw bound that passes the tolerance test is stored as its product. *)
Lemma stored_raw_bound (tol b f : Binary64.float) :
  let stored := fadd (fmul (where_abs_ge tol b) f) fzero in
  (fgeb (fabs b) tol = true -> stored = fadd (fmul b f) fzero)
  /\ (fgeb (fabs b) tol = true -> Binary64.is_zero (fmul b f) = false ->
      fltb (fabs (fmul b f)) tol = true ->
      Binary64.is_zero stored = false /\ fltb (fabs stored) tol = true).
Proof.
  unfold where_abs_ge. cbv zeta. split.
  - intros ->. reflexivity.
  - intros -> Hnz Hlt. cbn [fadd fzero binary64].
    rewrite (SFadd_pzero_nonzero _ Hnz). auto.
Qed.

(** C10: the tolerance test acts on the raw bounds of the variability frame,
    before the multiplication by the factor: each stored bound is the product
    of [where(|raw| >= tolerance, raw, 0)] with the factor, with [0] added.  A
    raw bound below the tolerance is stored as zero for every finite factor,
    also when its product with the factor would reach the tolerance; a raw
    bound at or above the tolerance is stored as its product with the factor,
    also when that product is a non-zero number below the tolerance. *)
Theorem C10_tolerance_test_on_raw_bounds pfba analysis metabolite reactions model
    solution fva frame g :
  _generate (number := binary64) pfba analysis metabolite reactions model solution fva
    = Some g ->
  resolved_fva analysis model reactions fva (Some frame) ->
  forall row, In row (_flux g) ->
  exists partner minimum maximum,
    partner_of frame row partner
    /\ fx_bounds row = Some (minimum, maximum)
    /\ forall lo hi, partner = Some (lo, hi) ->
       let tol := tolerance model in
       let f := fx_factor row in
       let stored_lo := if fltb f fzero then maximum else minimum in
       let stored_hi := if fltb f fzero then minimum else maximum in
       stored_lo = fadd (fmul (where_abs_ge tol lo) f) fzero
       /\ stored_hi = fadd (fmul (where_abs_ge tol hi) f) fzero
       /\ (Binary64.is_finite f = true -> fltb (fabs lo) tol = true ->
           stored_lo = Binary64.pzero)
       /\ (Binary64.is_finite f = true -> fltb (fabs hi) tol = true ->
           stored_hi = Binary64.pzero)
       /\ (fgeb (fabs lo) tol = true -> stored_lo = fadd (fmul lo f) fzero)
       /\ (fgeb (fabs hi) tol = true -> stored_hi = fadd (fmul hi f) fzero)
       /\ (fgeb (fabs lo) tol = true -> Binary64.is_zero (fmul lo f) = false ->
           fltb (fabs (fmul lo f)) tol = true ->
           Binary64.is_zero stored_lo = false /\ fltb (fabs stored_lo) tol = true)
       /\ (fgeb (fabs hi) tol = true -> Binary64.is_zero (fmul hi f) = false ->
           fltb (fabs (fmul hi f)) tol = true ->
           Binary64.is_zero stored_hi = false /\ fltb (fabs stored_hi) tol = true).
Proof.
  intros Hg Hfva row Hin.
  destruct (generate_flux_origin _ _ _ _ _ _ _ _ Hg)
    as (sol & frame' & _ & Hfva' & _ & _ & Horigin).
  rewrite <- (resolved_fva_functional _ _ _ _ _ _ Hfva Hfva') in Horigin.
  destruct (Horigin row Hin) as (r & x & _ & _ & partner & Hpartner & Hrow).
  rewrite ranged_row_fields in Hrow. cbn [scaled_row fx_factor] in Hrow.
  exists partner. unfold oriented_bounds in Hrow.
  set (f := get_coefficient r (met_id metabolite)) in *.
  assert (Hf : fx_factor row = f) by (rewrite Hrow; reflexivity).
  rewrite Hf.
  assert (Hstored : forall b,
            let stored := fadd (fmul (where_abs_ge (tolerance model) b) f) fzero in
            (Binary64.is_finite f = true -> fltb (fabs b) (tolerance model) = true ->
             stored = Binary64.pzero)
            /\ (fgeb (fabs b) (tolerance model) = true -> stored = fadd (fmul b f) fzero)
            /\ (fgeb (fabs b) (tolerance model) = true ->
                Binary64.is_zero (fmul b f) = false ->
                fltb (fabs (fmul b f)) (tolerance model) = true ->
                Binary64.is_zero stored = false
                /\ fltb (fabs stored) (tolerance model) = true)).
  { intros b. cbv zeta.
    destruct (stored_bound (tolerance model) b f) as (_ & A).
    destruct (stored_raw_bound (tolerance model) b f) as (B & C). auto. }
  destruct (fltb f fzero) eqn:Hneg;
    (eexists _, _; split; [exact Hpartner|]; split; [rewrite Hrow; reflexivity|]);
    intros lo hi ->; cbv zeta; rewrite ?Hneg; cbn [option_map where_abs_ge_cell fst snd];
    destruct (Hstored lo) as (A1 & A2 & A3); destruct (Hstored hi) as (B1 & B2 & B3);
    (split; [reflexivity|]; split; [reflexivity|];
     split; [exact A1|]; split; [exact B1|]; split; [exact A2|];
     split; [exact B2|]; split; [exact A3 | exact B3]).
Qed.

(** [C10_tolerance_test_on_raw_bounds] at tolerance 1e-9: the raw minimum
    5e-10 of R1 is stored as 0 although four times it is 2e-9, and the raw
    minimum 1e-9 of R2, with factor 0.5, is stored as 5e-10. *)
Lemma C10_tolerance_test_on_raw_bounds_witness :
  exists g,
    _generate no_pfba no_analysis water
      [reaction_with "R1" (Binary64.of_Z 4); reaction_with "R2" (ratio 1 2)]
      {| tolerance := tolerance_1e_9 |}
      (Some [("R1", Binary64.of_Z 1); ("R2", Binary64.of_Z 1)])
      (FvaFrame [("R1", (ratio 1 2000000000, Binary64.of_Z 5));
                 ("R2", (tolerance_1e_9, Binary64.of_Z 5))]) = Some g
    /\ map fx_bounds (_flux g)
       = [Some (Binary64.pzero, Binary64.of_Z 20);
          Some (ratio 1 2000000000, ratio 5 2)]
    /\ fgeb (fabs (fmul (ratio 1 2000000000) (Binary64.of_Z 4))) tolerance_1e_9 = true
    /\ fltb (ratio 1 2000000000) tolerance_1e_9 = true
    /\ forall row, In row (_flux g) ->
       exists minimum maximum,
         fx_bounds row = Some (minimum, maximum)
         /\ (minimum = Binary64.pzero
             \/ Binary64.is_zero minimum = false
                /\ fltb (fabs minimum) tolerance_1e_9 = true).
Proof.
  eexists. split; [vm_compute; reflexivity|].
  split; [vm_compute; reflexivity|].
  split; [vm_compute; reflexivity|].
  split; [vm_compute; reflexivity|].
  intros row Hin.
  destruct (C10_tolerance_test_on_raw_bounds no_pfba no_analysis water
              [reaction_with "R1" (Binary64.of_Z 4); reaction_with "R2" (ratio 1 2)]
              {| tolerance := tolerance_1e_9 |}
              (Some [("R1", Binary64.of_Z 1); ("R2", Binary64.of_Z 1)])
              (FvaFrame [("R1", (ratio 1 2000000000, Binary64.of_Z 5));
                         ("R2", (tolerance_1e_9, Binary64.of_Z 5))])
              [("R1", (ratio 1 2000000000, Binary64.of_Z 5));
               ("R2", (tolerance_1e_9, Binary64.of_Z 5))] _
              eq_refl eq_refl row Hin)
    as (partner & minimum & maximum & H1 & H2 & H3).
  exists minimum, maximum. split; [exact H2|].
  destruct Hin as [<-|[<-|[]]].
  - destruct partner as [[lo hi]|].
    + destruct H1 as [E|[E|[]]]; [|discriminate E]. injection E as <- <-.
      left. destruct (H3 _ _ eq_refl) as (_ & _ & A & _).
      apply A; vm_compute; reflexivity.
    + exfalso. apply (H1 (ratio 1 2000000000, Binary64.of_Z 5)). left. reflexivity.
  - destruct partner as [[lo hi]|].
    + destruct H1 as [E|[E|[]]]; [discriminate E|]. injection E as <- <-.
      right. destruct (H3 _ _ eq_refl) as (_ & _ & _ & _ & _ & _ & A & _).
      apply A; vm_compute; reflexivity.
    + exfalso. apply (H1 (tolerance_1e_9, Binary64.of_Z 5)). right. left. reflexivity.
Defined.

(** ** Percentages, IEEE 754 *)

Section Percentages.
Import Binary64.
Local Open Scope Z_scope.













End Percentages.





(** A flux that overflows makes the total infinite and its percentage NaN. *)
Example percent_of_an_overflowing_flux :
  exists g,
    _generate no_pfba no_analysis water [float_reaction "A" 10]
      {| tolerance := tolerance_1e_9 |}
      (Some [("A", Binary64.of_Z (10 ^ 308))]) FvaNone = Some g
    /\ Binary64.is_zero (total_flux (producing_fluxes g)) = false
    /\ map percent (rows (producing_fluxes g)) = [Binary64.nan].
Proof.
  eexists. split; [vm_compute; reflexivity|].
  split; vm_compute; reflexivity.
Qed.


(** * Rendering *)

Section Rendering.
Context {F : Type} {number : Number F}.

Lemma nth_error_new (st : Store F) (frame : DataFrame F) :
  nth_error (st ++ [frame]) (List.length st) = Some frame.
Proof. rewrite nth_error_app2, Nat.sub_diag; auto. Qed.

Lemma nth_error_old (st ext : Store F) r frame :
  nth_error st r = Some frame -> nth_error (st ++ ext) r = Some frame.
Proof.
  intros H. rewrite nth_error_app1; auto. apply nth_error_Some. congruence.
Qed.

Lemma update_new (st : Store F) (old frame : DataFrame F) :
  update (st ++ [old]) (List.length st) frame = st ++ [frame].
Proof. induction st as [|a st IH]; simpl; [reflexivity | now rewrite IH]. Qed.

Lemma update_old (st : Store F) r (frame : DataFrame F) r' :
  r' <> r -> nth_error (update st r frame) r' = nth_error st r'.
Proof.
  revert r r'. induction st as [|a st IH]; intros [|r] [|r'] Hneq; simpl; auto.
  congruence.
Qed.

Lemma update_same (st : Store F) r (frame old : DataFrame F) :
  nth_error st r = Some old -> nth_error (update st r frame) r = Some frame.
Proof.
  revert r. induction st as [|a st IH]; intros [|r]; simpl; try discriminate; auto.
Qed.

Lemma display_flux_run (self : MetaboliteSummary F) frame names threshold st :
  _display_flux self frame names threshold st =
  match nth_error st frame with
  | None => None
  | Some old =>
      match display_frames (_reactions self) old names threshold with
      | None => None
      | Some (located, copy, result) =>
          Some ((List.length st + 2)%nat, st ++ [located; copy; result])
      end
  end.
Proof.
  unfold _display_flux, display_frames, row_mask, bind, get.
  destruct (nth_error st frame) as [old|]; [|reflexivity].
  set (located := {| columns := columns old;
                     rows := filter (if has_column "minimum" old && has_column "maximum" old
                                     then keep_ranged threshold else keep_plain threshold)
                                    (rows old) |}).
  assert (Hloc : (if has_column "minimum" old && has_column "maximum" old
                  then new {| columns := columns old;
                              rows := filter (keep_ranged threshold) (rows old) |}
                  else new {| columns := columns old;
                              rows := filter (keep_plain threshold) (rows old) |}) st
                 = Some (List.length st, st ++ [located])).
  { unfold located. destruct (has_column "minimum" old && has_column "maximum" old);
      reflexivity. }
  rewrite Hloc. rewrite nth_error_new. unfold new at 1.
  assert (Hlen : List.length (st ++ [located]) = S (List.length st))
    by (rewrite length_app; simpl; lia).
  rewrite Hlen.
  assert (Hcopy : nth_error ((st ++ [located]) ++ [located]) (S (List.length st))
                  = Some located).
  { rewrite <- Hlen. apply nth_error_new. }
  rewrite Hcopy.
  destruct (with_definition (_reactions self) names (rows located)) as [defined|];
    [|reflexivity].
  unfold put. rewrite Hcopy.
  assert (Hupd : forall was fr,
            update ((st ++ [located]) ++ [was]) (S (List.length st)) fr
            = (st ++ [located]) ++ [fr]).
  { intros was fr. rewrite <- Hlen. apply update_new. }
  rewrite Hupd.
  assert (Hget : forall fr, nth_error ((st ++ [located]) ++ [fr]) (S (List.length st))
                            = Some fr).
  { intros fr. rewrite <- Hlen. apply nth_error_new. }
  rewrite Hget.
  set (current := {| columns := add_column "definition" located; rows := defined |}).
  assert (Hlen2 : forall fr, List.length ((st ++ [located]) ++ [fr]) = (List.length st + 2)%nat)
    by (intros; rewrite !length_app; simpl; lia).
  destruct (has_column "minimum" current && has_column "maximum" current).
  - rewrite Hget, Hupd, Hget. unfold new. rewrite Hlen2.
    simpl rows. rewrite <- !app_assoc. reflexivity.
  - unfold new. rewrite Hlen2. rewrite <- !app_assoc. reflexivity.
Qed.

Variable frame_to_string : DataFrame F -> string -> Z -> string.
Variable frame_to_html : DataFrame F -> string -> string.
Variable shorten : string -> Z -> string.

Lemma string_table_run frame float_format column_width (st : Store F) :
  _string_table frame_to_string frame float_format column_width st =
  match nth_error st frame with
  | None => None
  | Some old =>
      Some (frame_to_string (titled old) float_format column_width,
            update st frame (titled old))
  end.
Proof.
  unfold _string_table, bind, get, put.
  destruct (nth_error st frame) as [old|] eqn:Hold; [|reflexivity].
  rewrite Hold. rewrite (update_same _ _ _ _ Hold). reflexivity.
Qed.

Lemma html_table_run frame float_format (st : Store F) :
  _html_table frame_to_html frame float_format st =
  match nth_error st frame with
  | None => None
  | Some old =>
      Some (frame_to_html (titled old) float_format, update st frame (titled old))
  end.
Proof.
  unfold _html_table, bind, get, put.
  destruct (nth_error st frame) as [old|] eqn:Hold; [|reflexivity].
  rewrite Hold. rewrite (update_same _ _ _ _ Hold). reflexivity.
Qed.

Lemma update_length (st : Store F) r frame :
  List.length (update st r frame) = List.length st.
Proof.
  revert r. induction st as [|a st IH]; intros [|r]; simpl; auto.
Qed.

Lemma update_result (st : Store F) located copy result :
  update (st ++ [located; copy; result]) (List.length st + 2) (titled result)
  = rendered_store st located copy result.
Proof.
  unfold rendered_store.
  induction st as [|a st IH]; simpl; [reflexivity | now rewrite IH].
Qed.

Lemma nth_error_result (st : Store F) located copy result :
  nth_error (st ++ [located; copy; result]) (List.length st + 2) = Some result.
Proof.
  rewrite nth_error_app2 by lia.
  replace (List.length st + 2 - List.length st)%nat with 2%nat by lia. reflexivity.
Qed.

Lemma rendered_store_old (st : Store F) located copy result r frame :
  nth_error st r = Some frame ->
  nth_error (rendered_store st located copy result) r = Some frame.
Proof. apply nth_error_old. Qed.

Lemma with_definition_total reactions names (table : list (Row F)) :
  (forall row, In row table -> reactions_by_id reactions (reaction row) <> None) ->
  exists defined, with_definition reactions names table = Some defined.
Proof.
  induction table as [|row table IH]; simpl; intros Hknown; [eauto|].
  destruct (reactions_by_id reactions (reaction row)) as [r|] eqn:Hr.
  - destruct IH as [defined ->]; eauto.
  - exfalso. apply (Hknown row); auto.
Qed.

Lemma display_frames_total (self : MetaboliteSummary F) old names threshold :
  known_rows self old ->
  exists located copy result,
    display_frames (_reactions self) old names threshold
    = Some (located, copy, result).
Proof.
  intros Hknown. unfold display_frames.
  destruct (with_definition_total (_reactions self) names
              (filter (row_mask old threshold) (rows old))) as [defined Hdef].
  { intros row Hin. apply filter_In in Hin. apply Hknown, Hin. }
  simpl rows. rewrite Hdef.
  match goal with |- context [if ?b then _ else _] => destruct b end; eauto.
Qed.

(** [_display_flux] on a frame of the store, then a formatter on the result,
    then the rest [k] of the rendering: [k] gets the text of the result with
    title-cased headers. *)
Lemma display_then_string_table {A} (self : MetaboliteSummary F) frame names threshold
    float_format column_width (k : string -> M A) st :
  bind (_display_flux self frame names threshold)
       (fun displayed =>
          bind (_string_table frame_to_string displayed float_format column_width) k)
       st =
  match nth_error st frame with
  | None => None
  | Some old =>
      match display_frames (_reactions self) old names threshold with
      | None => None
      | Some (located, copy, result) =>
          k (frame_to_string (titled result) float_format column_width)
            (rendered_store st located copy result)
      end
  end.
Proof.
  unfold bind at 1. rewrite display_flux_run.
  destruct (nth_error st frame) as [old|]; [|reflexivity].
  destruct (display_frames (_reactions self) old names threshold)
    as [[[located copy] result]|]; [|reflexivity].
  unfold bind. rewrite string_table_run, nth_error_result, update_result. reflexivity.
Qed.

Lemma display_then_html_table {A} (self : MetaboliteSummary F) frame names threshold
    float_format (k : string -> M A) st :
  bind (_display_flux self frame names threshold)
       (fun displayed => bind (_html_table frame_to_html displayed float_format) k)
       st =
  match nth_error st frame with
  | None => None
  | Some old =>
      match display_frames (_reactions self) old names threshold with
      | None => None
      | Some (located, copy, result) =>
          k (frame_to_html (titled result) float_format)
            (rendered_store st located copy result)
      end
  end.
Proof.
  unfold bind at 1. rewrite display_flux_run.
  destruct (nth_error st frame) as [old|]; [|reflexivity].
  destruct (display_frames (_reactions self) old names threshold)
    as [[[located copy] result]|]; [|reflexivity].
  unfold bind. rewrite html_table_run, nth_error_result, update_result. reflexivity.
Qed.

(** A rendering only appends to the store. *)
Lemma to_string_extends (self : MetaboliteSummary F) names threshold float_format
    column_width st out st' :
  to_string frame_to_string shorten self names threshold float_format column_width st
    = Some (out, st') ->
  exists ext, st' = st ++ ext.
Proof.
  unfold to_string. rewrite display_then_string_table.
  destruct (nth_error st (self_producing_fluxes self)) as [p|]; [|discriminate].
  destruct (display_frames _ p _ _) as [[[lp cp] rp]|]; [|discriminate].
  rewrite display_then_string_table.
  destruct (nth_error _ (self_consuming_fluxes self)) as [c|]; [|discriminate].
  destruct (display_frames _ c _ _) as [[[lc cc] rc]|]; [|discriminate].
  unfold ret, rendered_store. intros H. injection H as _ <-.
  rewrite <- app_assoc. eauto.
Qed.

Lemma to_html_extends (self : MetaboliteSummary F) names threshold float_format
    st out st' :
  to_html frame_to_html self names threshold float_format st = Some (out, st') ->
  exists ext, st' = st ++ ext.
Proof.
  unfold to_html. rewrite display_then_html_table.
  destruct (nth_error st (self_producing_fluxes self)) as [p|]; [|discriminate].
  destruct (display_frames _ p _ _) as [[[lp cp] rp]|]; [|discriminate].
  rewrite display_then_html_table.
  destruct (nth_error _ (self_consuming_fluxes self)) as [c|]; [|discriminate].
  destruct (display_frames _ c _ _) as [[[lc cc] rc]|]; [|discriminate].
  unfold ret, rendered_store. intros H. injection H as _ <-.
  rewrite <- app_assoc. eauto.
Qed.

Lemma summary_in_store_extends (self : MetaboliteSummary F) st ext :
  summary_in_store self st -> summary_in_store self (st ++ ext).
Proof.
  intros (p & c & Hp & Hc & Hkp & Hkc). exists p, c.
  repeat split; auto using nth_error_old.
Qed.

Lemma to_string_total (self : MetaboliteSummary F) names threshold float_format
    column_width st :
  summary_in_store self st ->
  exists out st',
    to_string frame_to_string shorten self names threshold float_format column_width st
    = Some (out, st').
Proof.
  intros (p & c & Hp & Hc & Hkp & Hkc).
  unfold to_string. rewrite display_then_string_table, Hp.
  destruct (display_frames_total self p names
              (normalize_cutoff (_model self) threshold) Hkp)
    as (lp & cp & rp & ->).
  rewrite display_then_string_table.
  rewrite (rendered_store_old st lp cp rp _ _ Hc).
  destruct (display_frames_total self c names
              (normalize_cutoff (_model self) threshold) Hkc)
    as (lc & cc & rc & ->).
  unfold ret. eauto.
Qed.

Lemma to_html_total (self : MetaboliteSummary F) names threshold float_format st :
  summary_in_store self st ->
  exists out st',
    to_html frame_to_html self names threshold float_format st = Some (out, st').
Proof.
  intros (p & c & Hp & Hc & Hkp & Hkc).
  unfold to_html. rewrite display_then_html_table, Hp.
  destruct (display_frames_total self p names threshold Hkp) as (lp & cp & rp & ->).
  rewrite display_then_html_table.
  rewrite (rendered_store_old st lp cp rp _ _ Hc).
  destruct (display_frames_total self c names threshold Hkc) as (lc & cc & rc & ->).
  unfold ret. eauto.
Qed.

Lemma reactions_by_id_known (reactions : list (Reaction F)) r :
  In r reactions -> reactions_by_id reactions (id r) <> None.
Proof.
  unfold reactions_by_id. intros Hin Hnone.
  apply find_none with (x := r) in Hnone; [|now apply in_rev in Hin].
  rewrite String.eqb_refl in Hnone. discriminate.
Qed.

Variable pfba : Model F -> option (Solution F).
Variable flux_variability_analysis : Model F -> list string -> F -> option (FVA F).

(** The rows of the constructed tables name reactions of the summary. *)
Lemma generate_known_rows metabolite reactions model solution fva g mask ranged row :
  _generate pfba flux_variability_analysis metabolite reactions model solution fva
    = Some g ->
  In row (rows (select ranged mask (_flux g))) ->
  reactions_by_id reactions (reaction row) <> None.
Proof.
  intros Hg Hin.
  destruct (generate_flux_origin _ _ _ _ _ _ _ _ Hg)
    as (sol & frame & _ & _ & _ & _ & Horigin).
  destruct (select_row_source _ _ _ _ Hin) as (s & Hs & _ & _ & -> & _).
  destruct (Horigin s Hs) as (r & x & Hr & _ & Hrow).
  assert (Hid : fx_reaction s = id r).
  { destruct frame as [f|].
    - destruct Hrow as (partner & _ & ->). reflexivity.
    - rewrite Hrow. reflexivity. }
  rewrite Hid. now apply reactions_by_id_known.
Qed.

Lemma init_in_store metabolite metabolite_reactions model solution fva st self st' :
  __init__ pfba flux_variability_analysis metabolite metabolite_reactions model
    solution fva st = Some (self, st') ->
  summary_in_store self st'
  /\ exists g,
       _generate pfba flux_variability_analysis metabolite
         (sorted_by_id metabolite_reactions) model solution fva = Some g
       /\ st' = st ++ [producing_fluxes g; consuming_fluxes g]
       /\ self_producing_fluxes self = List.length st
       /\ self_consuming_fluxes self = S (List.length st).
Proof.
  unfold __init__.
  destruct (_generate pfba flux_variability_analysis metabolite
              (sorted_by_id metabolite_reactions) model solution fva) as [g|] eqn:Hg;
    [|discriminate].
  unfold bind, new, ret. rewrite length_app. simpl List.length.
  rewrite Nat.add_1_r, <- app_assoc. simpl app.
  intros H. injection H as <- <-.
  split; [|exists g; auto].
  destruct (generate_inv _ _ _ _ _ _ _ _ Hg)
    as (sol & frame & table & _ & _ & _ & _ & Hp & Hc).
  exists (producing_fluxes g), (consuming_fluxes g).
  cbn [self_producing_fluxes self_consuming_fluxes].
  split; [rewrite nth_error_app2, Nat.sub_diag by lia; reflexivity|].
  split.
  { rewrite nth_error_app2 by lia.
    replace (S (List.length st) - List.length st)%nat with 1%nat by lia. reflexivity. }
  unfold known_rows. simpl. split; intros row Hin.
  - rewrite Hp in Hin. exact (generate_known_rows _ _ _ _ _ _ _ _ _ Hg Hin).
  - rewrite Hc in Hin. exact (generate_known_rows _ _ _ _ _ _ _ _ _ Hg Hin).
Qed.

End Rendering.

(** C8: rendering a summary whose tables are in the store succeeds and only
    appends frames to the store: every frame that existed before the call, in
    particular the producing and the consuming table, is what it was, rows,
    columns and values; the filtering, the assigned columns and the new
    headers go to frames created during the call. *)
Theorem C8_rendering_preserves_tables {F} {number : Number F}
    (frame_to_string : DataFrame F -> string -> Z -> string)
    (frame_to_html : DataFrame F -> string -> string)
    (shorten : string -> Z -> string)
    (self : MetaboliteSummary F) (st : Store F) :
  summary_in_store self st ->
  forall names threshold float_format column_width,
    (exists out st',
       to_string frame_to_string shorten self names threshold float_format
         column_width st = Some (out, st')
       /\ (exists ext, st' = st ++ ext)
       /\ nth_error st' (self_producing_fluxes self)
          = nth_error st (self_producing_fluxes self)
       /\ nth_error st' (self_consuming_fluxes self)
          = nth_error st (self_consuming_fluxes self)
       /\ summary_in_store self st')
    /\ (exists out st',
          to_html frame_to_html self names threshold float_format st = Some (out, st')
          /\ (exists ext, st' = st ++ ext)
          /\ nth_error st' (self_producing_fluxes self)
             = nth_error st (self_producing_fluxes self)
          /\ nth_error st' (self_consuming_fluxes self)
             = nth_error st (self_consuming_fluxes self)
          /\ summary_in_store self st').
Proof.
  intros Hin names threshold float_format column_width.
  assert (Hkeep : forall st', (exists ext, st' = st ++ ext) ->
            nth_error st' (self_producing_fluxes self)
            = nth_error st (self_producing_fluxes self)
            /\ nth_error st' (self_consuming_fluxes self)
               = nth_error st (self_consuming_fluxes self)
            /\ summary_in_store self st').
  { intros st' [ext ->]. destruct Hin as (p & c & Hp & Hc & Hk).
    rewrite (nth_error_old _ ext _ _ Hp), (nth_error_old _ ext _ _ Hc), Hp, Hc.
    split; auto. split; auto. apply summary_in_store_extends. exists p, c. tauto. }
  split.
  - destruct (to_string_total frame_to_string shorten self names threshold
                float_format column_width st Hin) as (out & st' & Hrun).
    exists out, st'. split; [exact Hrun|].
    pose proof (to_string_extends _ _ _ _ _ _ _ _ _ _ Hrun) as Hext.
    split; [exact Hext|]. apply Hkeep, Hext.
  - destruct (to_html_total frame_to_html self names threshold float_format st Hin)
      as (out & st' & Hrun).
    exists out, st'. split; [exact Hrun|].
    pose proof (to_html_extends _ _ _ _ _ _ _ _ Hrun) as Hext.
    split; [exact Hext|]. apply Hkeep, Hext.
Qed.

(** ** Filtering by the threshold *)

Section Filtering.
Context {F : Type} {number : Number F}.

Lemma with_definition_filter reactions names (p : Row F -> bool) table defined :
  ignores_definition p ->
  with_definition reactions names table = Some defined ->
  with_definition reactions names (filter p table) = Some (filter p defined).
Proof.
  intros Hp. revert defined.
  induction table as [|row table IH]; simpl; intros defined Hdef.
  - injection Hdef as <-. reflexivity.
  - destruct (reactions_by_id reactions (reaction row)) as [r|] eqn:Hr;
      [|discriminate].
    destruct (with_definition reactions names table) as [rest|]; [|discriminate].
    injection Hdef as <-. simpl. rewrite Hp.
    destruct (p row); simpl; rewrite ?Hr, (IH rest eq_refl); reflexivity.
Qed.

Lemma row_mask_ignores_definition (old : DataFrame F) threshold :
  ignores_definition (row_mask old threshold).
Proof.
  unfold ignores_definition, row_mask, keep_ranged, keep_plain. intros row text.
  destruct (has_column "minimum" old && has_column "maximum" old); reflexivity.
Qed.

Lemma filter_filter_implied {A} (p q : A -> bool) (l : list A) :
  (forall a, q a = true -> p a = true) ->
  filter q l = filter q (filter p l).
Proof.
  intros Hpq. induction l as [|a l IH]; simpl; auto.
  destruct (q a) eqn:Hq.
  - rewrite (Hpq a Hq). simpl. rewrite Hq. now f_equal.
  - destruct (p a); simpl; rewrite ?Hq; auto.
Qed.

Lemma filter_length_le {A} (p : A -> bool) (l : list A) :
  (List.length (filter p l) <= List.length l)%nat.
Proof. induction l as [|a l IH]; simpl; [lia | destruct (p a); simpl; lia]. Qed.

Lemma with_definition_index reactions names (table defined : list (Row F)) :
  with_definition reactions names table = Some defined ->
  map index defined = map index table.
Proof.
  revert defined. induction table as [|row table IH]; simpl; intros defined Hdef.
  - injection Hdef as <-. reflexivity.
  - destruct (reactions_by_id reactions (reaction row)); [|discriminate].
    destruct (with_definition reactions names table) as [rest|]; [|discriminate].
    injection Hdef as <-. simpl. f_equal. auto.
Qed.

Lemma result_shape_index old (table : list (Row F)) :
  map index (map (result_shape old) table) = map index table.
Proof.
  rewrite map_map. apply map_ext. intros row. unfold result_shape.
  destruct (result_is_ranged old); reflexivity.
Qed.

(** The rows of the frame that [_display_flux] returns. *)
Lemma display_frames_rows reactions (old : DataFrame F) names threshold :
  match display_frames reactions old names threshold with
  | Some (_, _, result) =>
      exists defined,
        with_definition reactions names (filter (row_mask old threshold) (rows old))
        = Some defined
        /\ rows result = map (result_shape old) defined
  | None =>
      with_definition reactions names (filter (row_mask old threshold) (rows old))
      = None
  end.
Proof.
  unfold display_frames. cbn [rows].
  destruct (with_definition reactions names
              (filter (row_mask old threshold) (rows old))) as [defined|];
    [|reflexivity].
  change (has_column "minimum"
            {| columns := add_column "definition"
                            {| columns := columns old;
                               rows := filter (row_mask old threshold) (rows old) |};
               rows := defined |}
          && has_column "maximum"
               {| columns := add_column "definition"
                               {| columns := columns old;
                                  rows := filter (row_mask old threshold) (rows old) |};
                  rows := defined |})
    with (result_is_ranged old).
  unfold result_shape.
  destruct (result_is_ranged old); exists defined; split; auto.
  cbn [rows]. rewrite map_map. reflexivity.
Qed.

(** Raising the threshold from [t1] to [t2] removes rows and adds none. *)
Lemma display_flux_monotone (self : MetaboliteSummary F) frame names t1 t2 st d1 st1 :
  (forall a, fgeb a t2 = true -> fgeb a t1 = true) ->
  _display_flux self frame names t1 st = Some (d1, st1) ->
  exists d2 st2 f1 f2 old,
    _display_flux self frame names t2 st = Some (d2, st2)
    /\ nth_error st frame = Some old
    /\ nth_error st1 d1 = Some f1
    /\ nth_error st2 d2 = Some f2
    /\ map index (rows f1) = map index (filter (row_mask old t1) (rows old))
    /\ map index (rows f2) = map index (filter (row_mask old t2) (rows old))
    /\ (forall row, In row (rows f2) -> In row (rows f1))
    /\ (List.length (rows f2) <= List.length (rows f1))%nat.
Proof.
  intros Hmono. rewrite !display_flux_run.
  destruct (nth_error st frame) as [old|]; [|discriminate].
  pose proof (display_frames_rows (_reactions self) old names t1) as H1.
  pose proof (display_frames_rows (_reactions self) old names t2) as H2.
  destruct (display_frames (_reactions self) old names t1) as [[[l1 c1] r1]|];
    [|discriminate].
  intros Hrun. injection Hrun as <- <-.
  destruct H1 as (defined1 & Hdef1 & Hrows1).
  assert (Himp : forall row, row_mask old t2 row = true -> row_mask old t1 row = true).
  { intros row. unfold row_mask, keep_ranged, keep_plain.
    destruct (has_column "minimum" old && has_column "maximum" old).
    - rewrite !orb_true_iff. destruct (bounds row) as [[minimum maximum]|].
      + rewrite !orb_true_iff. intuition auto.
      + intuition auto.
    - apply Hmono. }
  assert (Hdef2 : with_definition (_reactions self) names
                    (filter (row_mask old t2) (rows old))
                  = Some (filter (row_mask old t2) defined1)).
  { rewrite (filter_filter_implied _ _ (rows old) Himp).
    apply with_definition_filter; auto. apply row_mask_ignores_definition. }
  destruct (display_frames (_reactions self) old names t2) as [[[l2 c2] r2]|];
    [|congruence].
  destruct H2 as (defined2 & Hdef2' & Hrows2).
  assert (defined2 = filter (row_mask old t2) defined1) by congruence. subst defined2.
  exists (List.length st + 2)%nat, (st ++ [l2; c2; r2]), r1, r2, old.
  split; [reflexivity|]. split; [reflexivity|].
  split; [apply nth_error_result|]. split; [apply nth_error_result|].
  split.
  { rewrite Hrows1, result_shape_index. now apply with_definition_index in Hdef1. }
  split.
  { rewrite Hrows2, result_shape_index. now apply with_definition_index in Hdef2'. }
  rewrite Hrows1, Hrows2. split.
  - intros row Hin. apply in_map_iff in Hin. destruct Hin as (d & <- & Hd).
    apply filter_In in Hd. apply in_map, Hd.
  - rewrite !length_map. apply filter_length_le.
Qed.

End Filtering.

(** C9: for thresholds [t1 <= t2], what [_display_flux] keeps at [t2] it also
    keeps at [t1], so the frame rendered at [t2] has no more rows than the
    one rendered at [t1]; a row is kept when the absolute value of its flux
    reaches the threshold or, in a frame with bounds, when that of its
    minimum or of its maximum does. *)
Theorem C9_threshold_monotone (self : MetaboliteSummary Binary64.float) frame names
    (t1 t2 : Binary64.float) st d1 st1 :
  fleb t1 t2 = true ->
  _display_flux self frame names t1 st = Some (d1, st1) ->
  exists d2 st2 f1 f2 old,
    _display_flux self frame names t2 st = Some (d2, st2)
    /\ nth_error st frame = Some old
    /\ nth_error st1 d1 = Some f1
    /\ nth_error st2 d2 = Some f2
    /\ map index (rows f1) = map index (filter (row_mask old t1) (rows old))
    /\ map index (rows f2) = map index (filter (row_mask old t2) (rows old))
    /\ (forall row, In row (rows f2) -> In row (rows f1))
    /\ (List.length (rows f2) <= List.length (rows f1))%nat.
Proof.
  intros Hle. apply display_flux_monotone.
  intros a. unfold fgeb. simpl. intros Ha. exact (SFleb_trans _ _ _ Hle Ha).
Qed.

(** [C8_rendering_preserves_tables] on the text rendering of the example
    summary. *)
Lemma C8_rendering_preserves_tables_witness :
  exists self st out st',
    example_summary [] = Some (self, st)
    /\ summary_in_store self st
    /\ to_string text_table no_shorten self false (Binary64.of_Z 1) ".4G" 79 st
       = Some (out, st')
    /\ nth_error st' (self_producing_fluxes self)
       = nth_error st (self_producing_fluxes self)
    /\ nth_error st' (self_consuming_fluxes self)
       = nth_error st (self_consuming_fluxes self).
Proof.
  destruct (example_summary []) as [[self st]|] eqn:Hinit;
    [|vm_compute in Hinit; discriminate].
  pose proof (proj1 (init_in_store _ _ _ _ _ _ _ _ _ _ Hinit)) as Hin.
  destruct (C8_rendering_preserves_tables text_table html_table no_shorten self st Hin
              false (Binary64.of_Z 1) ".4G" 79%Z)
    as [(out & st' & Hrun & _ & Hp & Hc & _) _].
  exists self, st, out, st'. auto.
Defined.

(** [C9_threshold_monotone] on the producing table of the example summary
    at the thresholds 1 and 4. *)
Lemma C9_threshold_monotone_witness :
  exists self st d1 st1,
    example_summary [] = Some (self, st)
    /\ fleb (Binary64.of_Z 1) (Binary64.of_Z 4) = true
    /\ _display_flux self (self_producing_fluxes self) false (Binary64.of_Z 1) st
       = Some (d1, st1)
    /\ exists d2 st2 f1 f2 old,
         _display_flux self (self_producing_fluxes self) false (Binary64.of_Z 4) st
         = Some (d2, st2)
         /\ nth_error st (self_producing_fluxes self) = Some old
         /\ nth_error st1 d1 = Some f1
         /\ nth_error st2 d2 = Some f2
         /\ map index (rows f1)
            = map index (filter (row_mask old (Binary64.of_Z 1)) (rows old))
         /\ map index (rows f2)
            = map index (filter (row_mask old (Binary64.of_Z 4)) (rows old))
         /\ (forall row, In row (rows f2) -> In row (rows f1))
         /\ (List.length (rows f2) <= List.length (rows f1))%nat.
Proof.
  do 4 eexists. split; [vm_compute; reflexivity|].
  split; [reflexivity|].
  split; [vm_compute; reflexivity|].
  eapply C9_threshold_monotone; [reflexivity | vm_compute; reflexivity].
Defined.

(** The frames rendered for the producing table of the example at the
    thresholds 1 and 4. *)
Example display_flux_at_two_thresholds :
  forall self st, example_summary [] = Some (self, st) ->
  exists d1 st1 f1 d2 st2 f2,
    _display_flux self (self_producing_fluxes self) false (Binary64.of_Z 1) st
    = Some (d1, st1)
    /\ nth_error st1 d1 = Some f1 /\ map index (rows f1) = ["A"; "D"]
    /\ _display_flux self (self_producing_fluxes self) false (Binary64.of_Z 4) st
       = Some (d2, st2)
    /\ nth_error st2 d2 = Some f2 /\ map index (rows f2) = ["A"]
    /\ nth_error st1 (self_producing_fluxes self)
       = nth_error st (self_producing_fluxes self).
Proof.
  intros self st Hinit. vm_compute in Hinit. injection Hinit as <- <-.
  do 6 eexists.
  split; [vm_compute; reflexivity|].
  split; [vm_compute; reflexivity|].
  split; [vm_compute; reflexivity|].
  split; [vm_compute; reflexivity|].
  split; [vm_compute; reflexivity|].
  split; vm_compute; reflexivity.
Qed.

(** ** The columns of the constructed tables *)

(** C4, as stated, fails: without variability data the rows of the tables
    expose no factor, the tables have the columns flux, reaction, percent. *)
Lemma C4_no_factor_column :
  exists g,
    _generate no_pfba no_analysis water example_reactions
      {| tolerance := tolerance_1e_9 |} (Some example_solution) FvaNone = Some g
    /\ map index (rows (producing_fluxes g)) = ["D"; "A"; "C"]
    /\ columns (producing_fluxes g) = ["flux"; "reaction"; "percent"]
    /\ has_column "factor" (producing_fluxes g) = false
    /\ has_column "factor" (consuming_fluxes g) = false.
Proof.
  eexists. split; [vm_compute; reflexivity|].
  repeat split; vm_compute; reflexivity.
Qed.

(** C4 (amended): both tables are indexed by reaction identifier, and every
    row carries its flux, its reaction identifier and its percentage, and,
    exactly when variability data is supplied, its minimum and maximum; the
    factor is not a column of the tables (it stays in the frame [_flux]), and
    the range is assembled only when a table is rendered. *)
Theorem C4_table_columns {F} {number : Number F} pfba analysis metabolite reactions
    model solution fva (g : Generated F) :
  _generate pfba analysis metabolite reactions model solution fva = Some g ->
  exists frame,
    resolved_fva analysis model reactions fva frame
    /\ forall table,
         table = producing_fluxes g \/ table = consuming_fluxes g ->
         columns table
         = (if is_ranged frame
            then ["flux"; "minimum"; "maximum"; "reaction"; "percent"]
            else ["flux"; "reaction"; "percent"])
         /\ has_column "factor" table = false
         /\ has_column "range" table = false
         /\ forall row, In row (rows table) ->
              index row = reaction row
              /\ In (index row) (map id reactions)
              /\ (exists source, In source (_flux g)
                    /\ fx_index source = index row /\ fx_flux source = flux row)
              /\ percent row = fdiv (fabs (flux row)) (total_flux table)
              /\ (if is_ranged frame
                  then exists minimum maximum, bounds row = Some (minimum, maximum)
                  else bounds row = None)
              /\ range row = None.
Proof.
  intros Hg.
  destruct (generate_flux_origin _ _ _ _ _ _ _ _ Hg)
    as (sol & frame & _ & Hfva & Hp & Hc & Horigin).
  exists frame. split; [exact Hfva|].
  assert (Hselect : forall mask,
            let table := select (is_ranged frame) mask (_flux g) in
            columns table
            = (if is_ranged frame
               then ["flux"; "minimum"; "maximum"; "reaction"; "percent"]
               else ["flux"; "reaction"; "percent"])
            /\ has_column "factor" table = false
            /\ has_column "range" table = false
            /\ forall row, In row (rows table) ->
                 index row = reaction row
                 /\ In (index row) (map id reactions)
                 /\ (exists source, In source (_flux g)
                       /\ fx_index source = index row /\ fx_flux source = flux row)
                 /\ percent row = fdiv (fabs (flux row)) (total_flux table)
                 /\ (if is_ranged frame
                     then exists minimum maximum, bounds row = Some (minimum, maximum)
                     else bounds row = None)
                 /\ range row = None).
  { intros mask table.
    split; [unfold table, select; destruct (is_ranged frame); reflexivity|].
    split; [unfold table, select; destruct (is_ranged frame); reflexivity|].
    split; [unfold table, select; destruct (is_ranged frame); reflexivity|].
    intros row Hin.
    pose proof (select_percent _ _ _ _ Hin) as Hpercent.
    destruct (select_row_source _ _ _ _ Hin)
      as (s & Hs & _ & Hindex & Hreaction & Hflux & Hbounds & _ & Hrange).
    destruct (Horigin s Hs) as (r & x & Hr & _ & Hrow).
    assert (Hshape : fx_index s = id r /\ fx_reaction s = id r
                     /\ (if is_ranged frame
                         then exists minimum maximum,
                                fx_bounds s = Some (minimum, maximum)
                         else fx_bounds s = None)).
    { destruct frame as [f|]; simpl.
      - destruct Hrow as (partner & _ & ->). rewrite ranged_row_fields. simpl.
        repeat split. destruct (oriented_bounds _ _ _) as [minimum maximum]. eauto.
      - rewrite Hrow. repeat split. }
    destruct Hshape as (Hi & Hre & Hb).
    split; [congruence|]. split; [rewrite Hindex, Hi; now apply in_map|].
    split; [exists s; repeat split; congruence|].
    split; [exact Hpercent|]. split; [|exact Hrange].
    rewrite Hbounds. destruct (is_ranged frame); auto. }
  intros table [-> | ->]; [rewrite Hp | rewrite Hc]; apply Hselect.
Qed.

(** [C4_table_columns] on the example with bounds for reaction A. *)
Lemma C4_table_columns_witness :
  exists g,
    _generate no_pfba no_analysis water example_reactions
      {| tolerance := tolerance_1e_9 |} (Some example_solution)
      (FvaFrame [("A", (Binary64.of_Z 1, Binary64.of_Z 6))]) = Some g
    /\ columns (producing_fluxes g)
       = ["flux"; "minimum"; "maximum"; "reaction"; "percent"]
    /\ has_column "factor" (producing_fluxes g) = false.
Proof.
  eexists. split; [vm_compute; reflexivity|].
  destruct (C4_table_columns no_pfba no_analysis water example_reactions
              {| tolerance := tolerance_1e_9 |} (Some example_solution)
              (FvaFrame [("A", (Binary64.of_Z 1, Binary64.of_Z 6))]) _ eq_refl)
    as (frame & Hframe & Htables).
  simpl in Hframe. subst frame.
  destruct (Htables _ (or_introl eq_refl)) as (Hcolumns & Hfactor & _).
  split; [exact Hcolumns | exact Hfactor].
Defined.

(** ** The threshold of a rendering *)

(** With the threshold widened by [normalize_cutoff], the text rendering of a
    threshold below the tolerance is that of the tolerance. *)
Lemma to_string_widens_threshold frame_to_string shorten
    (self : MetaboliteSummary Binary64.float) names threshold float_format
    column_width :
  fltb threshold (tolerance (_model self)) = true ->
  to_string frame_to_string shorten self names threshold float_format column_width
  = to_string frame_to_string shorten self names (tolerance (_model self))
      float_format column_width.
Proof.
  intros Hlt. unfold to_string, normalize_cutoff. rewrite Hlt.
  simpl fltb. rewrite SFltb_irrefl. reflexivity.
Qed.

(** C3 fails for the markup rendering: [to_html] hands the caller's threshold
    to [_display_flux] as it is.  With the threshold 0, below the tolerance
    1e-9, the markup shows reaction C, whose flux is zero; with the threshold
    equal to the tolerance it does not.  The text rendering is the same for
    the two thresholds. *)
Theorem C3_to_html_keeps_raw_threshold :
  exists self st,
    example_summary [] = Some (self, st)
    /\ fltb Binary64.pzero (tolerance (_model self)) = true
    /\ option_map fst (to_html html_table self false Binary64.pzero ".4G" st)
       = Some ("<h3>h2o_c</h3><p>H2O</p><h4>Producing Reactions</h4>"
               ++ "Percent Flux Reaction Definition:A,C,D"
               ++ "<h4>Consuming Reactions</h4>"
               ++ "Percent Flux Reaction Definition:B")%string
    /\ option_map fst
         (to_html html_table self false (tolerance (_model self)) ".4G" st)
       = Some ("<h3>h2o_c</h3><p>H2O</p><h4>Producing Reactions</h4>"
               ++ "Percent Flux Reaction Definition:A,D"
               ++ "<h4>Consuming Reactions</h4>"
               ++ "Percent Flux Reaction Definition:B")%string
    /\ to_string text_table no_shorten self false Binary64.pzero ".4G" 79 st
       = to_string text_table no_shorten self false (tolerance (_model self))
           ".4G" 79 st.
Proof.
  do 2 eexists. split; [vm_compute; reflexivity|].
  split; [vm_compute; reflexivity|].
  split; [vm_compute; reflexivity|].
  split; [vm_compute; reflexivity|].
  rewrite to_string_widens_threshold; reflexivity.
Qed.

(** * The scenarios of the specification in double precision *)

(** Reaction A (factor 1, flux 5) and reaction B (factor -2, flux 3) at
    tolerance 1e-9: A is produced with scaled flux 5, B is consumed with
    scaled flux -6, each is all of its table. *)
Example scenario_producing_and_consuming :
  exists g,
    _generate no_pfba no_analysis water [producing_reaction; consuming_reaction]
      {| tolerance := tolerance_1e_9 |}
      (Some [("A", Binary64.of_Z 5); ("B", Binary64.of_Z 3)]) FvaNone = Some g
    /\ map (fun row => (index row, flux row, percent row)) (rows (producing_fluxes g))
       = [("A", Binary64.of_Z 5, Binary64.of_Z 1)]
    /\ map (fun row => (index row, flux row, percent row)) (rows (consuming_fluxes g))
       = [("B", Binary64.of_Z (-6), Binary64.of_Z 1)].
Proof.
  eexists. split; [vm_compute; reflexivity|].
  split; vm_compute; reflexivity.
Qed.

(** The bounds (-2, 4) of a reaction with factor -1 are stored as (-4, 2). *)
Example scenario_inverted_bounds :
  exists g,
    _generate no_pfba no_analysis water [reversed_reaction]
      {| tolerance := tolerance_1e_9 |} (Some [("B", Binary64.of_Z 3)])
      (FvaFrame [("B", (Binary64.of_Z (-2), Binary64.of_Z 4))]) = Some g
    /\ map bounds (rows (consuming_fluxes g))
       = [Some (Binary64.of_Z (-4), Binary64.of_Z 2)].
Proof.
  eexists. split; [vm_compute; reflexivity|].
  vm_compute; reflexivity.
Qed.

(** * The order of the reactions *)

Lemma string_compare_refl s : String.compare s s = Eq.
Proof.
  induction s as [|a s IH]; simpl; auto.
  unfold Ascii.compare. now rewrite N.compare_refl.
Qed.

Lemma string_leb_refl s : String.leb s s = true.
Proof. unfold String.leb. now rewrite string_compare_refl. Qed.

Lemma string_compare_trans c s1 s2 s3 :
  String.compare s1 s2 = c -> String.compare s2 s3 = c -> String.compare s1 s3 = c.
Proof.
  revert s2 s3. induction s1 as [|a1 s1 IH]; intros [|a2 s2] [|a3 s3]; simpl;
    try congruence.
  unfold Ascii.compare.
  destruct (N.compare_spec (N_of_ascii a1) (N_of_ascii a2)) as [H12|H12|H12];
    destruct (N.compare_spec (N_of_ascii a2) (N_of_ascii a3)) as [H23|H23|H23];
    destruct (N.compare_spec (N_of_ascii a1) (N_of_ascii a3)) as [H13|H13|H13];
    try lia; try congruence; intros; try (eapply IH; eassumption); subst; auto.
Qed.

Lemma string_leb_trans s1 s2 s3 :
  String.leb s1 s2 = true -> String.leb s2 s3 = true -> String.leb s1 s3 = true.
Proof.
  unfold String.leb.
  destruct (String.compare s1 s2) eqn:H12; try discriminate;
    destruct (String.compare s2 s3) eqn:H23; try discriminate; intros _ _.
  - now rewrite (string_compare_trans Eq _ _ _ H12 H23).
  - apply String.compare_eq_iff in H12. subst. now rewrite H23.
  - apply String.compare_eq_iff in H23. subst. now rewrite H12.
  - now rewrite (string_compare_trans Lt _ _ _ H12 H23).
Qed.

Section Sorting.
Context {F : Type} {number : Number F}.

Lemma insert_by_id_Permutation (r : Reaction F) sorted :
  Permutation (insert_by_id r sorted) (r :: sorted).
Proof.
  induction sorted as [|r' rest IH]; simpl; auto.
  destruct (String.leb (id r) (id r')); auto.
  rewrite IH. apply perm_swap.
Qed.

Lemma sorted_by_id_Permutation (reactions : list (Reaction F)) :
  Permutation (sorted_by_id reactions) reactions.
Proof.
  induction reactions as [|r rest IH]; simpl; auto.
  rewrite insert_by_id_Permutation. now constructor.
Qed.

Lemma insert_by_id_ascending (r : Reaction F) sorted :
  ascending (map id sorted) -> ascending (map id (insert_by_id r sorted)).
Proof.
  unfold ascending. induction sorted as [|r' rest IH]; simpl; intros Hs.
  - repeat constructor.
  - destruct (String.leb (id r) (id r')) eqn:Hle.
    + simpl. constructor; auto. constructor; auto.
      inversion Hs as [|? ? _ Hall]; subst.
      eapply Forall_impl; [|exact Hall]. intros s. now apply string_leb_trans.
    + inversion Hs as [|? ? Hrest Hall]; subst. simpl. constructor; auto.
      assert (Hr : String.leb (id r') (id r) = true).
      { destruct (String.leb_total (id r) (id r')); congruence. }
      apply (Permutation_Forall (Permutation_map id
               (Permutation_sym (insert_by_id_Permutation r rest)))).
      simpl. constructor; auto.
Qed.

Lemma sorted_by_id_ascending (reactions : list (Reaction F)) :
  ascending (map id (sorted_by_id reactions)).
Proof.
  induction reactions as [|r rest IH]; simpl.
  - constructor.
  - now apply insert_by_id_ascending.
Qed.

End Sorting.

Section Order.
Context {F : Type} {number : Number F}.
Variable pfba : Model F -> option (Solution F).
Variable flux_variability_analysis : Model F -> list string -> F -> option (FVA F).

Lemma insert_by_id_filter (r : Reaction F) sorted key :
  filter (fun r' => String.eqb (id r') key) (insert_by_id r sorted)
  = filter (fun r' => String.eqb (id r') key) (r :: sorted).
Proof.
  induction sorted as [|r' rest IH]; [reflexivity|].
  cbn [insert_by_id]. destruct (String.leb (id r) (id r')) eqn:Hle; [reflexivity|].
  cbn [filter] in *. rewrite IH.
  destruct (String.eqb (id r) key) eqn:Hr; [|reflexivity].
  destruct (String.eqb (id r') key) eqn:Hr'; [|reflexivity].
  apply String.eqb_eq in Hr, Hr'. rewrite Hr, Hr', string_leb_refl in Hle.
  discriminate.
Qed.

Lemma sorted_by_id_filter (reactions : list (Reaction F)) key :
  filter (fun r => String.eqb (id r) key) (sorted_by_id reactions)
  = filter (fun r => String.eqb (id r) key) reactions.
Proof.
  induction reactions as [|r rest IH]; [reflexivity|].
  cbn [sorted_by_id fold_right]. rewrite insert_by_id_filter.
  cbn [filter]. fold (sorted_by_id rest). now rewrite IH.
Qed.

Lemma init_fields metabolite metabolite_reactions model solution fva st self st' :
  __init__ pfba flux_variability_analysis metabolite metabolite_reactions model
    solution fva st = Some (self, st') ->
  exists g,
    _generate pfba flux_variability_analysis metabolite
      (sorted_by_id metabolite_reactions) model solution fva = Some g
    /\ self = {| _model := model; _metabolite := metabolite;
                 _reactions := sorted_by_id metabolite_reactions;
                 self_producing_fluxes := List.length st;
                 self_consuming_fluxes := S (List.length st);
                 self_flux := _flux g |}
    /\ st' = st ++ [producing_fluxes g; consuming_fluxes g].
Proof.
  unfold __init__.
  destruct (_generate pfba flux_variability_analysis metabolite
              (sorted_by_id metabolite_reactions) model solution fva) as [g|];
    [|discriminate].
  unfold bind, new, ret. rewrite length_app. simpl List.length.
  rewrite Nat.add_1_r, <- app_assoc. simpl app.
  intros H. injection H as <- <-. exists g. auto.
Qed.

(** X1: the summary keeps exactly the reactions of the metabolite, in
    ascending order of their identifiers; reactions that share an identifier
    keep their relative order (the sort is stable). *)
Theorem X1_init_sorts_reactions metabolite metabolite_reactions model solution fva
    st self st' :
  __init__ pfba flux_variability_analysis metabolite metabolite_reactions model
    solution fva st = Some (self, st') ->
  Permutation (_reactions self) metabolite_reactions
  /\ ascending (map id (_reactions self))
  /\ (forall key,
        filter (fun r => String.eqb (id r) key) (_reactions self)
        = filter (fun r => String.eqb (id r) key) metabolite_reactions).
Proof.
  intros Hinit. destruct (init_fields _ _ _ _ _ _ _ _ Hinit) as (g & _ & -> & _).
  cbn [_reactions].
  split; [apply sorted_by_id_Permutation|].
  split; [apply sorted_by_id_ascending|].
  intros key; apply sorted_by_id_filter.
Qed.

Lemma ascending_app (l1 l2 : list string) :
  ascending l1 -> ascending l2 ->
  (forall a b, In a l1 -> In b l2 -> String.leb a b = true) ->
  ascending (l1 ++ l2).
Proof.
  unfold ascending. induction l1 as [|a l1 IH]; simpl; intros H1 H2 H12; auto.
  inversion H1 as [|? ? Hs Hall]; subst. constructor.
  - apply IH; auto.
  - apply Forall_app. split; auto.
    apply Forall_forall. intros b Hb. apply H12; auto.
Qed.

Lemma ascending_constant (key : string) (l : list string) :
  (forall a, In a l -> a = key) -> ascending l.
Proof.
  unfold ascending. induction l as [|a l IH]; intros Hall; constructor.
  - apply IH. intros b Hb. apply Hall. now right.
  - apply Forall_forall. intros b Hb.
    rewrite (Hall a (or_introl eq_refl)), (Hall b (or_intror Hb)).
    apply string_leb_refl.
Qed.

Lemma ascending_filter {A} (key : A -> string) (p : A -> bool) (l : list A) :
  ascending (map key l) -> ascending (map key (filter p l)).
Proof.
  unfold ascending. induction l as [|a l IH]; simpl; intros Hs; auto.
  inversion Hs as [|? ? Hrest Hall]; subst.
  destruct (p a); simpl; auto. constructor; auto.
  rewrite Forall_forall in *. intros k Hk. apply Hall.
  apply in_map_iff in Hk. destruct Hk as (b & <- & Hb).
  apply filter_In in Hb. apply in_map, Hb.
Qed.

(** The rows that the join makes of one row of the left frame. *)
Lemma join_cons (s : FluxRow F) rest (fva : FVA F) :
  join (s :: rest) fva
  = match filter (fun entry => String.eqb (fst entry) (fx_index s)) fva with
    | [] => [(s, None)]
    | partners => map (fun entry => (s, Some (snd entry))) partners
    end ++ join rest fva.
Proof. reflexivity. Qed.

Lemma join_block_index (s : FluxRow F) (fva : FVA F) joined :
  In joined
     (match filter (fun entry => String.eqb (fst entry) (fx_index s)) fva with
      | [] => [(s, None)]
      | partners => map (fun entry => (s, Some (snd entry))) partners
      end) ->
  fst joined = s.
Proof.
  destruct (filter _ fva) as [|e es].
  - intros [<-|[]]. reflexivity.
  - intros Hin. apply in_map_iff in Hin. destruct Hin as (x & <- & _). reflexivity.
Qed.

Lemma ranged_row_index tol (joined : FluxRow F * option (F * F)) :
  fx_index (ranged_row tol joined) = fx_index (fst joined).
Proof. destruct joined. reflexivity. Qed.

Lemma final_flux_ascending tol (frame : option (FVA F)) scaled :
  ascending (map fx_index scaled) ->
  ascending (map fx_index (final_flux tol frame scaled)).
Proof.
  unfold final_flux. destruct frame as [f|].
  - induction scaled as [|s rest IH]; intros Hs; [constructor|].
    rewrite join_cons, !map_app.
    inversion Hs as [|? ? Hrest Hall]; subst.
    apply ascending_app.
    + apply (ascending_constant (fx_index s)). intros a Ha.
      rewrite map_map in Ha. apply in_map_iff in Ha. destruct Ha as (j & <- & Hj).
      rewrite ranged_row_index. now rewrite (join_block_index _ _ _ Hj).
    + apply IH, Hrest.
    + intros a b Ha Hb.
      rewrite map_map in Ha. apply in_map_iff in Ha. destruct Ha as (j & <- & Hj).
      rewrite ranged_row_index, (join_block_index _ _ _ Hj).
      rewrite map_map in Hb. apply in_map_iff in Hb. destruct Hb as ([s' p] & <- & Hj').
      apply join_origin in Hj'. rewrite ranged_row_index. simpl fst.
      rewrite Forall_forall in Hall. apply Hall. apply in_map, Hj'.
  - rewrite map_map. intros Hs.
    erewrite map_ext; [exact Hs | reflexivity].
Qed.

Lemma scale_flux_index (table : list (FluxRow F)) :
  map fx_index (map scale_flux table) = map fx_index table.
Proof. rewrite map_map. reflexivity. Qed.

Lemma filter_key_at_most_one (fva : FVA F) key :
  NoDup (map fst fva) ->
  filter (fun entry => String.eqb (fst entry) key) fva = []
  \/ exists b, filter (fun entry => String.eqb (fst entry) key) fva = [(key, b)].
Proof.
  induction fva as [|[k b] rest IH]; simpl; intros Hnd; [now left|].
  inversion Hnd as [|? ? Hnotin Hrest]; subst.
  destruct (String.eqb k key) eqn:Hk.
  - apply String.eqb_eq in Hk. subst k. right. exists b. f_equal.
    destruct (filter (fun entry => String.eqb (fst entry) key) rest) as [|e es] eqn:Hf;
      [reflexivity|].
    exfalso. apply Hnotin.
    assert (Hin : In e (e :: es)) by now left.
    rewrite <- Hf in Hin. apply filter_In in Hin. destruct Hin as [Hin He].
    apply String.eqb_eq in He. rewrite <- He. now apply in_map.
  - apply IH, Hrest.
Qed.

Lemma join_index_unique (scaled : list (FluxRow F)) (fva : FVA F) :
  NoDup (map fst fva) ->
  map fst (join scaled fva) = scaled.
Proof.
  intros Hnd. induction scaled as [|s rest IH]; [reflexivity|].
  rewrite join_cons, map_app, IH.
  destruct (filter_key_at_most_one fva (fx_index s) Hnd) as [-> | [b ->]]; reflexivity.
Qed.

(** X2: without variability data, and with a variability frame whose index
    names no reaction twice, the frame [_flux] has exactly one row per
    reaction of the summary, in the order of the reactions, with the
    reaction's coefficient as factor. *)
Theorem X2_one_row_per_reaction metabolite reactions model solution fva frame g :
  _generate pfba flux_variability_analysis metabolite reactions model solution fva
    = Some g ->
  resolved_fva flux_variability_analysis model reactions fva frame ->
  match frame with Some f => NoDup (map fst f) | None => True end ->
  map fx_index (_flux g) = map id reactions
  /\ map fx_reaction (_flux g) = map id reactions
  /\ map fx_factor (_flux g)
     = map (fun r => get_coefficient r (met_id metabolite)) reactions.
Proof.
  intros Hg Hfva Hunique.
  destruct (generate_inv _ _ _ _ _ _ _ _ Hg)
    as (sol & frame' & table & _ & Hfva' & Htable & Hflux & _ & _).
  rewrite <- (resolved_fva_functional _ _ _ _ _ _ Hfva Hfva') in Hflux.
  rewrite Hflux. clear Hflux Hg Hfva Hfva' frame' g.
  assert (Hrows : map (fun row => (fx_index row, fx_reaction row, fx_factor row))
                      (final_flux (tolerance model) frame (map scale_flux table))
                  = map (fun row => (fx_index row, fx_reaction row, fx_factor row))
                        table).
  { unfold final_flux. destruct frame as [f|].
    - rewrite map_map.
      erewrite map_ext
        with (g := fun j => (fun row => (fx_index row, fx_reaction row, fx_factor row))
                              (fst j)).
      + rewrite <- (map_map fst (fun row => (fx_index row, fx_reaction row, fx_factor row))).
        rewrite (join_index_unique _ _ Hunique), map_map. reflexivity.
      + intros [s p]. reflexivity.
    - rewrite !map_map. reflexivity. }
  assert (Htable' : map (fun row => (fx_index row, fx_reaction row, fx_factor row)) table
                    = map (fun r => (id r, id r, get_coefficient r (met_id metabolite)))
                          reactions).
  { clear Hrows. revert table Htable.
    induction reactions as [|r rest IH]; simpl; intros table Htable.
    - injection Htable as <-. reflexivity.
    - destruct (solution_get sol (id r)); [|discriminate].
      destruct (basic_flux_table (met_id metabolite) sol rest) as [t|]; [|discriminate].
      injection Htable as <-. simpl. f_equal. auto. }
  rewrite Htable' in Hrows.
  split; [|split].
  - apply (f_equal (map (fun t => fst (fst t)))) in Hrows.
    now rewrite !map_map in Hrows.
  - apply (f_equal (map (fun t => snd (fst t)))) in Hrows.
    now rewrite !map_map in Hrows.
  - apply (f_equal (map snd)) in Hrows. now rewrite !map_map in Hrows.
Qed.

(** X3: in a constructed summary the rows of [_flux] and of both tables come
    in ascending order of the reaction identifier, also when the variability
    frame repeats rows. *)
Theorem X3_rows_in_ascending_order metabolite metabolite_reactions model solution fva
    st self st' :
  __init__ pfba flux_variability_analysis metabolite metabolite_reactions model
    solution fva st = Some (self, st') ->
  exists producing consuming,
    nth_error st' (self_producing_fluxes self) = Some producing
    /\ nth_error st' (self_consuming_fluxes self) = Some consuming
    /\ ascending (map fx_index (self_flux self))
    /\ ascending (map index (rows producing))
    /\ ascending (map index (rows consuming)).
Proof.
  intros Hinit.
  destruct (init_in_store _ _ _ _ _ _ _ _ _ _ Hinit) as [_ (g & Hg & Hst & Hp & Hc)].
  destruct (init_fields _ _ _ _ _ _ _ _ Hinit) as (g' & Hg' & Hself & _).
  assert (g' = g) by congruence. subst g'.
  destruct (generate_inv _ _ _ _ _ _ _ _ Hg)
    as (sol & frame & table & _ & _ & Htable & Hflux & Hprod & Hcons).
  assert (Hasc : ascending (map fx_index (_flux g))).
  { rewrite Hflux. apply final_flux_ascending.
    rewrite scale_flux_index, (basic_flux_table_index _ _ _ _ Htable).
    apply sorted_by_id_ascending. }
  exists (producing_fluxes g), (consuming_fluxes g).
  rewrite Hp, Hc, Hst.
  split; [rewrite nth_error_app2, Nat.sub_diag by lia; reflexivity|].
  split.
  { rewrite nth_error_app2 by lia.
    replace (S (List.length st) - List.length st)%nat with 1%nat by lia. reflexivity. }
  rewrite Hself. cbn [self_flux]. split; [exact Hasc|].
  rewrite Hprod, Hcons, !select_index.
  split; now apply ascending_filter.
Qed.

End Order.

(** * Failures and the empty summary *)

Section Failure.
Context {F : Type} {number : Number F}.
Variable pfba : Model F -> option (Solution F).
Variable flux_variability_analysis : Model F -> list string -> F -> option (FVA F).

Lemma basic_flux_table_missing metabolite_id (solution : Solution F)
    (reactions : list (Reaction F)) :
  basic_flux_table metabolite_id solution reactions = None <->
  exists r, In r reactions /\ solution_get solution (id r) = None.
Proof.
  induction reactions as [|r rest IH]; simpl.
  - split; [discriminate | intros (r & [] & _)].
  - destruct (solution_get solution (id r)) as [x|] eqn:Hx.
    + destruct (basic_flux_table metabolite_id solution rest) as [t|].
      * split; [discriminate|]. intros (r' & [<-|Hin] & Hr'); [congruence|].
        assert (Hnone : Some t = None) by (apply (proj2 IH); eauto).
        discriminate.
      * split; auto. intros _. destruct (proj1 IH eq_refl) as (r' & Hin & Hr'). eauto.
    + split; auto. intros _. exists r. auto.
Qed.

(** X4: construction fails when no solution is given and the solver fails,
    when a fraction is given and the variability analysis fails, and when
    the solution has no flux for one of the reactions (the [KeyError] of
    [solution[r.id]]). *)
Theorem X4_generate_failures metabolite reactions model solution fva :
  (solution = None /\ pfba model = None)
  \/ (exists fraction,
        fva = FvaFraction fraction
        /\ flux_variability_analysis model (map id reactions) fraction = None)
  \/ (exists sol r,
        resolved_solution pfba model solution sol
        /\ In r reactions /\ solution_get sol (id r) = None) ->
  _generate pfba flux_variability_analysis metabolite reactions model solution fva
    = None.
Proof.
  unfold _generate, resolved_solution.
  intros [[-> ->] | [(fraction & -> & Ha) | (sol & r & Hsol & Hin & Hr)]].
  - reflexivity.
  - rewrite Ha. simpl.
    destruct (match solution with Some s => Some s | None => pfba model end);
      reflexivity.
  - assert (Ht : basic_flux_table (met_id metabolite) sol reactions = None)
      by (apply basic_flux_table_missing; eauto).
    assert (Hs : match solution with Some s => Some s | None => pfba model end
                 = Some sol) by (destruct Hsol as [-> | [-> ->]]; reflexivity).
    rewrite Hs, Ht.
    destruct fva as [|fraction|f]; simpl; auto.
    destruct (flux_variability_analysis model (map id reactions) fraction);
      reflexivity.
Qed.

(** X5: a metabolite without reactions gives a summary with empty tables that
    keep their columns; no flux is looked up and no percentage is computed,
    so neither an empty solution nor the zero total is in the way. *)
Theorem X5_no_reactions metabolite model solution fva sol frame :
  resolved_solution pfba model solution sol ->
  resolved_fva flux_variability_analysis model [] fva frame ->
  exists g,
    _generate pfba flux_variability_analysis metabolite [] model solution fva = Some g
    /\ _flux g = []
    /\ rows (producing_fluxes g) = [] /\ rows (consuming_fluxes g) = []
    /\ columns (producing_fluxes g) = columns (consuming_fluxes g)
    /\ columns (producing_fluxes g)
       = (if is_ranged frame
          then ["flux"; "minimum"; "maximum"; "reaction"; "percent"]
          else ["flux"; "reaction"; "percent"]).
Proof.
  intros Hsol Hfva.
  destruct (generate_total pfba flux_variability_analysis metabolite [] model
              solution fva sol frame Hsol Hfva) as [g Hg].
  { intros r []. }
  exists g. split; [exact Hg|].
  destruct (generate_inv _ _ _ _ _ _ _ _ Hg)
    as (sol' & frame' & table & _ & Hfva' & Htable & Hflux & Hp & Hc).
  rewrite <- (resolved_fva_functional _ _ _ _ _ _ Hfva Hfva') in *.
  simpl in Htable. injection Htable as <-.
  assert (Hempty : _flux g = []).
  { rewrite Hflux. destruct frame; reflexivity. }
  rewrite Hp, Hc, Hempty. split; [reflexivity|].
  destruct frame; simpl; auto.
Qed.

End Failure.

(** * Further properties of the tables, IEEE 754 *)

Lemma filter_exclusive_length {A} (p q : A -> bool) (l : list A) :
  (forall a, In a l -> p a && q a = false) ->
  (List.length (filter p l) + List.length (filter q l) <= List.length l)%nat.
Proof.
  induction l as [|a l IH]; simpl; intros Hex; [lia|].
  assert (IH' : (List.length (filter p l) + List.length (filter q l)
                 <= List.length l)%nat) by auto.
  pose proof (Hex a (or_introl eq_refl)) as Ha.
  destruct (p a), (q a); simpl in *; try discriminate; lia.
Qed.

(** X6: no row satisfies both masks, whatever its flux and factor are (NaN
    and zero included): the two tables never share a row, and together they
    have at most as many rows as [_flux]. *)
Theorem X6_never_in_both_tables pfba analysis metabolite reactions model solution fva g :
  _generate (number := binary64) pfba analysis metabolite reactions model solution fva
    = Some g ->
  (forall row, In row (_flux g) -> is_produced row && is_consumed row = false)
  /\ map index (rows (producing_fluxes g)) = map fx_index (filter is_produced (_flux g))
  /\ map index (rows (consuming_fluxes g)) = map fx_index (filter is_consumed (_flux g))
  /\ (List.length (rows (producing_fluxes g)) + List.length (rows (consuming_fluxes g))
      <= List.length (_flux g))%nat.
Proof.
  intros Hg.
  destruct (generate_inv _ _ _ _ _ _ _ _ Hg)
    as (sol & frame & table & _ & _ & _ & _ & Hp & Hc).
  split; [intros row _; apply masks_exclusive|].
  rewrite Hp, Hc, !select_index. split; [reflexivity|]. split; [reflexivity|].
  unfold select. cbn [rows]. rewrite !length_map.
  apply filter_exclusive_length. intros row _. apply masks_exclusive.
Qed.

(** X7: the producing table holds no negative flux and the consuming table no
    positive one, and neither holds NaN; a row with zero flux is in the
    producing table only with a positive factor and in the consuming table
    only with a negative one. *)
Theorem X7_signs_of_the_tables pfba analysis metabolite reactions model solution fva g :
  _generate (number := binary64) pfba analysis metabolite reactions model solution fva
    = Some g ->
  (forall row, In row (rows (producing_fluxes g)) ->
     Binary64.is_nan (flux row) = false /\ fleb fzero (flux row) = true
     /\ (Binary64.is_zero (flux row) = true ->
         exists source, In source (_flux g) /\ fx_index source = index row
                        /\ fgtb (fx_factor source) fzero = true))
  /\ (forall row, In row (rows (consuming_fluxes g)) ->
        Binary64.is_nan (flux row) = false /\ fleb (flux row) fzero = true
        /\ (Binary64.is_zero (flux row) = true ->
            exists source, In source (_flux g) /\ fx_index source = index row
                           /\ fltb (fx_factor source) fzero = true)).
Proof.
  intros Hg.
  destruct (generate_inv _ _ _ _ _ _ _ _ Hg)
    as (sol & frame & table & _ & _ & _ & _ & Hp & Hc).
  rewrite Hp, Hc. split; intros row Hin;
    destruct (select_row_source _ _ _ _ Hin) as (s & Hs & Hmask & Hi & _ & Hf & _);
    rewrite Hf.
  - destruct (produced_sign s Hmask) as (H1 & H2 & H3).
    repeat split; auto. intros Hz. exists s. auto.
  - destruct (consumed_sign s Hmask) as (H1 & H2 & H3).
    repeat split; auto. intros Hz. exists s. auto.
Qed.

(** X8: a scaled flux that is NaN is treated differently by the two branches.
    With variability data [where(abs >= tolerance, 0)] replaces it by zero
    and the row is classified by its factor; without, the test
    [abs < tolerance] leaves it in place and the row is in neither table. *)
Theorem X8_nan_flux pfba analysis metabolite reactions model solution fva g :
  _generate (number := binary64) pfba analysis metabolite reactions model solution fva
    = Some g ->
  exists sol frame,
    resolved_solution pfba model solution sol
    /\ resolved_fva analysis model reactions fva frame
    /\ forall row, In row (_flux g) ->
       exists r x,
         In r reactions /\ solution_get sol (id r) = Some x
         /\ fx_index row = id r
         /\ (Binary64.is_nan (fmul x (get_coefficient r (met_id metabolite))) = true ->
             match frame with
             | Some _ =>
                 fx_flux row = Binary64.pzero
                 /\ is_produced row = fgtb (fx_factor row) fzero
                 /\ is_consumed row = fltb (fx_factor row) fzero
             | None =>
                 fx_flux row = Binary64.nan
                 /\ is_produced row = false /\ is_consumed row = false
             end).
Proof.
  intros Hg.
  destruct (generate_flux_origin _ _ _ _ _ _ _ _ Hg)
    as (sol & frame & Hsol & Hfva & _ & _ & Horigin).
  exists sol, frame. split; [exact Hsol|]. split; [exact Hfva|].
  intros row Hin. destruct (Horigin row Hin) as (r & x & Hr & Hx & Hrow).
  exists r, x. split; [exact Hr|]. split; [exact Hx|].
  remember (fmul x (get_coefficient r (met_id metabolite))) as v eqn:Hv.
  destruct frame as [f|].
  - destruct Hrow as (partner & _ & Hrow). rewrite ranged_row_fields in Hrow.
    cbn [scaled_row fx_flux fx_index fx_factor] in Hrow. rewrite <- Hv in Hrow.
    split; [rewrite Hrow; reflexivity|]. intros Hnan.
    assert (Hflux : fx_flux row = Binary64.pzero).
    { rewrite Hrow. cbn [fx_flux]. destruct v; try discriminate.
      unfold where_abs_ge, fgeb. simpl. destruct (tolerance model); reflexivity. }
    split; [exact Hflux|]. now apply classification_of_zero.
  - rewrite plain_row_fields in Hrow.
    cbn [scaled_row fx_flux fx_index fx_factor] in Hrow. rewrite <- Hv in Hrow.
    split; [rewrite Hrow; reflexivity|]. intros Hnan.
    assert (Hflux : fx_flux row = Binary64.nan).
    { rewrite Hrow. cbn [fx_flux]. destruct v; try discriminate. reflexivity. }
    split; [exact Hflux|]. unfold is_produced, is_consumed, fgtb. rewrite Hflux.
    split; reflexivity.
Qed.

Lemma SFabs_add_pzero_below (tol v : Binary64.float) :
  SFltb (SFabs v) tol = false ->
  SFltb (SFabs (SFadd Binary64.prec Binary64.emax v Binary64.pzero)) tol = false.
Proof.
  destruct v as [[]|[]| |[] m e]; auto.
Qed.

Lemma stored_flux_gap (tol v : Binary64.float) (snapped : Binary64.float) :
  (snapped = fzero \/ (snapped = v /\ fltb (fabs v) tol = false)) ->
  let stored := fadd snapped fzero in
  (fltb (fabs stored) tol = true -> stored = Binary64.pzero)
  /\ fadd (if fltb (fabs stored) tol then fzero else stored) fzero = stored.
Proof.
  simpl. intros [-> | [-> Hge]].
  - change (SFadd Binary64.prec Binary64.emax Binary64.pzero Binary64.pzero)
      with Binary64.pzero.
    split; [reflexivity|].
    destruct (SFltb (SFabs Binary64.pzero) tol); reflexivity.
  - pose proof (SFabs_add_pzero_below _ _ Hge) as Hstored.
    split; [congruence|]. rewrite Hstored.
    destruct v as [[]|[]| |[] m e]; reflexivity.
Qed.

(** X9: no stored scaled flux is a non-zero value below the tolerance: one
    whose absolute value is below the tolerance is +0.  So the zeroing step
    of the branch without variability data, followed by the addition of
    zero, changes no stored flux when it is applied again. *)
Theorem X9_stored_flux_is_zero_or_reaches_tolerance pfba analysis metabolite reactions
    model solution fva g :
  _generate (number := binary64) pfba analysis metabolite reactions model solution fva
    = Some g ->
  forall row, In row (_flux g) ->
    (fltb (fabs (fx_flux row)) (tolerance model) = true ->
       fx_flux row = Binary64.pzero)
    /\ fx_flux (add_zero (zero_below (tolerance model) row)) = fx_flux row.
Proof.
  intros Hg row Hin.
  destruct (generate_flux_origin _ _ _ _ _ _ _ _ Hg)
    as (sol & frame & _ & _ & _ & _ & Horigin).
  destruct (Horigin row Hin) as (r & x & _ & _ & Hrow).
  set (v := fmul x (get_coefficient r (met_id metabolite))) in *.
  assert (Hstored : exists snapped,
            fx_flux row = fadd snapped fzero
            /\ (snapped = fzero
                \/ (snapped = v /\ fltb (fabs v) (tolerance model) = false))).
  { destruct frame as [f|].
    - destruct Hrow as (partner & _ & Hrow). rewrite ranged_row_fields in Hrow.
      cbn [scaled_row fx_flux] in Hrow. fold v in Hrow.
      exists (where_abs_ge (tolerance model) v). split; [rewrite Hrow; reflexivity|].
      unfold where_abs_ge, fgeb.
      destruct (fleb (tolerance model) (fabs v)) eqn:Hle; [right | now left].
      split; [reflexivity|]. exact (SFleb_SFltb_false _ _ Hle).
    - rewrite plain_row_fields in Hrow. cbn [scaled_row fx_flux] in Hrow.
      fold v in Hrow.
      exists (if fltb (fabs v) (tolerance model) then fzero else v).
      split; [rewrite Hrow; reflexivity|].
      destruct (fltb (fabs v) (tolerance model)); auto. }
  destruct Hstored as (snapped & Hflux & Hsnapped).
  cbn [add_zero zero_below fx_flux]. rewrite Hflux.
  exact (stored_flux_gap (tolerance model) v snapped Hsnapped).
Qed.

(** * The order of the stored bounds, IEEE 754 *)

Section OrderedBounds.
Import Binary64.
Local Open Scope Z_scope.

Lemma where_finite tol x :
  is_finite x = true -> is_finite (where_abs_ge (number := binary64) tol x) = true.
Proof. intros Hx. unfold where_abs_ge. destruct (fgeb _ _); auto. Qed.

Lemma finite_number x : is_finite x = true -> is_nan x = false.
Proof. destruct x; auto; discriminate. Qed.

(** The products of two ordered finite floats with a finite factor, with [0]
    added, are in the same order for a factor that is not negative and in the
    reverse order for a negative one. *)
Lemma scaled_pair_ordered (lo hi f : float) :
  valid lo = true -> valid hi = true -> valid f = true ->
  is_finite lo = true -> is_finite hi = true -> is_finite f = true ->
  srank lo <= srank hi ->
  if SFltb f pzero
  then SFleb (SFadd 53 1024 (SFmul 53 1024 hi f) pzero)
             (SFadd 53 1024 (SFmul 53 1024 lo f) pzero) = true
  else SFleb (SFadd 53 1024 (SFmul 53 1024 lo f) pzero)
             (SFadd 53 1024 (SFmul 53 1024 hi f) pzero) = true.
Proof.
  intros Vlo Vhi Vf Flo Fhi Ff Hle.
  pose proof (finite_number lo Flo) as Nlo. pose proof (finite_number hi Fhi) as Nhi.
  destruct f as [sf|sf| |sf mf ef]; try discriminate.
  - assert (Hz : forall x, is_finite x = true ->
              SFadd 53 1024 (SFmul 53 1024 x (S754_zero sf)) pzero = pzero).
    { intros [sx|sx| |sx mx ex]; try discriminate; intros _;
        destruct sx, sf; reflexivity. }
    rewrite !Hz by assumption. destruct (SFltb _ _); reflexivity.
  - pose proof (mul_srank_monotone lo hi sf mf ef Vlo Vhi Vf Nlo Nhi Hle) as Hm.
    assert (Hsign : SFltb (S754_finite sf mf ef) pzero = sf) by (destruct sf; reflexivity).
    rewrite Hsign.
    destruct sf; rewrite SFleb_srank, ?add_pzero_srank;
      try (apply Z.leb_le; exact Hm);
      try (apply add_pzero_valid, mul_valid; assumption);
      rewrite add_pzero_number; apply mul_finite_number; assumption.
Qed.

End OrderedBounds.

(** X10: when the tolerance, the coefficients and the bounds of the
    variability frame are finite floats and every row of the frame has
    [minimum <= maximum], every stored row has [minimum <= maximum] too,
    whatever the sign of its factor and whether or not the frame has a row
    for its reaction. *)
Theorem X10_stored_bounds_are_ordered pfba analysis metabolite reactions model solution
    fva frame g :
  _generate (number := binary64) pfba analysis metabolite reactions model solution fva
    = Some g ->
  resolved_fva analysis model reactions fva (Some frame) ->
  Binary64.valid (tolerance model) = true ->
  (forall r, In r reactions ->
     Binary64.valid (get_coefficient r (met_id metabolite)) = true
     /\ Binary64.is_finite (get_coefficient r (met_id metabolite)) = true) ->
  (forall key lo hi, In (key, (lo, hi)) frame ->
     Binary64.valid lo = true /\ Binary64.valid hi = true
     /\ Binary64.is_finite lo = true /\ Binary64.is_finite hi = true
     /\ fleb lo hi = true) ->
  forall row, In row (_flux g) ->
  exists minimum maximum,
    fx_bounds row = Some (minimum, maximum) /\ fleb minimum maximum = true.
Proof.
  intros Hg Hfva Vtol Hcoef Hordered row Hin.
  destruct (generate_flux_origin _ _ _ _ _ _ _ _ Hg)
    as (sol & frame' & _ & Hfva' & _ & _ & Horigin).
  rewrite <- (resolved_fva_functional _ _ _ _ _ _ Hfva Hfva') in Horigin.
  destruct (Horigin row Hin) as (r & x & Hr & _ & partner & Hpartner & Hrow).
  rewrite ranged_row_fields in Hrow. cbn [scaled_row fx_factor] in Hrow.
  unfold oriented_bounds in Hrow.
  destruct (Hcoef r Hr) as (Vf & Ff).
  set (f := get_coefficient r (met_id metabolite)) in *.
  set (lo' := where_abs_ge_cell (tolerance model) (option_map fst partner)) in *.
  set (hi' := where_abs_ge_cell (tolerance model) (option_map snd partner)) in *.
  assert (Hcells : Binary64.valid lo' = true /\ Binary64.valid hi' = true
                   /\ Binary64.is_finite lo' = true /\ Binary64.is_finite hi' = true
                   /\ (Binary64.srank lo' <= Binary64.srank hi')%Z).
  { unfold lo', hi'. destruct partner as [[lo hi]|]; cbn [option_map where_abs_ge_cell fst snd].
    - destruct (Hordered _ _ _ Hpartner) as (Vlo & Vhi & Flo & Fhi & Hle).
      cbn [fleb binary64] in Hle.
      destruct (SFleb_numbers _ _ Hle) as (Nlo & Nhi).
      rewrite SFleb_srank in Hle by assumption. apply Z.leb_le in Hle.
      split; [now apply where_valid|]. split; [now apply where_valid|].
      split; [now apply where_finite|]. split; [now apply where_finite|].
      now apply where_monotone.
    - repeat split; try reflexivity; cbn; lia. }
  destruct Hcells as (Vlo & Vhi & Flo & Fhi & Hle).
  pose proof (scaled_pair_ordered lo' hi' f Vlo Vhi Vf Flo Fhi Ff Hle) as Hpair.
  change (fltb f fzero) with (SFltb f Binary64.pzero) in Hrow.
  destruct (SFltb f Binary64.pzero);
    eexists _, _; (split; [rewrite Hrow; reflexivity|]); exact Hpair.
Qed.

(** * Further properties of the rendering *)

Section Displayed.
Context {F : Type} {number : Number F}.

Lemma add_definition_keeps_column (name : string) (old : DataFrame F) :
  String.eqb name "definition" = false ->
  existsb (String.eqb name) (add_column "definition" old) = has_column name old.
Proof.
  intros Hname. unfold add_column, has_column.
  destruct (existsb (String.eqb "definition") (columns old)); [reflexivity|].
  rewrite existsb_app. simpl. rewrite Hname, !orb_false_r. reflexivity.
Qed.

Lemma result_is_ranged_columns (old : DataFrame F) :
  result_is_ranged old = has_column "minimum" old && has_column "maximum" old.
Proof.
  unfold result_is_ranged. now rewrite !add_definition_keeps_column.
Qed.

Lemma with_definition_rows reactions names (table defined : list (Row F)) :
  with_definition reactions names table = Some defined ->
  Forall2 (fun row out =>
             exists r,
               reactions_by_id reactions (reaction row) = Some r
               /\ out = {| index := index row; flux := flux row; bounds := bounds row;
                           reaction := reaction row; percent := percent row;
                           definition := Some (build_reaction_string r names);
                           range := range row |})
          table defined.
Proof.
  revert defined. induction table as [|row table IH]; simpl; intros defined Hdef.
  - injection Hdef as <-. constructor.
  - destruct (reactions_by_id reactions (reaction row)) as [r|] eqn:Hr; [|discriminate].
    destruct (with_definition reactions names table) as [rest|]; [|discriminate].
    injection Hdef as <-. constructor; eauto.
Qed.

Lemma with_definition_unknown reactions names (table : list (Row F)) :
  with_definition reactions names table = None <->
  exists row, In row table /\ reactions_by_id reactions (reaction row) = None.
Proof.
  induction table as [|row table IH]; simpl.
  - split; [discriminate | intros (row & [] & _)].
  - destruct (reactions_by_id reactions (reaction row)) as [r|] eqn:Hr.
    + destruct (with_definition reactions names table) as [rest|].
      * split; [discriminate|]. intros (row' & [<-|Hin] & Hrow'); [congruence|].
        assert (Hnone : Some rest = None) by (apply (proj2 IH); eauto).
        discriminate.
      * split; auto. intros _.
        destruct (proj1 IH eq_refl) as (row' & Hin & Hrow'). eauto.
    + split; auto. intros _. exists row. auto.
Qed.

(** X11: the frame that [_display_flux] returns has the columns percent,
    flux, reaction, definition, with range in third place when the given
    frame has minimum and maximum.  Its rows are the rows of the given frame
    that pass the mask, in their order: each keeps its index, flux, percent
    and reaction, gets the reaction string of the reaction with its
    identifier as definition and, when there are bounds, the pair of minimum
    and maximum as range. *)
Theorem X11_displayed_frame (self : MetaboliteSummary F) frame names threshold st d st' :
  _display_flux self frame names threshold st = Some (d, st') ->
  exists old result,
    nth_error st frame = Some old
    /\ nth_error st' d = Some result
    /\ columns result
       = (if has_column "minimum" old && has_column "maximum" old
          then ["percent"; "flux"; "range"; "reaction"; "definition"]
          else ["percent"; "flux"; "reaction"; "definition"])
    /\ Forall2
         (fun row out =>
            index out = index row /\ flux out = flux row
            /\ percent out = percent row /\ reaction out = reaction row
            /\ bounds out = None
            /\ range out
               = (if has_column "minimum" old && has_column "maximum" old
                  then bounds row else None)
            /\ exists r,
                 reactions_by_id (_reactions self) (reaction row) = Some r
                 /\ definition out = Some (build_reaction_string r names))
         (filter (row_mask old threshold) (rows old)) (rows result).
Proof.
  rewrite display_flux_run.
  destruct (nth_error st frame) as [old|]; [|discriminate].
  pose proof (display_frames_rows (_reactions self) old names threshold) as Hrows.
  unfold display_frames in *. cbn [rows] in *.
  destruct (with_definition (_reactions self) names
              (filter (row_mask old threshold) (rows old))) as [defined|] eqn:Hdef;
    [|discriminate].
  change (has_column "minimum"
            {| columns := add_column "definition"
                            {| columns := columns old;
                               rows := filter (row_mask old threshold) (rows old) |};
               rows := defined |}
          && has_column "maximum"
               {| columns := add_column "definition"
                               {| columns := columns old;
                                  rows := filter (row_mask old threshold) (rows old) |};
                  rows := defined |})
    with (result_is_ranged old) in *.
  apply with_definition_rows in Hdef.
  destruct (result_is_ranged old) eqn:Hranged; intros Hrun; injection Hrun as <- <-;
    eexists old, _; (split; [reflexivity|]); (split; [apply nth_error_result|]);
    rewrite <- result_is_ranged_columns, Hranged;
    (split; [reflexivity|]); cbn [rows]; rewrite ?map_map;
    clear - Hdef; induction Hdef as [|row out table defined (r & Hr & ->) _ IH];
    simpl; constructor; auto; simpl; repeat split; eauto.
Qed.

(** X12: on a frame of the store that has the columns flux, reaction and
    percent, [_display_flux] fails exactly when a row that passes the mask
    names a reaction that the summary does not have (the [KeyError] of
    [reactions[rxn_id]]); a row that the threshold filters out is never
    looked up. *)
Theorem X12_display_flux_fails_on_unknown_reaction (self : MetaboliteSummary F) frame
    names threshold st old :
  nth_error st frame = Some old ->
  has_column "flux" old = true ->
  has_column "reaction" old = true ->
  has_column "percent" old = true ->
  (_display_flux self frame names threshold st = None <->
   exists row,
     In row (rows old) /\ row_mask old threshold row = true
     /\ reactions_by_id (_reactions self) (reaction row) = None).
Proof.
  intros Hold _ _ _. rewrite display_flux_run, Hold.
  pose proof (display_frames_rows (_reactions self) old names threshold) as Hrows.
  destruct (display_frames (_reactions self) old names threshold)
    as [[[located copy] result]|].
  - destruct Hrows as (defined & Hdef & _). split; [discriminate|].
    intros (row & Hin & Hmask & Hunknown).
    assert (Hnone : with_definition (_reactions self) names
                      (filter (row_mask old threshold) (rows old)) = None).
    { apply with_definition_unknown. exists row. split; auto.
      apply filter_In. auto. }
    congruence.
  - split; auto. intros _.
    apply with_definition_unknown in Hrows. destruct Hrows as (row & Hin & Hunknown).
    apply filter_In in Hin. exists row. tauto.
Qed.

End Displayed.

(** ** Headers *)

Lemma is_lower_of_nat n :
  (n < 256)%nat -> is_lower (ascii_of_nat n) = ((97 <=? n) && (n <=? 122))%nat.
Proof. intros Hn. unfold is_lower. now rewrite nat_ascii_embedding. Qed.

Lemma is_upper_of_nat n :
  (n < 256)%nat -> is_upper (ascii_of_nat n) = ((65 <=? n) && (n <=? 90))%nat.
Proof. intros Hn. unfold is_upper. now rewrite nat_ascii_embedding. Qed.

Lemma title_from_cons previous c rest :
  title_from previous (String c rest)
  = String (if is_lower c
            then (if previous then c else ascii_of_nat (nat_of_ascii c - 32))
            else if is_upper c
            then (if previous then ascii_of_nat (nat_of_ascii c + 32) else c)
            else c)
           (title_from (is_lower c || is_upper c) rest).
Proof. reflexivity. Qed.

Lemma title_char (previous : bool) (c : ascii) :
  exists c',
    (forall rest,
       title_from previous (String c rest)
       = String c' (title_from (is_lower c || is_upper c) rest))
    /\ is_lower c' || is_upper c' = is_lower c || is_upper c
    /\ (forall rest,
          title_from previous (String c' rest)
          = String c' (title_from (is_lower c' || is_upper c') rest)).
Proof.
  eexists. split; [intros rest; apply title_from_cons|].
  assert (Hcode : (nat_of_ascii c < 256)%nat) by apply nat_ascii_bounded.
  destruct (is_lower c) eqn:Hl; [|destruct (is_upper c) eqn:Hu].
  - destruct previous.
    + rewrite Hl. split; [reflexivity|]. intros rest.
      rewrite title_from_cons, Hl. reflexivity.
    + unfold is_lower in Hl. apply andb_true_iff in Hl. destruct Hl as [H1 H2].
      apply Nat.leb_le in H1, H2.
      assert (Hlow : is_lower (ascii_of_nat (nat_of_ascii c - 32)) = false).
      { rewrite is_lower_of_nat by lia. apply andb_false_iff. left.
        apply Nat.leb_gt. lia. }
      assert (Hup : is_upper (ascii_of_nat (nat_of_ascii c - 32)) = true).
      { rewrite is_upper_of_nat by lia. apply andb_true_iff.
        split; apply Nat.leb_le; lia. }
      rewrite Hlow, Hup. split; [reflexivity|]. intros rest.
      rewrite title_from_cons, Hlow, Hup. reflexivity.
  - destruct previous.
    + unfold is_upper in Hu. apply andb_true_iff in Hu. destruct Hu as [H1 H2].
      apply Nat.leb_le in H1, H2.
      assert (Hlow : is_lower (ascii_of_nat (nat_of_ascii c + 32)) = true).
      { rewrite is_lower_of_nat by lia. apply andb_true_iff.
        split; apply Nat.leb_le; lia. }
      rewrite Hlow. split; [reflexivity|]. intros rest.
      rewrite title_from_cons, Hlow. reflexivity.
    + rewrite Hl, Hu. split; [reflexivity|]. intros rest.
      rewrite title_from_cons, Hl, Hu. reflexivity.
  - rewrite Hl, Hu. split; [reflexivity|]. intros rest.
    rewrite title_from_cons, Hl, Hu. reflexivity.
Qed.

Lemma title_from_idempotent (s : string) (previous : bool) :
  title_from previous (title_from previous s) = title_from previous s.
Proof.
  revert previous. induction s as [|c s IH]; intros previous; [reflexivity|].
  destruct (title_char previous c) as (c' & H1 & H2 & H3).
  rewrite H1, H3, H2, IH. reflexivity.
Qed.

Lemma title_idempotent (s : string) : title (title s) = title s.
Proof. apply title_from_idempotent. Qed.

Section Formatting.
Context {F : Type} {number : Number F}.
Variable frame_to_string : DataFrame F -> string -> Z -> string.
Variable frame_to_html : DataFrame F -> string -> string.
Variable shorten : string -> Z -> string.

Lemma titled_idempotent (frame : DataFrame F) : titled (titled frame) = titled frame.
Proof.
  unfold titled. cbn [columns rows]. f_equal.
  rewrite map_map. apply map_ext. intros s. apply title_idempotent.
Qed.

Lemma update_unchanged (st : Store F) r frame :
  nth_error st r = Some frame -> update st r frame = st.
Proof.
  revert r. induction st as [|a st IH]; intros [|r]; simpl; try discriminate.
  - intros H. now injection H as ->.
  - intros H. now rewrite IH.
Qed.

(** X13: [_string_table] and [_html_table] assign to the frame they are
    given: after the call its headers are title-cased in the store, its rows
    and every other frame are what they were, and the text is that of the
    frame with the new headers.  A second call on the same frame gives the
    same text and changes nothing more. *)
Theorem X13_table_formatters_retitle_their_frame frame float_format column_width
    (st : Store F) old :
  nth_error st frame = Some old ->
  (exists st',
     _string_table frame_to_string frame float_format column_width st
     = Some (frame_to_string (titled old) float_format column_width, st')
     /\ List.length st' = List.length st
     /\ nth_error st' frame = Some (titled old)
     /\ rows (titled old) = rows old
     /\ columns (titled old) = map title (columns old)
     /\ (forall r, r <> frame -> nth_error st' r = nth_error st r)
     /\ _string_table frame_to_string frame float_format column_width st'
        = Some (frame_to_string (titled old) float_format column_width, st'))
  /\ (exists st',
        _html_table frame_to_html frame float_format st
        = Some (frame_to_html (titled old) float_format, st')
        /\ List.length st' = List.length st
        /\ nth_error st' frame = Some (titled old)
        /\ (forall r, r <> frame -> nth_error st' r = nth_error st r)
        /\ _html_table frame_to_html frame float_format st'
           = Some (frame_to_html (titled old) float_format, st')).
Proof.
  intros Hold.
  pose proof (update_same st frame (titled old) old Hold) as Hnew.
  split; exists (update st frame (titled old)).
  - rewrite !string_table_run, Hold, Hnew, titled_idempotent.
    rewrite (update_unchanged _ _ _ Hnew).
    repeat split; auto using update_length.
    intros r Hr. now apply update_old.
  - rewrite !html_table_run, Hold, Hnew, titled_idempotent.
    rewrite (update_unchanged _ _ _ Hnew).
    repeat split; auto using update_length.
    intros r Hr. now apply update_old.
Qed.

(** What the text of a rendering is made of. *)
Lemma to_string_on_extension (self : MetaboliteSummary F) names threshold float_format
    column_width st ext :
  summary_in_store self st ->
  option_map fst
    (to_string frame_to_string shorten self names threshold float_format column_width
       (st ++ ext))
  = option_map fst
      (to_string frame_to_string shorten self names threshold float_format
         column_width st).
Proof.
  intros (p & c & Hp & Hc & _). unfold to_string.
  rewrite !display_then_string_table.
  rewrite (nth_error_old _ ext _ _ Hp), Hp.
  destruct (display_frames (_reactions self) p names
              (normalize_cutoff (_model self) threshold)) as [[[lp cp] rp]|];
    [|reflexivity].
  rewrite !display_then_string_table.
  rewrite (rendered_store_old _ lp cp rp _ _ (nth_error_old _ ext _ _ Hc)).
  rewrite (rendered_store_old _ lp cp rp _ _ Hc).
  destruct (display_frames (_reactions self) c names
              (normalize_cutoff (_model self) threshold)) as [[[lc cc] rc]|];
    reflexivity.
Qed.

Lemma to_html_on_extension (self : MetaboliteSummary F) names threshold float_format
    st ext :
  summary_in_store self st ->
  option_map fst (to_html frame_to_html self names threshold float_format (st ++ ext))
  = option_map fst (to_html frame_to_html self names threshold float_format st).
Proof.
  intros (p & c & Hp & Hc & _). unfold to_html.
  rewrite !display_then_html_table.
  rewrite (nth_error_old _ ext _ _ Hp), Hp.
  destruct (display_frames (_reactions self) p names threshold) as [[[lp cp] rp]|];
    [|reflexivity].
  rewrite !display_then_html_table.
  rewrite (rendered_store_old _ lp cp rp _ _ (nth_error_old _ ext _ _ Hc)).
  rewrite (rendered_store_old _ lp cp rp _ _ Hc).
  destruct (display_frames (_reactions self) c names threshold) as [[[lc cc] rc]|];
    reflexivity.
Qed.

(** X14: rendering is repeatable.  After any rendering of a summary (text or
    markup, with any parameters), a text rendering gives the text it would
    have given before, and so does a markup rendering; in particular
    rendering twice with the same parameters gives the same string twice. *)
Theorem X14_rendering_is_repeatable (self : MetaboliteSummary F) (st : Store F) :
  summary_in_store self st ->
  forall names threshold float_format column_width,
  forall names' threshold' float_format' column_width' out st',
    (to_string frame_to_string shorten self names' threshold' float_format'
       column_width' st = Some (out, st')
     \/ to_html frame_to_html self names' threshold' float_format' st = Some (out, st')) ->
    option_map fst
      (to_string frame_to_string shorten self names threshold float_format
         column_width st')
    = option_map fst
        (to_string frame_to_string shorten self names threshold float_format
           column_width st)
    /\ option_map fst (to_html frame_to_html self names threshold float_format st')
       = option_map fst (to_html frame_to_html self names threshold float_format st).
Proof.
  intros Hin names threshold float_format column_width
    names' threshold' float_format' column_width' out st' Hrun.
  assert (Hext : exists ext, st' = st ++ ext).
  { destruct Hrun as [Hrun|Hrun].
    - exact (to_string_extends _ _ _ _ _ _ _ _ _ _ Hrun).
    - exact (to_html_extends _ _ _ _ _ _ _ _ Hrun). }
  destruct Hext as [ext ->].
  split; [now apply to_string_on_extension | now apply to_html_on_extension].
Qed.

Variable pfba : Model F -> option (Solution F).
Variable flux_variability_analysis : Model F -> list string -> F -> option (FVA F).

(** X15: the tables of a constructed summary can be displayed: on the store
    that [__init__] leaves, and on any store that later renderings leave,
    [_display_flux] succeeds on the producing and on the consuming table for
    every choice of names and threshold; the reaction of every row is found
    among the summary's reactions. *)
Theorem X15_constructed_summary_displays metabolite metabolite_reactions model solution
    fva st0 self st :
  __init__ pfba flux_variability_analysis metabolite metabolite_reactions model
    solution fva st0 = Some (self, st) ->
  forall ext names threshold,
    (exists d st',
       _display_flux self (self_producing_fluxes self) names threshold (st ++ ext)
       = Some (d, st'))
    /\ (exists d st',
          _display_flux self (self_consuming_fluxes self) names threshold (st ++ ext)
          = Some (d, st')).
Proof.
  intros Hinit ext names threshold.
  pose proof (proj1 (init_in_store _ _ _ _ _ _ _ _ _ _ Hinit)) as Hin.
  apply (summary_in_store_extends self st ext) in Hin.
  destruct Hin as (p & c & Hp & Hc & Hkp & Hkc).
  rewrite !display_flux_run, Hp, Hc.
  destruct (display_frames_total self p names threshold Hkp) as (lp & cp & rp & ->).
  destruct (display_frames_total self c names threshold Hkc) as (lc & cc & rc & ->).
  split; do 2 eexists; reflexivity.
Qed.

End Formatting.

(** ** A threshold that is not positive *)

Lemma SFleb_zero_abs (x : Binary64.float) :
  Binary64.is_nan x = false -> SFleb Binary64.pzero (SFabs x) = true.
Proof. destruct x as [[]|[]| |[] m e]; try discriminate; reflexivity. Qed.

(** X16: with a threshold that is zero or negative, [_display_flux] shows
    every row of a constructed table, the rows with zero flux included: no
    stored flux is NaN, so every absolute value reaches the threshold. *)
Theorem X16_nonpositive_threshold_shows_all_rows pfba analysis metabolite
    metabolite_reactions model solution fva st0
    (self : MetaboliteSummary Binary64.float) st names (threshold : Binary64.float) :
  __init__ pfba analysis metabolite metabolite_reactions model solution fva st0
    = Some (self, st) ->
  fleb threshold fzero = true ->
  forall frame,
    frame = self_producing_fluxes self \/ frame = self_consuming_fluxes self ->
    exists d st' old result,
      _display_flux self frame names threshold st = Some (d, st')
      /\ nth_error st frame = Some old
      /\ nth_error st' d = Some result
      /\ map index (rows result) = map index (rows old)
      /\ List.length (rows result) = List.length (rows old).
Proof.
  intros Hinit Hle frame Hframe.
  destruct (init_in_store _ _ _ _ _ _ _ _ _ _ Hinit)
    as [(p & c & Hp & Hc & Hkp & Hkc) (g & Hg & Hst & Hrp & Hrc)].
  destruct (generate_inv _ _ _ _ _ _ _ _ Hg)
    as (sol & fr & table & _ & _ & _ & _ & Hprod & Hcons).
  assert (Hstored : nth_error st (self_producing_fluxes self) = Some (producing_fluxes g)
                    /\ nth_error st (self_consuming_fluxes self)
                       = Some (consuming_fluxes g)).
  { rewrite Hst, Hrp, Hrc. split.
    - rewrite nth_error_app2, Nat.sub_diag by lia. reflexivity.
    - rewrite nth_error_app2 by lia.
      replace (S (List.length st0) - List.length st0)%nat with 1%nat by lia.
      reflexivity. }
  destruct Hstored as [Hp' Hc'].
  assert (p = producing_fluxes g) by congruence.
  assert (c = consuming_fluxes g) by congruence. subst p c.
  assert (Hnum : forall old,
            (old = producing_fluxes g \/ old = consuming_fluxes g) ->
            forall row, In row (rows old) -> Binary64.is_nan (flux row) = false).
  { intros old [-> | ->] row Hin; [rewrite Hprod in Hin | rewrite Hcons in Hin];
      destruct (select_row_source _ _ _ _ Hin) as (s & _ & Hmask & _ & _ & Hf & _);
      rewrite Hf.
    - exact (proj1 (produced_sign s Hmask)).
    - exact (proj1 (consumed_sign s Hmask)). }
  assert (Hall : forall old,
            (old = producing_fluxes g \/ old = consuming_fluxes g) ->
            known_rows self old ->
            nth_error st frame = Some old ->
            exists d st' old' result,
              _display_flux self frame names threshold st = Some (d, st')
              /\ nth_error st frame = Some old'
              /\ nth_error st' d = Some result
              /\ map index (rows result) = map index (rows old')
              /\ List.length (rows result) = List.length (rows old')).
  { intros old Hold Hknown Hnth.
    assert (Hfilter : filter (row_mask old threshold) (rows old) = rows old).
    { apply forallb_filter_id. apply forallb_forall. intros row Hin.
      assert (Hflux : fgeb (fabs (flux row)) threshold = true).
      { unfold fgeb. simpl. apply (SFleb_trans _ Binary64.pzero _ Hle).
        apply SFleb_zero_abs. exact (Hnum old Hold row Hin). }
      unfold row_mask, keep_ranged, keep_plain.
      destruct (has_column "minimum" old && has_column "maximum" old);
        rewrite Hflux; reflexivity. }
    rewrite display_flux_run, Hnth.
    pose proof (display_frames_rows (_reactions self) old names threshold) as Hrows.
    destruct (display_frames_total self old names threshold Hknown)
      as (located & copy & result & Hframes).
    rewrite Hframes in *. destruct Hrows as (defined & Hdef & Hresult).
    exists (List.length st + 2)%nat, (st ++ [located; copy; result]), old, result.
    split; [reflexivity|]. split; [reflexivity|].
    split; [apply nth_error_result|].
    assert (Hindex : map index (rows result) = map index (rows old)).
    { rewrite Hresult, result_shape_index.
      apply with_definition_index in Hdef. now rewrite Hdef, Hfilter. }
    split; [exact Hindex|].
    apply (f_equal (@List.length string)) in Hindex.
    now rewrite !length_map in Hindex. }
  destruct Hframe as [-> | ->].
  - apply (Hall (producing_fluxes g)); auto.
  - apply (Hall (consuming_fluxes g)); auto.
Qed.

(** * The further properties on the example *)

Lemma X1_init_sorts_reactions_witness :
  exists self st,
    example_summary [] = Some (self, st)
    /\ Permutation (_reactions self) example_reactions
    /\ ascending (map id (_reactions self)).
Proof.
  destruct (example_summary []) as [[self st]|] eqn:Hinit;
    [|vm_compute in Hinit; discriminate].
  exists self, st. split; [reflexivity|].
  destruct (X1_init_sorts_reactions _ _ _ _ _ _ _ _ _ _ Hinit) as (H1 & H2 & _).
  split; assumption.
Defined.

Lemma X2_one_row_per_reaction_witness :
  exists g,
    _generate no_pfba no_analysis water example_reactions
      {| tolerance := tolerance_1e_9 |} (Some example_solution)
      (FvaFrame [("A", (Binary64.of_Z 1, Binary64.of_Z 6))]) = Some g
    /\ NoDup (map fst [("A", (Binary64.of_Z 1, Binary64.of_Z 6))])
    /\ map fx_index (_flux g) = map id example_reactions.
Proof.
  eexists. split; [vm_compute; reflexivity|].
  assert (Hunique : NoDup (map fst [("A", (Binary64.of_Z 1, Binary64.of_Z 6))])).
  { simpl. constructor; [intros []|constructor]. }
  split; [exact Hunique|].
  exact (proj1 (X2_one_row_per_reaction no_pfba no_analysis water example_reactions
                  {| tolerance := tolerance_1e_9 |} (Some example_solution)
                  (FvaFrame [("A", (Binary64.of_Z 1, Binary64.of_Z 6))])
                  (Some [("A", (Binary64.of_Z 1, Binary64.of_Z 6))]) _
                  eq_refl eq_refl Hunique)).
Defined.

Lemma X3_rows_in_ascending_order_witness :
  exists self st producing consuming,
    example_summary [] = Some (self, st)
    /\ nth_error st (self_producing_fluxes self) = Some producing
    /\ nth_error st (self_consuming_fluxes self) = Some consuming
    /\ ascending (map index (rows producing))
    /\ ascending (map index (rows consuming)).
Proof.
  destruct (example_summary []) as [[self st]|] eqn:Hinit;
    [|vm_compute in Hinit; discriminate].
  destruct (X3_rows_in_ascending_order _ _ _ _ _ _ _ _ _ _ Hinit)
    as (producing & consuming & Hp & Hc & _ & H1 & H2).
  exists self, st, producing, consuming. auto.
Defined.

Lemma X4_generate_failures_witness :
  _generate no_pfba no_analysis water [producing_reaction; consuming_reaction]
    {| tolerance := tolerance_1e_9 |} (Some [("A", Binary64.of_Z 5)]) FvaNone = None
  /\ _generate no_pfba no_analysis water [producing_reaction]
       {| tolerance := tolerance_1e_9 |} None FvaNone = None.
Proof.
  split.
  - apply X4_generate_failures. right. right.
    exists [("A", Binary64.of_Z 5)], consuming_reaction.
    split; [left; reflexivity|]. split; [right; left; reflexivity|reflexivity].
  - apply X4_generate_failures. left. split; reflexivity.
Defined.

Lemma X5_no_reactions_witness :
  exists g,
    _generate no_pfba no_analysis water [] {| tolerance := tolerance_1e_9 |}
      (Some []) FvaNone = Some g
    /\ rows (producing_fluxes g) = [] /\ rows (consuming_fluxes g) = []
    /\ columns (producing_fluxes g) = ["flux"; "reaction"; "percent"].
Proof.
  destruct (X5_no_reactions no_pfba no_analysis water {| tolerance := tolerance_1e_9 |}
              (Some []) FvaNone [] None)
    as (g & Hg & _ & Hp & Hc & _ & Hcolumns).
  - left; reflexivity.
  - reflexivity.
  - exists g. auto.
Defined.

Lemma X6_never_in_both_tables_witness :
  exists g,
    _generate no_pfba no_analysis water example_reactions
      {| tolerance := tolerance_1e_9 |} (Some example_solution) FvaNone = Some g
    /\ (List.length (rows (producing_fluxes g)) + List.length (rows (consuming_fluxes g))
        <= List.length (_flux g))%nat.
Proof.
  eexists. split; [vm_compute; reflexivity|].
  exact (proj2 (proj2 (proj2
           (X6_never_in_both_tables no_pfba no_analysis water example_reactions
              {| tolerance := tolerance_1e_9 |} (Some example_solution) FvaNone
              _ eq_refl)))).
Defined.

Lemma X7_signs_of_the_tables_witness :
  exists g,
    _generate no_pfba no_analysis water example_reactions
      {| tolerance := tolerance_1e_9 |} (Some example_solution) FvaNone = Some g
    /\ (forall row, In row (rows (producing_fluxes g)) -> fleb fzero (flux row) = true)
    /\ (forall row, In row (rows (consuming_fluxes g)) -> fleb (flux row) fzero = true).
Proof.
  eexists. split; [vm_compute; reflexivity|].
  destruct (X7_signs_of_the_tables no_pfba no_analysis water example_reactions
              {| tolerance := tolerance_1e_9 |} (Some example_solution) FvaNone
              _ eq_refl) as [Hp Hc].
  split; intros row Hin; [apply (Hp row Hin) | apply (Hc row Hin)].
Defined.

(** A solution whose flux for reaction A is NaN. *)
Lemma X8_nan_flux_witness :
  exists plain ranged,
    _generate no_pfba no_analysis water [producing_reaction]
      {| tolerance := tolerance_1e_9 |} (Some [("A", Binary64.nan)]) FvaNone
    = Some plain
    /\ _generate no_pfba no_analysis water [producing_reaction]
         {| tolerance := tolerance_1e_9 |} (Some [("A", Binary64.nan)])
         (FvaFrame [("A", (Binary64.of_Z 1, Binary64.of_Z 6))])
       = Some ranged
    /\ map fx_flux (_flux plain) = [Binary64.nan]
    /\ rows (producing_fluxes plain) = [] /\ rows (consuming_fluxes plain) = []
    /\ map fx_flux (_flux ranged) = [Binary64.pzero]
    /\ map index (rows (producing_fluxes ranged)) = ["A"]
    /\ exists sol frame,
         resolved_solution no_pfba {| tolerance := tolerance_1e_9 |}
           (Some [("A", Binary64.nan)]) sol
         /\ resolved_fva no_analysis {| tolerance := tolerance_1e_9 |}
              [producing_reaction] FvaNone frame.
Proof.
  do 2 eexists. split; [vm_compute; reflexivity|].
  split; [vm_compute; reflexivity|].
  repeat (split; [vm_compute; reflexivity|]).
  destruct (X8_nan_flux no_pfba no_analysis water [producing_reaction]
              {| tolerance := tolerance_1e_9 |} (Some [("A", Binary64.nan)]) FvaNone
              _ eq_refl) as (sol & frame & Hsol & Hfva & _).
  exists sol, frame. auto.
Defined.

Lemma X9_stored_flux_is_zero_or_reaches_tolerance_witness :
  exists g,
    _generate no_pfba no_analysis water [reversed_reaction]
      {| tolerance := tolerance_1e_9 |} (Some [("B", tiny_flux)]) FvaNone = Some g
    /\ forall row, In row (_flux g) ->
         fltb (fabs (fx_flux row)) tolerance_1e_9 = true ->
         fx_flux row = Binary64.pzero.
Proof.
  eexists. split; [vm_compute; reflexivity|].
  intros row Hin.
  exact (proj1 (X9_stored_flux_is_zero_or_reaches_tolerance no_pfba no_analysis water
                  [reversed_reaction] {| tolerance := tolerance_1e_9 |}
                  (Some [("B", tiny_flux)]) FvaNone _ eq_refl row Hin)).
Defined.

Lemma X10_stored_bounds_are_ordered_witness :
  exists g,
    _generate no_pfba no_analysis water [reversed_reaction; float_reaction "C" 2]
      {| tolerance := tolerance_1e_9 |}
      (Some [("B", Binary64.of_Z 3); ("C", Binary64.of_Z 1)])
      (FvaFrame [("B", (Binary64.of_Z (-2), Binary64.of_Z 4))]) = Some g
    /\ map fx_bounds (_flux g)
       = [Some (Binary64.of_Z (-4), Binary64.of_Z 2);
          Some (Binary64.pzero, Binary64.pzero)]
    /\ forall row, In row (_flux g) ->
       exists minimum maximum,
         fx_bounds row = Some (minimum, maximum) /\ fleb minimum maximum = true.
Proof.
  eexists. split; [vm_compute; reflexivity|].
  split; [vm_compute; reflexivity|].
  apply (X10_stored_bounds_are_ordered no_pfba no_analysis water
           [reversed_reaction; float_reaction "C" 2]
           {| tolerance := tolerance_1e_9 |}
           (Some [("B", Binary64.of_Z 3); ("C", Binary64.of_Z 1)])
           (FvaFrame [("B", (Binary64.of_Z (-2), Binary64.of_Z 4))])
           [("B", (Binary64.of_Z (-2), Binary64.of_Z 4))] _ eq_refl eq_refl).
  - vm_compute; reflexivity.
  - intros r [<-|[<-|[]]]; split; vm_compute; reflexivity.
  - intros key lo hi [H|[]]. injection H as _ <- <-.
    repeat split; vm_compute; reflexivity.
Defined.

Lemma X11_displayed_frame_witness :
  exists self st d st' old result,
    example_summary [] = Some (self, st)
    /\ _display_flux self (self_producing_fluxes self) true (Binary64.of_Z 1) st
       = Some (d, st')
    /\ nth_error st (self_producing_fluxes self) = Some old
    /\ nth_error st' d = Some result
    /\ columns result = ["percent"; "flux"; "reaction"; "definition"]
    /\ map index (rows result) = ["A"; "D"]
    /\ map definition (rows result) = [Some "water"; Some "water"].
Proof.
  destruct (example_summary []) as [[self st]|] eqn:Hinit;
    [|vm_compute in Hinit; discriminate].
  pose proof Hinit as Hvalue. vm_compute in Hvalue. injection Hvalue as <- <-.
  match type of Hinit with
  | _ = Some (?self, ?st) =>
      destruct (_display_flux self (self_producing_fluxes self) true
                  (Binary64.of_Z 1) st) as [[d st']|] eqn:Hrun;
        [|vm_compute in Hrun; discriminate];
      destruct (X11_displayed_frame self _ _ _ st d st' Hrun)
        as (old & result & Hold & Hresult & Hcolumns & _)
  end.
  do 2 eexists. exists d, st', old, result.
  split; [exact Hinit|]. split; [exact Hrun|]. split; [exact Hold|].
  split; [exact Hresult|].
  vm_compute in Hold. injection Hold as <-.
  split; [exact Hcolumns|].
  vm_compute in Hrun. injection Hrun as <- <-.
  vm_compute in Hresult. injection Hresult as <-.
  split; reflexivity.
Defined.

Lemma X12_display_flux_fails_on_unknown_reaction_witness :
  exists self st old,
    example_summary [] = Some (self, st)
    /\ nth_error st 0 = Some old
    /\ _display_flux stray_summary 0 false (Binary64.of_Z 1) st = None
    /\ _display_flux stray_summary 0 false (Binary64.of_Z 9) st <> None.
Proof.
  destruct (example_summary []) as [[self st]|] eqn:Hinit;
    [|vm_compute in Hinit; discriminate].
  pose proof Hinit as Hvalue. vm_compute in Hvalue. injection Hvalue as <- <-.
  match type of Hinit with
  | _ = Some (?self, ?st) =>
      destruct (nth_error st 0) as [old|] eqn:Hold; [|vm_compute in Hold; discriminate];
      pose proof (X12_display_flux_fails_on_unknown_reaction stray_summary 0 false
                    (Binary64.of_Z 1) st old Hold) as Hfails;
      pose proof (X12_display_flux_fails_on_unknown_reaction stray_summary 0 false
                    (Binary64.of_Z 9) st old Hold) as Hpasses
  end.
  do 2 eexists. exists old.
  split; [exact Hinit|]. split; [exact Hold|].
  vm_compute in Hold. injection Hold as <-.
  specialize (Hfails eq_refl eq_refl eq_refl).
  specialize (Hpasses eq_refl eq_refl eq_refl).
  split.
  - apply (proj2 Hfails). eexists. split; [left; reflexivity|].
    split; vm_compute; reflexivity.
  - intros Hnone. destruct (proj1 Hpasses Hnone) as (row & Hin & Hmask & _).
    destruct Hin as [<-|[<-|[<-|[]]]]; vm_compute in Hmask; discriminate.
Defined.

Lemma X13_table_formatters_retitle_their_frame_witness :
  exists self st old st',
    example_summary [] = Some (self, st)
    /\ nth_error st 0 = Some old
    /\ _string_table text_table 0 ".4G" 79 st
       = Some ("Flux Reaction Percent:A,C,D", st')
    /\ nth_error st' 0 = Some (titled old)
    /\ _string_table text_table 0 ".4G" 79 st'
       = Some ("Flux Reaction Percent:A,C,D", st').
Proof.
  destruct (example_summary []) as [[self st]|] eqn:Hinit;
    [|vm_compute in Hinit; discriminate].
  pose proof Hinit as Hvalue. vm_compute in Hvalue. injection Hvalue as <- <-.
  match type of Hinit with
  | _ = Some (?self, ?st) =>
      destruct (nth_error st 0) as [old|] eqn:Hold; [|vm_compute in Hold; discriminate];
      destruct (X13_table_formatters_retitle_their_frame text_table html_table
                  0 ".4G" 79%Z st old Hold)
        as [(st' & Hrun & _ & Hnew & _ & _ & _ & Hagain) _]
  end.
  do 2 eexists. exists old, st'.
  split; [exact Hinit|]. split; [exact Hold|].
  vm_compute in Hold. injection Hold as <-.
  split; [exact Hrun|]. split; [exact Hnew|]. exact Hagain.
Defined.

Lemma X14_rendering_is_repeatable_witness :
  exists self st out st',
    example_summary [] = Some (self, st)
    /\ summary_in_store self st
    /\ to_html html_table self true (Binary64.of_Z 4) ".2f" st = Some (out, st')
    /\ option_map fst
         (to_string text_table no_shorten self false (Binary64.of_Z 1) ".4G" 79 st')
       = option_map fst
           (to_string text_table no_shorten self false (Binary64.of_Z 1) ".4G" 79 st).
Proof.
  destruct (example_summary []) as [[self st]|] eqn:Hinit;
    [|vm_compute in Hinit; discriminate].
  pose proof (proj1 (init_in_store _ _ _ _ _ _ _ _ _ _ Hinit)) as Hin.
  destruct (to_html_total html_table self true (Binary64.of_Z 4) ".2f" st Hin)
    as (out & st' & Hrun).
  exists self, st, out, st'.
  split; [reflexivity|]. split; [exact Hin|]. split; [exact Hrun|].
  exact (proj1 (X14_rendering_is_repeatable text_table html_table no_shorten self st Hin
                  false (Binary64.of_Z 1) ".4G" 79%Z
                  true (Binary64.of_Z 4) ".2f" 0%Z out st' (or_intror Hrun))).
Defined.

Lemma X15_constructed_summary_displays_witness :
  exists self st d st',
    example_summary [] = Some (self, st)
    /\ _display_flux self (self_producing_fluxes self) false (Binary64.of_Z 1) (st ++ [])
       = Some (d, st').
Proof.
  destruct (example_summary []) as [[self st]|] eqn:Hinit;
    [|vm_compute in Hinit; discriminate].
  destruct (X15_constructed_summary_displays no_pfba no_analysis _ _ _ _ _ _ _ _ Hinit
              [] false (Binary64.of_Z 1))
    as [(d & st' & Hrun) _].
  exists self, st, d, st'. split; [reflexivity | exact Hrun].
Defined.

Lemma X16_nonpositive_threshold_shows_all_rows_witness :
  exists self st d st' old result,
    example_summary [] = Some (self, st)
    /\ fleb Binary64.pzero fzero = true
    /\ _display_flux self (self_producing_fluxes self) false Binary64.pzero st
       = Some (d, st')
    /\ nth_error st (self_producing_fluxes self) = Some old
    /\ nth_error st' d = Some result
    /\ map index (rows result) = map index (rows old).
Proof.
  destruct (example_summary []) as [[self st]|] eqn:Hinit;
    [|vm_compute in Hinit; discriminate].
  destruct (X16_nonpositive_threshold_shows_all_rows no_pfba no_analysis _ _ _ _ _ _
              self st false Binary64.pzero Hinit eq_refl
              (self_producing_fluxes self) (or_introl eq_refl))
    as (d & st' & old & result & Hrun & Hold & Hresult & Hindex & _).
  exists self, st, d, st', old, result.
  repeat split; assumption.
Defined.
